(** * githubPRcreator: the crawl-and-update workflow of the renovate updater

    A shallow embedding of [internal/githubops/githubops.go] and of the
    command's [main], followed by the properties of the workflow.

    Layout:
    - [GoStrings]: the functions of Go's [strings] package the program calls;
    - the data of the go-github client the program reads;
    - [World], [Event] and the monad [M]: the environment (GitHub API, clock,
      file system, git executor) and the effects of the program;
    - the program: [FindReposWithRenovate], [createSignedCommit],
      [CheckAndUpdateRenovateConfig], [main];
    - observations on the events of a run, and fixtures;
    - facts about the string functions and about runs;
    - the theorems, and the theorems at work on the fixtures. *)

From Stdlib Require Import Strings.String Strings.Ascii.
From Stdlib Require Import Lists.List.
From Stdlib Require Import ZArith Lia Bool Arith.
Import ListNotations.

Open Scope list_scope.
Open Scope string_scope.

(* ================================================================== *)
(** ** Go's [strings] package *)
(* ================================================================== *)

Module GoStrings.

(** [strings.HasPrefix(s, prefix)]. *)
Fixpoint HasPrefix (s prefix : string) : bool :=
  match prefix with
  | EmptyString => true
  | String a p =>
      match s with
      | EmptyString => false
      | String b t => Ascii.eqb a b && HasPrefix t p
      end
  end.

(** [strings.Contains(s, substr)]: [substr] starts at some position of [s]. *)
Fixpoint Contains (s substr : string) : bool :=
  HasPrefix s substr ||
  match s with
  | EmptyString => false
  | String _ t => Contains t substr
  end.

(** The number of positions of [s] at which [substr] starts. *)
Fixpoint occurrences (s substr : string) : nat :=
  (if HasPrefix s substr then 1 else 0) +
  match s with
  | EmptyString => 0
  | String _ t => occurrences t substr
  end.

(** [s[n:]]. *)
Fixpoint drop (n : nat) (s : string) : string :=
  match n, s with
  | S k, String _ t => drop k t
  | _, _ => s
  end.

(** The scan of [strings.Replace(s, old, new, -1)] for a non-empty [old]:
    left to right, the leftmost instance of [old] is replaced by [new] and the
    scan resumes after it, so the instances replaced do not overlap.  [skip]
    counts the bytes of a replaced instance that are still to be passed. *)
Fixpoint replaceFrom (old new : string) (skip : nat) (s : string) : string :=
  match s with
  | EmptyString => EmptyString
  | String c t =>
      match skip with
      | S k => replaceFrom old new k t
      | O =>
          if HasPrefix s old
          then new ++ replaceFrom old new (String.length old - 1) t
          else String c (replaceFrom old new 0 t)
      end
  end.

(** With an empty [old], Go inserts [new] before every rune and at the end;
    on single-byte runes that is the insertion below (the program never
    passes an empty [old]). *)
Fixpoint insertBefore (new s : string) : string :=
  match s with
  | EmptyString => new
  | String c t => new ++ String c (insertBefore new t)
  end.

(** [strings.ReplaceAll(s, old, new)]. *)
Definition ReplaceAll (s old new : string) : string :=
  if String.eqb old new then s
  else match old with
       | EmptyString => insertBefore new s
       | String _ _ => replaceFrom old new 0 s
       end.

(** [strings.Join(elems, sep)]. *)
Fixpoint Join (elems : list string) (sep : string) : string :=
  match elems with
  | [] => ""
  | [e] => e
  | e :: rest => e ++ sep ++ Join rest sep
  end.

(** The non-empty suffixes of a string, longest first. *)
Fixpoint tails (s : string) : list string :=
  match s with
  | EmptyString => []
  | String _ t => s :: tails t
  end.

(** One of the two strings is a prefix of the other. *)
Definition comparable (a b : string) : bool :=
  HasPrefix a b || HasPrefix b a.

(** No non-empty suffix of [p] is comparable with [q]: wherever [p] ends,
    no instance of [q] starts inside [p] and runs to its end or beyond. *)
Definition apart (p q : string) : bool :=
  forallb (fun t => negb (comparable t q)) (tails p).

End GoStrings.

Import GoStrings.

(** The literal the workflow looks for, and the one it writes instead. *)
Definition marker : string := "github>MyOrg/".
Definition replacement : string := "github>MyOtherOrg/".

(** The rewrite of [CheckAndUpdateRenovateConfig] (line 257). *)
Definition rewrite (contentStr : string) : string :=
  ReplaceAll contentStr marker replacement.

Open Scope string_scope.
Open Scope list_scope.
Open Scope Z_scope.

(* ================================================================== *)
(** ** Data of the client library that the program reads *)
(* ================================================================== *)

(** An [error] value, by the text of its [Error()] method. *)
Definition error : Type := string.

(** [github.Rate]; [Reset] is an instant, in nanoseconds. *)
Record RateLimit : Type := mkRate {
  Limit : Z;
  Remaining : Z;
  Reset : Z
}.

(** The fields of [github.Response] the program reads. *)
Record Response : Type := mkResponse {
  StatusCode : Z;
  Status : string;
  Header : list (string * string);
  Rate : RateLimit;
  NextPage : Z
}.

(** [github.Repository]; an absent field reads as the empty string, as the
    library's [Get...] accessors return it. *)
Record Repository : Type := mkRepository {
  Login : string;          (* Owner.Login *)
  Name : string;
  FullName : string;
  DefaultBranch : string
}.

Definition GetLogin (r : Repository) : string := Login r.
Definition GetName (r : Repository) : string := Name r.
Definition GetFullName (r : Repository) : string := FullName r.
Definition GetDefaultBranch (r : Repository) : string := DefaultBranch r.

(** [github.RepositoryContent], by what its [GetContent] method returns: the
    decoded text or the decoding error. *)
Record RepositoryContent : Type := mkContent {
  GetContent : string + error
}.

(** [github.RepositoryListByOrgOptions] with its embedded [ListOptions]. *)
Record RepositoryListByOrgOptions : Type := mkOpts {
  RepoType : string;
  PerPage : Z;
  Page : Z
}.

Definition withPage (opts : RepositoryListByOrgOptions) (p : Z)
  : RepositoryListByOrgOptions :=
  mkOpts (RepoType opts) (PerPage opts) p.

(** [github.NewPullRequest]. *)
Record NewPullRequest : Type := mkPR {
  Title : string;
  Body : string;
  Head : string;
  Base : string
}.

(** What a call of the client returns.  When [err] is nil the library
    hands back a response; with an error the response may be nil.
    [GetContents] returns, with a nil error, the content of a file, or, when
    the path is a directory, a nil file content next to the directory's
    entries. *)
Inductive ListResult : Type :=
| LOk (repos : list Repository) (resp : Response)
| LErr (resp : option Response) (err : error).

Inductive ContentsResult : Type :=
| COk (content : RepositoryContent) (resp : Response)
| CDirectory (resp : Response)
| CErr (resp : option Response) (err : error).

Inductive GetResult : Type :=
| GOk (repo : Repository)
| GErr (err : error).

(** How a call ends: it returns, or it panics and never returns. *)
Inductive Outcome (A : Type) : Type :=
| Returned (a : A)
| Panicked (msg : string).

Arguments Returned {A} a.
Arguments Panicked {A} msg.

(** The panic of a method call through a nil pointer. *)
Definition nilDereference : string :=
  "runtime error: invalid memory address or nil pointer dereference".

(** [cmd.CombinedOutput()]: the output and the error, if any. *)
Record ExecResult : Type := mkExec {
  output : string;
  exec_err : option error
}.

(* ================================================================== *)
(** ** The environment and the effects *)
(* ================================================================== *)

(** An argument of a log line. *)
Inductive Arg : Type :=
| AStr (s : string)
| AInt (z : Z)
| ADuration (d : Z)
| ATime (t : Z)
| AHeader (h : list (string * string)).

(** What the program does to its environment, with what it got back. *)
Inductive Event : Type :=
| EvLog (format : string) (args : list Arg)
| EvListByOrg (org : string) (opts : RepositoryListByOrgOptions) (r : ListResult)
| EvGetContents (owner repo path : string) (r : ContentsResult)
| EvGet (owner repo : string) (r : GetResult)
| EvCreate (owner repo : string) (pull : NewPullRequest) (r : option error)
| EvSleep (d : Z)
| EvMkdirTemp (dir pattern : string) (r : string + error)
| EvCommand (dir name : string) (args : list string) (r : ExecResult)
| EvWriteFile (name data : string) (r : option error)
| EvRemoveAll (path : string).

(** The environment: for each capability, what its successive calls answer
    (the k-th call, as a function of its arguments), the successive readings
    of the clock, and the temporary directories that exist on disk. *)
Record World : Type := mkWorld {
  w_list : nat -> string -> RepositoryListByOrgOptions -> ListResult;
  w_contents : nat -> string -> string -> string -> ContentsResult;
  w_get : nat -> string -> string -> GetResult;
  w_create : nat -> string -> string -> NewPullRequest -> option error;
  w_clock : nat -> Z;
  w_mkdir : nat -> string -> string -> string + error;
  w_command : nat -> string -> string -> list string -> ExecResult;
  w_write : nat -> string -> string -> option error;
  w_dirs : list string
}.

(** The answers that remain after the next one is taken. *)
Definition shift {A : Type} (f : nat -> A) : nat -> A := fun k => f (S k).

(** The program's effects: a computation reads and changes the environment
    and emits events, oldest first. *)
Definition M (A : Type) : Type := World -> A * list Event * World.

Definition ret {A : Type} (a : A) : M A := fun w => (a, [], w).

Definition bind {A B : Type} (m : M A) (f : A -> M B) : M B :=
  fun w =>
    let '(a, e1, w1) := m w in
    let '(b, e2, w2) := f a w1 in
    (b, e1 ++ e2, w2).

Declare Scope prog_scope.
Delimit Scope prog_scope with prog.
Notation "x <- m ;; k" := (bind m (fun x => k))
  (at level 61, m at next level, right associativity) : prog_scope.
Notation "m ;; k" := (bind m (fun _ => k))
  (at level 61, right associativity) : prog_scope.
Open Scope prog_scope.

(** The result, the events and the final environment of a run. *)
Definition result {A : Type} (x : A * list Event * World) : A := fst (fst x).
Definition events {A : Type} (x : A * list Event * World) : list Event := snd (fst x).
Definition final {A : Type} (x : A * list Event * World) : World := snd x.

(** [g.Log(format, v...)]: a line to the log file and to the console. *)
Definition Log (format : string) (args : list Arg) : M unit :=
  fun w => (tt, [EvLog format args], w).

(** [g.client.Repositories().ListByOrg(g.ctx, org, opts)]. *)
Definition ListByOrg (org : string) (opts : RepositoryListByOrgOptions)
  : M ListResult :=
  fun w =>
    let r := w_list w 0%nat org opts in
    (r, [EvListByOrg org opts r],
     mkWorld (shift (w_list w)) (w_contents w) (w_get w) (w_create w)
             (w_clock w) (w_mkdir w) (w_command w) (w_write w) (w_dirs w)).

(** [g.client.Repositories().GetContents(g.ctx, owner, repo, path, nil)]. *)
Definition GetContents (owner repo path : string) : M ContentsResult :=
  fun w =>
    let r := w_contents w 0%nat owner repo path in
    (r, [EvGetContents owner repo path r],
     mkWorld (w_list w) (shift (w_contents w)) (w_get w) (w_create w)
             (w_clock w) (w_mkdir w) (w_command w) (w_write w) (w_dirs w)).

(** [Repositories.Get(ctx, owner, repo)]. *)
Definition Get (owner repo : string) : M GetResult :=
  fun w =>
    let r := w_get w 0%nat owner repo in
    (r, [EvGet owner repo r],
     mkWorld (w_list w) (w_contents w) (shift (w_get w)) (w_create w)
             (w_clock w) (w_mkdir w) (w_command w) (w_write w) (w_dirs w)).

(** [g.client.PullRequests().Create(g.ctx, owner, repo, pull)]. *)
Definition Create (owner repo : string) (pull : NewPullRequest)
  : M (option error) :=
  fun w =>
    let r := w_create w 0%nat owner repo pull in
    (r, [EvCreate owner repo pull r],
     mkWorld (w_list w) (w_contents w) (w_get w) (shift (w_create w))
             (w_clock w) (w_mkdir w) (w_command w) (w_write w) (w_dirs w)).

(** [time.Now()], in nanoseconds. *)
Definition Now : M Z :=
  fun w =>
    (w_clock w 0%nat, [],
     mkWorld (w_list w) (w_contents w) (w_get w) (w_create w)
             (shift (w_clock w)) (w_mkdir w) (w_command w) (w_write w)
             (w_dirs w)).

(** [time.Duration] is a 64-bit count of nanoseconds; [Time.Sub] saturates. *)
Definition maxDuration : Z := 2 ^ 63 - 1.
Definition minDuration : Z := - 2 ^ 63.

Definition saturate (d : Z) : Z := Z.max minDuration (Z.min maxDuration d).

(** [time.Until(t)] is [t.Sub(time.Now())]. *)
Definition Until (t : Z) : M Z :=
  now <- Now ;; ret (saturate (t - now)).

(** [time.Sleep(d)]. *)
Definition Sleep (d : Z) : M unit :=
  fun w => (tt, [EvSleep d], w).

(** [os.MkdirTemp(dir, pattern)]: on success the new directory exists. *)
Definition MkdirTemp (dir pattern : string) : M (string + error) :=
  fun w =>
    let r := w_mkdir w 0%nat dir pattern in
    (r, [EvMkdirTemp dir pattern r],
     mkWorld (w_list w) (w_contents w) (w_get w) (w_create w)
             (w_clock w) (shift (w_mkdir w)) (w_command w) (w_write w)
             (match r with
              | inl d => d :: w_dirs w
              | inr _ => w_dirs w
              end)).

(** [os.RemoveAll(path)]: the directory and what it holds are gone. *)
Definition RemoveAll (path : string) : M unit :=
  fun w =>
    (tt, [EvRemoveAll path],
     mkWorld (w_list w) (w_contents w) (w_get w) (w_create w)
             (w_clock w) (w_mkdir w) (w_command w) (w_write w)
             (filter (fun d => negb (String.eqb d path)) (w_dirs w))).

(** [exec.Command(name, args...)] with [cmd.Dir = dir], run by
    [cmd.CombinedOutput()]. *)
Definition CombinedOutput (dir name : string) (args : list string)
  : M ExecResult :=
  fun w =>
    let r := w_command w 0%nat dir name args in
    (r, [EvCommand dir name args r],
     mkWorld (w_list w) (w_contents w) (w_get w) (w_create w)
             (w_clock w) (w_mkdir w) (shift (w_command w)) (w_write w)
             (w_dirs w)).

(** [os.WriteFile(name, data, 0644)]. *)
Definition WriteFile (name data : string) : M (option error) :=
  fun w =>
    let r := w_write w 0%nat name data in
    (r, [EvWriteFile name data r],
     mkWorld (w_list w) (w_contents w) (w_get w) (w_create w)
             (w_clock w) (w_mkdir w) (w_command w) (shift (w_write w))
             (w_dirs w)).

(** [defer cleanup]: [cleanup] runs when the body returns, whatever it
    returns. *)
Definition defer {A : Type} (cleanup : M unit) (body : M A) : M A :=
  r <- body ;; cleanup ;; ret r.

(* ================================================================== *)
(** ** The program *)
(* ================================================================== *)

(** *** [FindReposWithRenovate] *)

(** The candidate paths of line 104, in the order they are tried. *)
Definition candidatePaths : list string :=
  ["renovate.json"; ".github/renovate.json"]%string.

Definition initialOpts : RepositoryListByOrgOptions :=
  mkOpts "all" 100 0.

Definition logFound (repo : Repository) (path : string) : M unit :=
  Log "Found renovate.json in %s at %s" [AStr (GetFullName repo); AStr path].

(** Lines 133-135: the error of a failed check is logged unless its text
    holds "404". *)
Definition logCheckError (path : string) (repo : Repository) (err : error)
  : M unit :=
  if negb (Contains err "404")
  then Log "Error checking %s in %s: %v"
           [AStr path; AStr (GetFullName repo); AStr err]
  else ret tt.

(** The loop over the candidate paths of one repository (lines 105-136);
    [break] returns the list, [continue] goes to the remaining paths. *)
Fixpoint probePaths (org : string) (repo : Repository) (paths : list string)
    (allRepos : list Repository) : M (list Repository) :=
  match paths with
  | [] => ret allRepos
  | path :: rest =>
      let next := probePaths org repo rest allRepos in
      let failed (err : error) := (logCheckError path repo err ;; next) in
      r <- GetContents org (GetName repo) path ;;
      match r with
      | COk _ _ | CDirectory _ =>
          logFound repo path ;;
          ret (allRepos ++ [repo])
      | CErr None err => failed err
      | CErr (Some resp) err =>
          if StatusCode resp =? 404 then next
          else if Remaining (Rate resp) =? 0 then
            let resetTime := Reset (Rate resp) in
            waitTime <- Until resetTime ;;
            if waitTime >? 0 then
              Log "Rate limit reached while checking files. Waiting %v until reset at %v"
                  [ADuration waitTime; ATime resetTime] ;;
              Sleep waitTime ;;
              r' <- GetContents org (GetName repo) path ;;
              match r' with
              | COk _ _ | CDirectory _ =>
                  logFound repo path ;;
                  ret (allRepos ++ [repo])
              | CErr _ err' => failed err'
              end
            else failed err
          else failed err
      end
  end.

(** The loop over the repositories of one page (lines 102-137). *)
Fixpoint probeRepos (org : string) (repos allRepos : list Repository)
  : M (list Repository) :=
  match repos with
  | [] => ret allRepos
  | repo :: rest =>
      allRepos' <- probePaths org repo candidatePaths allRepos ;;
      probeRepos org rest allRepos'
  end.

(** How [FindReposWithRenovate] ends; the page loop has no bound of its own,
    so the model runs it for at most [fuel] page requests. *)
Inductive CrawlResult : Type :=
| Crawled (allRepos : list Repository)
| CrawlError (err : error)
| OutOfFuel.

(** The page loop (lines 69-143). *)
Fixpoint crawl (fuel : nat) (org : string) (opts : RepositoryListByOrgOptions)
    (allRepos : list Repository) : M CrawlResult :=
  match fuel with
  | O => ret OutOfFuel
  | S fuel' =>
      r <- ListByOrg org opts ;;
      match r with
      | LErr resp err =>
          Log "Error listing repositories: %v" [AStr err] ;;
          match resp with
          | Some rs =>
              Log "Response status: %s" [AStr (Status rs)] ;;
              Log "Response headers: %+v" [AHeader (Header rs)]
          | None => ret tt
          end ;;
          ret (CrawlError err)
      | LOk repos resp =>
          let process :=
            (allRepos' <- probeRepos org repos allRepos ;;
             if NextPage resp =? 0 then
               Log "Total repositories with renovate.json found: %d"
                   [AInt (Z.of_nat (length allRepos'))] ;;
               ret (Crawled allRepos')
             else crawl fuel' org (withPage opts (NextPage resp)) allRepos') in
          Log "Found %d repositories in org (page %d)"
              [AInt (Z.of_nat (length repos)); AInt (Page opts)] ;;
          Log "Rate limit: %d/%d remaining"
              [AInt (Remaining (Rate resp)); AInt (Limit (Rate resp))] ;;
          (if Remaining (Rate resp) <? 100
           then Log "Approaching rate limit. Remaining: %d"
                    [AInt (Remaining (Rate resp))]
           else ret tt) ;;
          if Remaining (Rate resp) =? 0 then
            let resetTime := Reset (Rate resp) in
            waitTime <- Until resetTime ;;
            if waitTime >? 0 then
              Log "Rate limit reached. Waiting %v until reset at %v"
                  [ADuration waitTime; ATime resetTime] ;;
              Sleep waitTime ;;
              crawl fuel' org opts allRepos
            else process
          else process
      end
  end.

Definition FindReposWithRenovate (fuel : nat) (org : string) : M CrawlResult :=
  Log "Finding repositories with renovate.json for org: %s" [AStr org] ;;
  crawl fuel org initialOpts [].

(** *** [createSignedCommit] *)

Definition branchName : string := "update-renovate-config".

(** A step that may fail: on an error the function returns it. *)
Definition andThen (step rest : M (option error)) : M (option error) :=
  r <- step ;;
  match r with
  | Some err => ret (Some err)
  | None => rest
  end.

(** A git command; its failure is reported with the combined output. *)
Definition git (dir : string) (args : list string) (what : string)
  : M (option error) :=
  r <- CombinedOutput dir "git" args ;;
  match exec_err r with
  | Some err => ret (Some (what ++ err ++ ", output: " ++ output r)%string)
  | None => ret None
  end.

Definition cloneURL (repo : Repository) : string :=
  ("git@github.com:" ++ GetLogin repo ++ "/" ++ GetName repo ++ ".git")%string.

(** [filepath.Join(tempDir, "renovate.json")], for the clean, non-empty path
    that [os.MkdirTemp] hands back, which [Join]'s cleaning leaves as it
    is. *)
Definition renovatePath (tempDir : string) : string :=
  (tempDir ++ "/renovate.json")%string.

Definition commitCmd (gpgKeyID : string) : list string :=
  ["commit"; "-m"; "Update renovate.json to use MyOtherOrg"]%string ++
  (if String.eqb gpgKeyID "" then [] else ["-S"%string]).

(** Lines 158-229: what runs between the creation of the directory and the
    deferred removal. *)
Definition commitSteps (repo : Repository) (content gpgKeyID tempDir : string)
  : M (option error) :=
  Log "Created temporary directory: %s" [AStr tempDir] ;;
  Log "Cloning repository: %s" [AStr (cloneURL repo)] ;;
  andThen (git "" ["clone"; cloneURL repo; tempDir]%string
               "error cloning repository: ") (
  Log "Repository cloned successfully" [] ;;
  Log "Creating and checking out branch: %s" [AStr branchName] ;;
  andThen (git tempDir ["checkout"; "-b"; branchName]%string
               "error creating branch: ") (
  Log "Branch created and checked out successfully" [] ;;
  Log "Writing renovate.json to: %s" [AStr (renovatePath tempDir)] ;;
  andThen (r <- WriteFile (renovatePath tempDir) content ;;
           match r with
           | Some err => ret (Some ("error writing renovate.json: " ++ err)%string)
           | None => ret None
           end) (
  Log "renovate.json written successfully" [] ;;
  Log "Adding renovate.json to git" [] ;;
  andThen (git tempDir ["add"; "renovate.json"]%string
               "error adding file: ") (
  Log "File added to git successfully" [] ;;
  andThen (if String.eqb gpgKeyID "" then ret None
           else
             Log "Configuring git for signing with key: %s" [AStr gpgKeyID] ;;
             andThen (git tempDir ["config"; "user.signingkey"; gpgKeyID]%string
                          "error configuring signing key: ") (
             Log "Git signing configured successfully" [] ;;
             ret None)) (
  Log "Creating commit with command: git %s"
      [AStr (Join (commitCmd gpgKeyID) " ")] ;;
  andThen (git tempDir (commitCmd gpgKeyID) "error creating commit: ") (
  Log "Commit created successfully" [] ;;
  Log "Pushing branch to remote" [] ;;
  andThen (git tempDir ["push"; "origin"; branchName]%string
               "error pushing branch: ") (
  Log "Branch pushed successfully" [] ;;
  ret None))))))).

Definition createSignedCommit (repo : Repository) (content gpgKeyID : string)
  : M (option error) :=
  Log "Starting to create signed commit for repository: %s"
      [AStr (GetFullName repo)] ;;
  d <- MkdirTemp "" "github-renovate-updater-*" ;;
  match d with
  | inr err => ret (Some ("error creating temp directory: " ++ err)%string)
  | inl tempDir =>
      defer (RemoveAll tempDir) (commitSteps repo content gpgKeyID tempDir)
  end.

(** *** [CheckAndUpdateRenovateConfig] *)

Definition pullRequest (defaultBranch : string) : NewPullRequest :=
  mkPR "@JiraIssue-xx | Update renovate.json to use MyOtherOrg"
       "This PR updates the renovate.json configuration to use the MyOtherOrg organization instead of MyOrg. (changes `github>MyOrg` to `github>MyOtherOrg`)"
       "update-renovate-config"
       defaultBranch.

Definition CheckAndUpdateRenovateConfig (repo : Repository) (dryRun : bool)
    (gpgKeyID : string) : M (Outcome (option error)) :=
  Log "Starting to check and update renovate config for repository: %s"
      [AStr (GetFullName repo)] ;;
  Log "Getting renovate.json content" [] ;;
  r <- GetContents (GetLogin repo) (GetName repo) "renovate.json" ;;
  match r with
  | CErr _ err =>
      ret (Returned (Some ("error getting renovate.json content: " ++ err)%string))
  | CDirectory _ =>
      (* [content] is nil: [content.GetContent()] (line 243) panics *)
      Log "Successfully retrieved renovate.json content" [] ;;
      ret (Panicked nilDereference)
  | COk content _ =>
      Log "Successfully retrieved renovate.json content" [] ;;
      match GetContent content with
      | inr err => ret (Returned (Some ("error decoding content: " ++ err)%string))
      | inl contentStr =>
          Log "Content decoded successfully" [] ;;
          if negb (Contains contentStr marker) then
            Log "No need to update - content does not contain 'github>MyOrg/'" [] ;;
            ret (Returned None)
          else
            Log "Content contains 'github>MyOrg/' - proceeding with update" [] ;;
            let newContent := rewrite contentStr in
            Log "Content updated successfully" [] ;;
            if dryRun then
              Log "[DRY RUN] Would update renovate.json in %s"
                  [AStr (GetFullName repo)] ;;
              ret (Returned None)
            else
              Log "Creating signed commit" [] ;;
              c <- createSignedCommit repo newContent gpgKeyID ;;
              match c with
              | Some err =>
                  ret (Returned (Some ("error creating signed commit: " ++ err)%string))
              | None =>
                  Log "Signed commit created successfully" [] ;;
                  Log "Getting default branch name" [] ;;
                  g <- Get (GetLogin repo) (GetName repo) ;;
                  match g with
                  | GErr err =>
                      ret (Returned (Some ("error getting repository info: " ++ err)%string))
                  | GOk repoInfo =>
                      let defaultBranch := GetDefaultBranch repoInfo in
                      Log "Default branch is: %s" [AStr defaultBranch] ;;
                      Log "Creating pull request" [] ;;
                      p <- Create (GetLogin repo) (GetName repo)
                                  (pullRequest defaultBranch) ;;
                      match p with
                      | Some err =>
                          ret (Returned (Some ("error creating PR: " ++ err)%string))
                      | None =>
                          Log "Pull request created successfully" [] ;;
                          ret (Returned None)
                      end
                  end
              end
      end
  end.

(** *** [main] *)

(** The command-line flags, after [flag.Parse()]. *)
Record Flags : Type := mkFlags {
  orgName : string;
  repoName : string;
  dryRun : bool;
  githubToken : string;
  gpgKeyID : string
}.

(** How the process ends: [main] returns (status 0), [log.Fatal] prints
    its message and exits with status 1, or a panic that nothing recovers
    ends the process with status 2. *)
Inductive Exit : Type :=
| Returns
| Fatal (format : string) (args : list Arg)
| Panics (msg : string)
| Unfinished.

Definition exitStatus (e : Exit) : option Z :=
  match e with
  | Returns => Some 0
  | Fatal _ _ => Some 1
  | Panics _ => Some 2
  | Unfinished => None
  end.

(** The loop of lines 373-380: an error is logged and the loop goes on; a
    panic of the workflow leaves the loop. *)
Fixpoint processRepos (repos : list Repository) (dry : bool) (key : string)
  : M (Outcome unit) :=
  match repos with
  | [] => ret (Returned tt)
  | repo :: rest =>
      Log "Processing repository: %s" [AStr (GetFullName repo)] ;;
      o <- CheckAndUpdateRenovateConfig repo dry key ;;
      match o with
      | Panicked msg => ret (Panicked msg)
      | Returned err =>
          match err with
          | Some e =>
              Log "Error processing repository %s: %v"
                  [AStr (GetFullName repo); AStr e]
          | None => ret tt
          end ;;
          processRepos rest dry key
      end
  end.

(** [main], from the parsed flags on, with the client and its logger set
    up; [fuel] bounds the page requests of the crawl. *)
Definition main (fuel : nat) (flags : Flags) : M Exit :=
  if String.eqb (githubToken flags) "" then
    ret (Fatal "GitHub token is required. Please provide it using the -token flag" [])
  else if negb (String.eqb (repoName flags) "") then
    g <- Get (orgName flags) (repoName flags) ;;
    match g with
    | GErr err =>
        ret (Fatal "Error getting repository %s: %v"
                   [AStr (repoName flags); AStr err])
    | GOk repo =>
        Log "Processing single repository: %s" [AStr (GetFullName repo)] ;;
        o <- CheckAndUpdateRenovateConfig repo (dryRun flags) (gpgKeyID flags) ;;
        match o with
        | Panicked msg => ret (Panics msg)
        | Returned (Some e) =>
            ret (Fatal "Error processing repository %s: %v"
                       [AStr (GetFullName repo); AStr e])
        | Returned None => ret Returns
        end
    end
  else
    c <- FindReposWithRenovate fuel (orgName flags) ;;
    match c with
    | CrawlError err => ret (Fatal "Error finding repositories: %v" [AStr err])
    | OutOfFuel => ret Unfinished
    | Crawled repos =>
        Log "Found %d repositories with renovate.json"
            [AInt (Z.of_nat (length repos))] ;;
        o <- processRepos repos (dryRun flags) (gpgKeyID flags) ;;
        match o with
        | Panicked msg => ret (Panics msg)
        | Returned _ => ret Returns
        end
    end.

(* ================================================================== *)
(** ** Observations on the events of a run *)
(* ================================================================== *)

(** An event that only [createSignedCommit] emits: its first log line and
    its dealings with the file system and the git executor. *)
Definition isCommitEvent (e : Event) : bool :=
  match e with
  | EvLog f _ =>
      String.eqb f "Starting to create signed commit for repository: %s"
  | EvMkdirTemp _ _ _ | EvCommand _ _ _ _ | EvWriteFile _ _ _
  | EvRemoveAll _ => true
  | _ => false
  end.

(** A call of the pull-request creation API. *)
Definition isCreate (e : Event) : bool :=
  match e with EvCreate _ _ _ _ => true | _ => false end.

(** A fetch of the repository's metadata. *)
Definition isGet (e : Event) : bool :=
  match e with EvGet _ _ _ => true | _ => false end.

Definition isLog (e : Event) : bool :=
  match e with EvLog _ _ => true | _ => false end.

Definition isListByOrg (e : Event) : bool :=
  match e with EvListByOrg _ _ _ => true | _ => false end.

Definition succeeded (r : ContentsResult) : bool :=
  match r with COk _ _ | CDirectory _ => true | CErr _ _ => false end.

(** The content checks of a run, in order: the path asked for and whether
    the check succeeded. *)
Fixpoint contentChecks (evs : list Event) : list (string * bool) :=
  match evs with
  | [] => []
  | EvGetContents _ _ path r :: rest => (path, succeeded r) :: contentChecks rest
  | _ :: rest => contentChecks rest
  end.

(** The repositories whose update workflow a run started, by the full name
    in the first log line of [CheckAndUpdateRenovateConfig]. *)
Fixpoint workflowsStarted (evs : list Event) : list string :=
  match evs with
  | [] => []
  | EvLog f [AStr full] :: rest =>
      if String.eqb f
           "Starting to check and update renovate config for repository: %s"
      then full :: workflowsStarted rest
      else workflowsStarted rest
  | _ :: rest => workflowsStarted rest
  end.

(** The calls of the API, the clock's sleeps included, without the log
    lines. *)
Definition calls (evs : list Event) : list Event :=
  filter (fun e => negb (isLog e)) evs.

(** The page cursors requested, in order. *)
Fixpoint pagesRequested (evs : list Event) : list Z :=
  match evs with
  | [] => []
  | EvListByOrg _ opts _ :: rest => Page opts :: pagesRequested rest
  | _ :: rest => pagesRequested rest
  end.

Definition isGetContents (e : Event) : bool :=
  match e with EvGetContents _ _ _ _ => true | _ => false end.

(** The first log line of [CheckAndUpdateRenovateConfig]. *)
Definition isWorkflowStart (e : Event) : bool :=
  match e with
  | EvLog f _ =>
      String.eqb f
        "Starting to check and update renovate config for repository: %s"
  | _ => false
  end.

(** What the workflow may emit once the file is fetched: no further content
    check and no first log line of a workflow. *)
Definition afterFetch (e : Event) : bool :=
  negb (isGetContents e) && negb (isWorkflowStart e).

(** Every event of every run of [m] satisfies [P]. *)
Definition emits {A : Type} (P : Event -> bool) (m : M A) : Prop :=
  forall w : World, forallb P (events (m w)) = true.

(** The diagnostic of a failed step of [createSignedCommit]: the combined
    output of a git command that returned an error, or the error of a failed
    write. *)
Definition failure (e : Event) : option string :=
  match e with
  | EvCommand _ _ _ r =>
      match exec_err r with
      | Some _ => Some (output r)
      | None => None
      end
  | EvWriteFile _ _ (Some err) => Some err
  | _ => None
  end.

(** Whenever a step of [m] fails, [m] returns an error whose text holds the
    step's diagnostic. *)
Definition reports (m : M (option error)) : Prop :=
  forall (w : World) (e : Event) (d : string),
    In e (events (m w)) -> failure e = Some d ->
    exists msg : error, result (m w) = Some msg /\ Contains msg d = true.

(** The loops of the probe only check contents, sleep and log. *)
Definition isProbeEvent (e : Event) : bool :=
  match e with
  | EvLog _ _ | EvGetContents _ _ _ _ | EvSleep _ => true
  | _ => false
  end.

(** [m] leaves the answers of the page listing as they are. *)
Definition keepsList {A : Type} (m : M A) : Prop :=
  forall w : World, w_list (final (m w)) = w_list w.

(** The page loop suspends on a response that reports no remaining calls and
    a reset time still ahead of the clock's reading [now]. *)
Definition suspends (resp : Response) (now : Z) : bool :=
  (Remaining (Rate resp) =? 0) &&
  (saturate (Reset (Rate resp) - now) >? 0).

(** The environment serves the given pages, one per call of the listing,
    each asked for with the cursor the page before it reported; no page
    reports an exhausted rate limit, and only the last reports no next
    page. *)
Fixpoint serves (answers : nat -> string -> RepositoryListByOrgOptions -> ListResult)
    (org : string) (opts : RepositoryListByOrgOptions)
    (pages : list (list Repository * Response)) : Prop :=
  match pages with
  | [] => True
  | (repos, resp) :: rest =>
      answers 0%nat org opts = LOk repos resp /\
      Remaining (Rate resp) <> 0 /\
      (NextPage resp = 0 <-> rest = []) /\
      serves (shift answers) org (withPage opts (NextPage resp)) rest
  end.

Definition sameOpts (a b : RepositoryListByOrgOptions) : bool :=
  String.eqb (RepoType a) (RepoType b) && (PerPage a =? PerPage b)
  && (Page a =? Page b).

(** The pages the crawl worked on, read off its calls: a page response is
    left out when the call right after it is a sleep, which is the
    rate-limit wait of the page loop. *)
Fixpoint effectivePages (cs : list Event) : list (list Repository) :=
  match cs with
  | [] => []
  | EvListByOrg _ _ (LOk repos _) :: rest =>
      match rest with
      | EvSleep _ :: _ => effectivePages rest
      | _ => repos :: effectivePages rest
      end
  | _ :: rest => effectivePages rest
  end.

(** Whenever a sleep comes right after a page response, that response
    reported no remaining calls, and the call after the sleep, if the run
    gets to it, asks for the same page of the same organization again. *)
Fixpoint retriesSamePage (cs : list Event) : bool :=
  match cs with
  | [] => true
  | EvListByOrg org opts r :: rest =>
      match rest with
      | EvSleep _ :: after =>
          match r with
          | LOk _ resp => Remaining (Rate resp) =? 0
          | LErr _ _ => false
          end &&
          match after with
          | [] => true
          | EvListByOrg org' opts' _ :: _ =>
              String.eqb org' org && sameOpts opts' opts
          | _ => false
          end
      | _ => true
      end && retriesSamePage rest
  | _ :: rest => retriesSamePage rest
  end.

(** [l1] is [l2] with some elements left out. *)
Inductive Subseq {A : Type} : list A -> list A -> Prop :=
| Subseq_nil : Subseq [] []
| Subseq_skip (x : A) (l1 l2 : list A) : Subseq l1 l2 -> Subseq l1 (x :: l2)
| Subseq_take (x : A) (l1 l2 : list A) :
    Subseq l1 l2 -> Subseq (x :: l1) (x :: l2).

(** The calls of a probe: content checks and sleeps, a check first. *)
Definition probeCalls (cs : list Event) : Prop :=
  Forall (fun e => isProbeEvent e = true) cs /\
  match cs with
  | EvSleep _ :: _ => False
  | _ => True
  end.

(** What the crawl of [org] may emit: log lines, but not the first line of
    a workflow or of [createSignedCommit]; listings of [org] with the
    type "all" and 100 entries per page; content checks in [org] at one of
    the two candidate paths; sleeps of a positive duration. *)
Definition isCrawlEventOf (org : string) (e : Event) : bool :=
  match e with
  | EvLog f _ => negb (isWorkflowStart e) && negb (isCommitEvent e)
  | EvListByOrg o opts _ =>
      String.eqb o org && String.eqb (RepoType opts) "all"
      && (PerPage opts =? 100)
  | EvGetContents o _ path _ =>
      String.eqb o org
      && (String.eqb path "renovate.json"
          || String.eqb path ".github/renovate.json")
  | EvSleep d => d >? 0
  | _ => false
  end.

(** Neither an event of [createSignedCommit] nor a pull-request creation. *)
Definition publishesNothing (e : Event) : bool :=
  negb (isCommitEvent e) && negb (isCreate e).

(** The directories [os.MkdirTemp] created, and those [os.RemoveAll] was
    called on, in order. *)
Fixpoint created (evs : list Event) : list string :=
  match evs with
  | [] => []
  | EvMkdirTemp _ _ (inl d) :: rest => d :: created rest
  | _ :: rest => created rest
  end.

Fixpoint removed (evs : list Event) : list string :=
  match evs with
  | [] => []
  | EvRemoveAll d :: rest => d :: removed rest
  | _ :: rest => removed rest
  end.

(** Every run of [m] removes the directories it creates, in order. *)
Definition balanced {A : Type} (m : M A) : Prop :=
  forall w : World, created (events (m w)) = removed (events (m w)).

(** A step of the publisher: a git command or the write of the file. *)
Definition isStep (e : Event) : bool :=
  match e with
  | EvCommand _ _ _ _ | EvWriteFile _ _ _ => true
  | _ => false
  end.

(** [m] returns an error only when one of its steps failed. *)
Definition blames (m : M (option error)) : Prop :=
  forall (w : World) (msg : error),
    result (m w) = Some msg ->
    exists e d, In e (events (m w)) /\ failure e = Some d.

(** A failed step is the last thing [m] does. *)
Definition stopsAtFailure (m : M (option error)) : Prop :=
  forall (w : World) (e : Event) (d : string),
    In e (events (m w)) -> failure e = Some d ->
    exists pre, events (m w) = pre ++ [e].

(** When [m] returns no error, it emitted an event that satisfies [P]. *)
Definition endsWith (P : Event -> Prop) (m : M (option error)) : Prop :=
  forall w : World,
    result (m w) = None -> exists e, In e (events (m w)) /\ P e.

(** A successful push of the branch from [dir]. *)
Definition isPushed (dir : string) (e : Event) : Prop :=
  exists r, e = EvCommand dir "git" ["push"; "origin"; branchName]%string r
            /\ exec_err r = None.

(** What [createSignedCommit] may emit: log lines other than the first line
    of a workflow, and its dealings with the file system and the git
    executor. *)
Definition isPublisherEvent (e : Event) : bool :=
  match e with
  | EvLog _ _ => negb (isWorkflowStart e)
  | EvMkdirTemp _ _ _ | EvCommand _ _ _ _ | EvWriteFile _ _ _
  | EvRemoveAll _ => true
  | _ => false
  end.

(** Every write of [e], if it is one, writes [content]. *)
Definition writesOnly (content : string) (e : Event) : bool :=
  match e with
  | EvWriteFile _ data _ => String.eqb data content
  | _ => true
  end.

(** Neither the creation nor the removal of a directory. *)
Definition touchesNoDirs (e : Event) : bool :=
  match e with
  | EvMkdirTemp _ _ _ | EvRemoveAll _ => false
  | _ => true
  end.

(** The page requests of a run follow the cursor [cur]: each listing asks
    for the current cursor; after a response followed by a sleep the cursor
    stays; after a response that is worked on the cursor becomes the next
    page the response reported, and when that is 0 no listing follows; after
    a failed listing nothing follows. *)
Fixpoint followsCursor (cur : Z) (cs : list Event) : bool :=
  match cs with
  | [] => true
  | EvListByOrg _ opts r :: rest =>
      (Page opts =? cur) &&
      match r with
      | LErr _ _ => match rest with [] => true | _ :: _ => false end
      | LOk _ resp =>
          match rest with
          | EvSleep _ :: _ => followsCursor cur rest
          | _ =>
              if NextPage resp =? 0
              then forallb (fun e => negb (isListByOrg e)) rest
              else followsCursor (NextPage resp) rest
          end
      end
  | _ :: rest => followsCursor cur rest
  end.

(** An error logged by the probe does not hold "404". *)
Definition logsNo404 (e : Event) : bool :=
  match e with
  | EvLog f [AStr _; AStr _; AStr err] =>
      if String.eqb f "Error checking %s in %s: %v"
      then negb (Contains err "404")
      else true
  | _ => true
  end.

Definition isSleep (e : Event) : bool :=
  match e with EvSleep _ => true | _ => false end.

(** A call whose response reported no remaining calls, which is what makes
    the crawl wait: a page response, or a failed content check other than a
    404. *)
Definition exhausted (e : Event) : bool :=
  match e with
  | EvListByOrg _ _ (LOk _ resp) => Remaining (Rate resp) =? 0
  | EvGetContents _ _ _ (CErr (Some resp) _) =>
      negb (StatusCode resp =? 404) && (Remaining (Rate resp) =? 0)
  | _ => false
  end.

(** Every sleep among the calls [cs], which follow the call [prev], comes
    right after a call whose response reported no remaining calls: after a
    page response it is the wait of the page loop, after a failed content
    check it is the wait of the probe. *)
Fixpoint waitsExplained (prev : option Event) (cs : list Event) : bool :=
  match cs with
  | [] => true
  | e :: rest =>
      (if isSleep e
       then match prev with Some p => exhausted p | None => false end
       else true)
      && waitsExplained (Some e) rest
  end.

(** The call at the head of [cs], if there is one, is not a sleep. *)
Definition startsAwake (cs : list Event) : Prop :=
  match cs with
  | EvSleep _ :: _ => False
  | _ => True
  end.

(* ================================================================== *)
(** ** Fixtures *)
(* ================================================================== *)

(** A configuration that already extends one preset of the new
    organization and three of the old one. *)
Definition partlyMigrated : string :=
  "github>MyOtherOrg/base github>MyOrg/a github>MyOrg/b github>MyOrg/c".

(** Responses. *)
Definition okResponse : Response :=
  mkResponse 200 "200 OK" [] (mkRate 5000 4999 0) 0.

Definition notFound : Response :=
  mkResponse 404 "404 Not Found" [] (mkRate 5000 4990 0) 0.

(** No calls remain until the instant [reset]. *)
Definition limited (reset : Z) : Response :=
  mkResponse 403 "403 Forbidden" [] (mkRate 5000 0 reset) 0.

(** The repositories of the organization [Acme]. *)
Definition repoA : Repository := mkRepository "Acme" "A" "Acme/A" "main".
Definition repoB : Repository := mkRepository "Acme" "B" "Acme/B" "main".
Definition repoC : Repository := mkRepository "Acme" "C" "Acme/C" "trunk".

Definition plainConfig : RepositoryContent :=
  mkContent (inl "extends: config:base"%string).

Definition orgConfig : RepositoryContent :=
  mkContent (inl "extends: github>MyOrg/lib"%string).

(** The answers to successive calls, [d] once they are used up. *)
Definition script {A : Type} (answers : list A) (d : A) : nat -> A :=
  fun k => nth k answers d.

(** An environment in which nothing answers: every call of the API fails,
    the clock stands at 0, and the local commands succeed. *)
Definition offline : World :=
  mkWorld (fun _ _ _ => LErr None "dial tcp: connection refused"%string)
          (fun _ _ _ _ => CErr None "dial tcp: connection refused"%string)
          (fun _ _ _ => GErr "dial tcp: connection refused"%string)
          (fun _ _ _ _ => Some "dial tcp: connection refused"%string)
          (fun _ => 0)
          (fun _ _ _ => inl "/tmp/github-renovate-updater-1"%string)
          (fun _ _ _ _ => mkExec "" None)
          (fun _ _ _ => None)
          [].

Definition withList (f : nat -> string -> RepositoryListByOrgOptions -> ListResult)
    (w : World) : World :=
  mkWorld f (w_contents w) (w_get w) (w_create w) (w_clock w) (w_mkdir w)
          (w_command w) (w_write w) (w_dirs w).

Definition withContents (f : nat -> string -> string -> string -> ContentsResult)
    (w : World) : World :=
  mkWorld (w_list w) f (w_get w) (w_create w) (w_clock w) (w_mkdir w)
          (w_command w) (w_write w) (w_dirs w).

Definition withCommand (f : nat -> string -> string -> list string -> ExecResult)
    (w : World) : World :=
  mkWorld (w_list w) (w_contents w) (w_get w) (w_create w) (w_clock w)
          (w_mkdir w) f (w_write w) (w_dirs w).

Definition rateLimitError : error :=
  "403 API rate limit exceeded"%string.

(** One page that lists [repoC]; its root-path check is answered twice with
    an exhausted rate limit that resets at instant 100, and its nested-path
    check succeeds. *)
Definition limitedTwice : World :=
  withList (fun _ _ _ => LOk [repoC] okResponse)
    (withContents
       (fun k _ _ _ =>
          script [CErr (Some (limited 100)) rateLimitError;
                  CErr (Some (limited 100)) rateLimitError;
                  COk plainConfig okResponse]
                 (CErr (Some notFound) "404 Not Found"%string) k)
       offline).

(** Every content check succeeds with a configuration that does not hold
    the marker. *)
Definition servesPlain : World :=
  withContents (fun _ _ _ _ => COk plainConfig okResponse) offline.

(** Every content check succeeds with a configuration that holds the
    marker. *)
Definition servesOrgConfig : World :=
  withContents (fun _ _ _ _ => COk orgConfig okResponse) offline.

(** The clone is refused; the other commands would succeed. *)
Definition cloneRefused : ExecResult :=
  mkExec "fatal: repository not found" (Some "exit status 128"%string).

Definition cloneFails : World :=
  withCommand (fun k _ _ _ => script [cloneRefused] (mkExec "" None) k)
              offline.

(** The organization [Acme]: [A] has no configuration file, [B] has one at
    the root path that holds the marker, [C] has one at the nested path that
    does not.  One page lists them. *)
Definition acmeContents (k : nat) (owner repo path : string) : ContentsResult :=
  if String.eqb repo "B" && String.eqb path "renovate.json"
  then COk orgConfig okResponse
  else if String.eqb repo "C" && String.eqb path ".github/renovate.json"
  then COk plainConfig okResponse
  else CErr (Some notFound) "404 Not Found"%string.

Definition acmeGet (k : nat) (owner repo : string) : GetResult :=
  if String.eqb repo "A" then GOk repoA
  else if String.eqb repo "B" then GOk repoB
  else if String.eqb repo "C" then GOk repoC
  else GErr "404 Not Found"%string.

Definition acme : World :=
  mkWorld (fun _ _ _ => LOk [repoA; repoC; repoB] okResponse)
          acmeContents acmeGet
          (fun _ _ _ _ => None)
          (fun _ => 0)
          (fun _ _ _ => inl "/tmp/github-renovate-updater-1"%string)
          (fun _ _ _ _ => mkExec "" None)
          (fun _ _ _ => None)
          [].

Definition acmeFlags : Flags :=
  mkFlags "Acme" "" false "ghp_token" "".

Definition acmeSingleC : Flags :=
  mkFlags "Acme" "C" false "ghp_token" "".

(** Three pages of one repository each, with the cursors 2, 3 and 0. *)
Definition pageTo (next : Z) : Response :=
  mkResponse 200 "200 OK" [] (mkRate 5000 4000 0) next.

Definition threePages : list (list Repository * Response) :=
  [([repoA], pageTo 2); ([repoB], pageTo 3); ([repoC], pageTo 0)].

Definition servesThreePages : World :=
  withList (fun k _ _ =>
              script (map (fun p => LOk (fst p) (snd p)) threePages)
                     (LErr None "unexpected request"%string) k)
           offline.

(** The first answer of the listing reports no remaining calls until the
    instant 100; the second one is served in full. *)
Definition exhaustedPage : Response :=
  mkResponse 200 "200 OK" [] (mkRate 5000 0 100) 0.

Definition limitedPage : World :=
  withList (fun k _ _ =>
              script [LOk [repoB] exhaustedPage] (LOk [repoB] okResponse) k)
           (withContents acmeContents offline).



(** Every answer of the listing reports no remaining calls until the
    instant 100, and the clock stands at 0. *)
Definition alwaysLimited : World :=
  withList (fun _ _ _ => LOk [repoB] exhaustedPage) offline.

(** No repository has the file: every content check is answered 404. *)
Definition noneHasFile : World :=
  withContents (fun _ _ _ _ => CErr (Some notFound) "404 Not Found"%string)
               offline.

(** The organization [Acme] with a remote that refuses the push: the fifth
    git command fails. *)
Definition pushRefused : ExecResult :=
  mkExec "remote: Permission denied" (Some "exit status 1"%string).

Definition acmePushFails : World :=
  withCommand
    (fun k _ _ _ =>
       script [mkExec "" None; mkExec "" None; mkExec "" None;
               mkExec "" None; pushRefused]
              (mkExec "" None) k)
    acme.

Definition acmeDryRun : Flags :=
  mkFlags "Acme" "" true "ghp_token" "".

(** The organization [Acme] with a fourth repository, [D], in which
    [renovate.json] is a directory: the content check succeeds with no file
    content.  One page lists [A], [C], [D] and [B]. *)
Definition repoD : Repository := mkRepository "Acme" "D" "Acme/D" "main".

Definition acmeWithDirectory : World :=
  withList (fun _ _ _ => LOk [repoA; repoC; repoD; repoB] okResponse)
    (withContents
       (fun k owner repo path =>
          if String.eqb repo "D" && String.eqb path "renovate.json"
          then CDirectory okResponse
          else acmeContents k owner repo path)
       acme).

(** The listing of [Acme] shifts between two page requests: the first
    answer reports no remaining calls until the instant 100, the page is
    then served again with the cursor 2, and the page 2 lists [B] once
    more. *)
Definition shiftedListing : World :=
  withList (fun k _ _ =>
              script [LOk [repoA; repoB] exhaustedPage;
                      LOk [repoA; repoB] (pageTo 2);
                      LOk [repoB; repoC] (pageTo 0)]
                     (LErr None "unexpected request"%string) k)
           (withContents acmeContents offline).
(* ================================================================== *)
(** ** Facts about the string functions *)
(* ================================================================== *)

Section StringFacts.

Open Scope nat_scope.
Open Scope string_scope.

Lemma HasPrefix_nil_r (s : string) : HasPrefix s "" = true.
Proof. destruct s; reflexivity. Qed.

Lemma HasPrefix_app (p r : string) : HasPrefix (p ++ r) p = true.
Proof.
  induction p as [|a p IH]; simpl.
  - apply HasPrefix_nil_r.
  - now rewrite Ascii.eqb_refl.
Qed.

Lemma HasPrefix_split (s p : string) :
  HasPrefix s p = true -> s = p ++ drop (String.length p) s.
Proof.
  revert s; induction p as [|a p IH]; intros s H; simpl in *.
  - now destruct s.
  - destruct s as [|b t]; [discriminate|].
    apply andb_true_iff in H as [Hab Ht].
    apply Ascii.eqb_eq in Hab; subst b.
    simpl. f_equal. now apply IH.
Qed.

Lemma drop_length (n : nat) (s : string) :
  String.length (drop n s) = String.length s - n.
Proof.
  revert s; induction n as [|n IH]; intros [|c t]; simpl; auto.
Qed.

Lemma comparable_app (a b r : string) :
  comparable a b = false -> HasPrefix (a ++ r) b = false.
Proof.
  revert b; induction a as [|x a IH]; intros b H.
  - unfold comparable in H. rewrite HasPrefix_nil_r, orb_true_r in H.
    discriminate.
  - destruct b as [|y b].
    + discriminate.
    + unfold comparable in H. simpl in *.
      destruct (Ascii.eqb_spec y x) as [->|Hne]; simpl; [|reflexivity].
      rewrite Ascii.eqb_refl in H. simpl in H.
      apply IH. exact H.
Qed.

Lemma comparable_sym (a b : string) : comparable a b = comparable b a.
Proof. unfold comparable. apply orb_comm. Qed.

(** A block [a] none of whose suffixes is comparable with [p] holds no start
    of an instance of [p], whatever follows it. *)
Lemma occurrences_app_apart (a b p : string) :
  apart a p = true -> occurrences (a ++ b) p = occurrences b p.
Proof.
  unfold apart.
  induction a as [|c a IH]; intros H; [reflexivity|].
  cbn [tails forallb] in H.
  apply andb_true_iff in H as [Hc Ha].
  apply negb_true_iff in Hc.
  change (String c a ++ b) with (String c (a ++ b)).
  cbn [occurrences].
  change (String c (a ++ b)) with (String c a ++ b).
  rewrite (comparable_app _ _ b Hc). simpl. now apply IH.
Qed.

(** An instance of [p] in front, none of whose proper suffixes is comparable
    with [p], counts once. *)
Lemma occurrences_app_self (p b : string) :
  (match p with EmptyString => false | String _ t => apart t p end) = true ->
  occurrences (p ++ b) p = S (occurrences b p).
Proof.
  destruct p as [|c t]; [discriminate|]; intros H.
  change (String c t ++ b) with (String c (t ++ b)).
  cbn [occurrences].
  change (String c (t ++ b)) with (String c t ++ b).
  rewrite HasPrefix_app. simpl. f_equal.
  now apply occurrences_app_apart.
Qed.

End StringFacts.

(* ================================================================== *)
(** ** Facts about the replacement scan *)
(* ================================================================== *)

Section ReplaceFacts.

Open Scope nat_scope.
Open Scope string_scope.

(** Two non-empty literals, given by their first byte and the rest. *)
Variables (o n : ascii) (old' new' : string).

Let old : string := String o old'.
Let new : string := String n new'.

(** What the two literals must satisfy for instances to be counted exactly:
    no instance of one can overlap an instance of the other, or of itself. *)
Hypothesis old_new : apart old new = true.
Hypothesis new_old : apart new old = true.
Hypothesis old_old : apart old' old = true.
Hypothesis new_new : apart new' new = true.

Lemma replaceFrom_skip (a b : string) (k : nat) (s : string) :
  replaceFrom a b k s = replaceFrom a b 0 (drop k s).
Proof.
  revert k; induction s as [|c t IH]; intros [|k]; try reflexivity.
  simpl. apply IH.
Qed.

Lemma replaceFrom_hit (c : ascii) (t : string) :
  HasPrefix (String c t) old = true ->
  replaceFrom old new 0 (String c t) =
  new ++ replaceFrom old new 0 (drop (String.length old) (String c t)).
Proof.
  intros H. cbn [replaceFrom]. rewrite H. f_equal.
  rewrite replaceFrom_skip. f_equal.
  unfold old. simpl. now rewrite Nat.sub_0_r.
Qed.

Lemma replaceFrom_miss (c : ascii) (t : string) :
  HasPrefix (String c t) old = false ->
  replaceFrom old new 0 (String c t) = String c (replaceFrom old new 0 t).
Proof. intros H. cbn [replaceFrom]. now rewrite H. Qed.

Lemma apart_head (c : ascii) (w q : string) :
  apart (String c w) q = true ->
  comparable (String c w) q = false /\ apart w q = true.
Proof.
  unfold apart. cbn [tails forallb]. intros H.
  apply andb_true_iff in H as [H1 H2].
  apply negb_true_iff in H1. now split.
Qed.

(** A word none of whose suffixes can overlap [old] or [new] is a prefix of
    the scan's result exactly when it is a prefix of the input. *)
Lemma HasPrefix_replaceFrom (w s : string) :
  apart w old = true -> apart w new = true ->
  HasPrefix (replaceFrom old new 0 s) w = HasPrefix s w.
Proof.
  revert w; induction s as [|c t IH]; intros w Hwo Hwn; [reflexivity|].
  destruct w as [|y w]; [now rewrite !HasPrefix_nil_r|].
  apply apart_head in Hwo as [Hco Hwo].
  apply apart_head in Hwn as [Hcn Hwn].
  destruct (HasPrefix (String c t) old) eqn:Hp.
  - rewrite (replaceFrom_hit _ _ Hp).
    rewrite comparable_sym in Hcn. rewrite (comparable_app _ _ _ Hcn).
    rewrite (HasPrefix_split _ _ Hp).
    rewrite comparable_sym in Hco. now rewrite (comparable_app _ _ _ Hco).
  - rewrite (replaceFrom_miss _ _ Hp). cbn [HasPrefix].
    now rewrite IH.
Qed.

(** When the input does not start with [old], the result starts with one of
    the two literals exactly when the input does. *)
Lemma HasPrefix_miss_old (c : ascii) (t : string) :
  HasPrefix (String c (replaceFrom old new 0 t)) old = HasPrefix (String c t) old.
Proof.
  change (Ascii.eqb o c && HasPrefix (replaceFrom old new 0 t) old' =
          Ascii.eqb o c && HasPrefix t old').
  rewrite HasPrefix_replaceFrom; auto.
  now apply apart_head in old_new.
Qed.

Lemma HasPrefix_miss_new (c : ascii) (t : string) :
  HasPrefix (String c (replaceFrom old new 0 t)) new = HasPrefix (String c t) new.
Proof.
  change (Ascii.eqb n c && HasPrefix (replaceFrom old new 0 t) new' =
          Ascii.eqb n c && HasPrefix t new').
  rewrite HasPrefix_replaceFrom; auto.
  now apply apart_head in new_old.
Qed.

Lemma occurrences_replaceFrom_le (m : nat) (s : string) :
  String.length s <= m ->
  occurrences (replaceFrom old new 0 s) old = 0 /\
  occurrences (replaceFrom old new 0 s) new =
    occurrences s old + occurrences s new.
Proof.
  revert s; induction m as [|m IH]; intros s Hlen.
  - destruct s; [|simpl in Hlen; lia]. simpl. auto.
  - destruct s as [|c t]; [simpl; auto|].
    destruct (HasPrefix (String c t) old) eqn:Hp.
    + rewrite (replaceFrom_hit _ _ Hp).
      set (s' := drop (String.length old) (String c t)).
      assert (Hs' : String.length s' <= m).
      { subst s'. rewrite drop_length. simpl in Hlen |- *. lia. }
      destruct (IH s' Hs') as [IH1 IH2].
      rewrite (occurrences_app_apart _ _ _ new_old), IH1.
      rewrite (occurrences_app_self new _ new_new), IH2.
      rewrite (HasPrefix_split _ _ Hp). fold s'.
      rewrite (occurrences_app_self old _ old_old).
      rewrite (occurrences_app_apart _ _ _ old_new).
      split; [reflexivity | lia].
    + rewrite (replaceFrom_miss _ _ Hp).
      assert (Ht : String.length t <= m) by (simpl in Hlen; lia).
      destruct (IH t Ht) as [IH1 IH2].
      cbn [occurrences].
      rewrite HasPrefix_miss_old, HasPrefix_miss_new, Hp, IH1, IH2.
      split; [reflexivity | lia].
Qed.

Lemma occurrences_replaceFrom (s : string) :
  occurrences (replaceFrom old new 0 s) old = 0 /\
  occurrences (replaceFrom old new 0 s) new =
    occurrences s old + occurrences s new.
Proof. apply (occurrences_replaceFrom_le (String.length s)). lia. Qed.

End ReplaceFacts.

Lemma rewrite_scan (s : string) : rewrite s = replaceFrom marker replacement 0 s.
Proof. reflexivity. Qed.

(* ================================================================== *)
(** ** Facts about runs *)
(* ================================================================== *)

Section RunFacts.

Context {A B : Type}.

Lemma bind_run (m : M A) (f : A -> M B) (w : World) :
  bind m f w =
  (result (f (result (m w)) (final (m w))),
   events (m w) ++ events (f (result (m w)) (final (m w))),
   final (f (result (m w)) (final (m w)))).
Proof.
  unfold bind, result, events, final.
  destruct (m w) as [[a e1] w1]; simpl.
  destruct (f a w1) as [[b e2] w2]; reflexivity.
Qed.

Lemma bind_result (m : M A) (f : A -> M B) (w : World) :
  result (bind m f w) = result (f (result (m w)) (final (m w))).
Proof. now rewrite bind_run. Qed.

Lemma bind_events (m : M A) (f : A -> M B) (w : World) :
  events (bind m f w) =
  events (m w) ++ events (f (result (m w)) (final (m w))).
Proof. now rewrite bind_run. Qed.

Lemma bind_final (m : M A) (f : A -> M B) (w : World) :
  final (bind m f w) = final (f (result (m w)) (final (m w))).
Proof. now rewrite bind_run. Qed.

End RunFacts.

Lemma HasPrefix_refl (s : string) : HasPrefix s s = true.
Proof.
  induction s as [|a s IH]; simpl; [reflexivity|].
  now rewrite Ascii.eqb_refl.
Qed.

Lemma Contains_refl (s : string) : Contains s s = true.
Proof.
  destruct s as [|c t]; [reflexivity|].
  cbn [Contains]. rewrite HasPrefix_refl. reflexivity.
Qed.

Lemma Contains_app_l (a b sub : string) :
  Contains b sub = true -> Contains (a ++ b)%string sub = true.
Proof.
  intros H. induction a as [|c a IH]; [exact H|].
  change (String c a ++ b)%string with (String c (a ++ b)%string).
  cbn [Contains]. rewrite IH. apply orb_true_r.
Qed.

(** *** Classes of events *)

Section Emits.

Variable P : Event -> bool.

Lemma emits_ret {A : Type} (a : A) : emits P (ret a).
Proof. intros w. reflexivity. Qed.

Lemma emits_bind {A B : Type} (m : M A) (f : A -> M B) :
  emits P m -> (forall a, emits P (f a)) -> emits P (bind m f).
Proof.
  intros Hm Hf w. rewrite bind_events, forallb_app.
  now rewrite Hm, Hf.
Qed.

Lemma emits_Log (f : string) (a : list Arg) :
  P (EvLog f a) = true -> emits P (Log f a).
Proof. intros H w. simpl. now rewrite H. Qed.

Lemma emits_Sleep (d : Z) : P (EvSleep d) = true -> emits P (Sleep d).
Proof. intros H w. simpl. now rewrite H. Qed.

Lemma emits_Now : emits P Now.
Proof. intros w. reflexivity. Qed.

Lemma emits_ListByOrg (org : string) (opts : RepositoryListByOrgOptions) :
  (forall r, P (EvListByOrg org opts r) = true) -> emits P (ListByOrg org opts).
Proof. intros H w. simpl. now rewrite H. Qed.

Lemma emits_GetContents (owner repo path : string) :
  (forall r, P (EvGetContents owner repo path r) = true) ->
  emits P (GetContents owner repo path).
Proof. intros H w. simpl. now rewrite H. Qed.

Lemma emits_Get (owner repo : string) :
  (forall r, P (EvGet owner repo r) = true) -> emits P (Get owner repo).
Proof. intros H w. simpl. now rewrite H. Qed.

Lemma emits_Create (owner repo : string) (pull : NewPullRequest) :
  (forall r, P (EvCreate owner repo pull r) = true) ->
  emits P (Create owner repo pull).
Proof. intros H w. simpl. now rewrite H. Qed.

Lemma emits_MkdirTemp (dir pattern : string) :
  (forall r, P (EvMkdirTemp dir pattern r) = true) ->
  emits P (MkdirTemp dir pattern).
Proof. intros H w. simpl. now rewrite H. Qed.

Lemma emits_RemoveAll (path : string) :
  P (EvRemoveAll path) = true -> emits P (RemoveAll path).
Proof. intros H w. simpl. now rewrite H. Qed.

Lemma emits_CombinedOutput (dir name : string) (args : list string) :
  (forall r, P (EvCommand dir name args r) = true) ->
  emits P (CombinedOutput dir name args).
Proof. intros H w. simpl. now rewrite H. Qed.

Lemma emits_WriteFile (name data : string) :
  (forall r, P (EvWriteFile name data r) = true) ->
  emits P (WriteFile name data).
Proof. intros H w. simpl. now rewrite H. Qed.

End Emits.

(** A proof that follows the program text: binds are split, the branches of
    a [match] or an [if] are taken in turn, and each primitive is checked
    against the class. *)
Ltac emits_step :=
  first
    [ apply emits_ret
    | apply emits_bind; [|intros ?]
    | apply emits_Log; reflexivity
    | apply emits_Sleep; reflexivity
    | apply emits_Now
    | apply emits_ListByOrg; intros ?; reflexivity
    | apply emits_GetContents; intros ?; reflexivity
    | apply emits_Get; intros ?; reflexivity
    | apply emits_Create; intros ?; reflexivity
    | apply emits_MkdirTemp; intros ?; reflexivity
    | apply emits_RemoveAll; reflexivity
    | apply emits_CombinedOutput; intros ?; reflexivity
    | apply emits_WriteFile; intros ?; reflexivity
    | match goal with
      | |- emits _ (match ?x with _ => _ end) => destruct x
      end ].

Ltac emits_auto :=
  unfold andThen, git, defer, Until, logFound, logCheckError;
  repeat emits_step.

Lemma createSignedCommit_afterFetch (repo : Repository) (content key : string) :
  emits afterFetch (createSignedCommit repo content key).
Proof. unfold createSignedCommit, commitSteps. emits_auto. Qed.

(** Running a program symbolically: its definition is unfolded down to the
    answers of the environment. *)
Ltac run :=
  cbv beta iota zeta delta
    [CheckAndUpdateRenovateConfig createSignedCommit commitSteps andThen git
     defer bind ret Log ListByOrg GetContents Get Create MkdirTemp RemoveAll
     CombinedOutput WriteFile Now Until Sleep logFound logCheckError
     probePaths probeRepos candidatePaths
     result events final fst snd shift negb];
  cbn [w_list w_contents w_get w_create w_clock w_mkdir w_command w_write
       w_dirs app].

Lemma contentChecks_app (a b : list Event) :
  contentChecks (a ++ b) = contentChecks a ++ contentChecks b.
Proof.
  induction a as [|e a IH]; [reflexivity|].
  destruct e; simpl; now rewrite ?IH.
Qed.

Lemma workflowsStarted_app (a b : list Event) :
  workflowsStarted (a ++ b) = workflowsStarted a ++ workflowsStarted b.
Proof.
  induction a as [|e a IH]; [reflexivity|].
  destruct e as [f args| | | | | | | | |]; simpl; rewrite ?IH; try reflexivity.
  destruct args as [|[s|z|d|t|h] [|x args]]; try reflexivity.
  now destruct String.eqb.
Qed.

Lemma afterFetch_contentChecks (evs : list Event) :
  forallb afterFetch evs = true -> contentChecks evs = [].
Proof.
  induction evs as [|e evs IH]; [reflexivity|].
  simpl. intros H. apply andb_true_iff in H as [He H].
  destruct e; try (now apply IH). discriminate.
Qed.

Lemma afterFetch_workflowsStarted (evs : list Event) :
  forallb afterFetch evs = true -> workflowsStarted evs = [].
Proof.
  induction evs as [|e evs IH]; [reflexivity|].
  simpl. intros H. apply andb_true_iff in H as [He H].
  destruct e as [f args| | | | | | | | |]; try (now apply IH).
  unfold afterFetch in He. simpl in He.
  destruct args as [|[s|z|d|t|h] [|x args]]; try (now apply IH).
  destruct String.eqb; [discriminate | now apply IH].
Qed.

(** The shape of every run of the workflow: two log lines, the fetch at
    the root path, and then neither a content check nor a workflow start. *)
Lemma workflow_events (repo : Repository) (dry : bool) (key : string)
    (w : World) :
  exists rest : list Event,
    events (CheckAndUpdateRenovateConfig repo dry key w) =
      EvLog "Starting to check and update renovate config for repository: %s"
            [AStr (GetFullName repo)]
      :: EvLog "Getting renovate.json content" []
      :: EvGetContents (GetLogin repo) (GetName repo) "renovate.json"
           (w_contents w 0%nat (GetLogin repo) (GetName repo) "renovate.json")
      :: rest /\
    forallb afterFetch rest = true.
Proof.
  unfold CheckAndUpdateRenovateConfig.
  rewrite 3 bind_events.
  eexists; split; [reflexivity|].
  match goal with
  | |- forallb _ (events (?k ?w')) = true =>
      generalize w'; change (emits afterFetch k)
  end.
  pose proof createSignedCommit_afterFetch as Hc.
  destruct (w_contents w 0%nat (GetLogin repo) (GetName repo) "renovate.json");
    emits_auto; apply Hc.
Qed.

(** *** Failed steps are reported *)

Lemma reports_ret (r : option error) : reports (ret r).
Proof. intros w e d []. Qed.

Lemma reports_Log (f : string) (a : list Arg) (m : M (option error)) :
  reports m -> reports (Log f a ;; m).
Proof.
  intros Hm w e d Hin Hf.
  rewrite bind_events in Hin. rewrite bind_result.
  destruct Hin as [<- | Hin]; [discriminate|].
  exact (Hm _ e d Hin Hf).
Qed.

Lemma reports_andThen (step rest : M (option error)) :
  reports step -> reports rest -> reports (andThen step rest).
Proof.
  intros Hs Hr w e d Hin Hf. unfold andThen in *.
  rewrite bind_events in Hin. rewrite bind_result.
  apply in_app_or in Hin.
  destruct (result (step w)) as [err|] eqn:Hres.
  - destruct Hin as [Hin | []].
    destruct (Hs w e d Hin Hf) as [msg [Hmsg Hc]].
    exists msg. split; [|exact Hc]. rewrite Hres in Hmsg. exact Hmsg.
  - destruct Hin as [Hin | Hin].
    + destruct (Hs w e d Hin Hf) as [msg [Hmsg _]]. congruence.
    + exact (Hr _ e d Hin Hf).
Qed.

Lemma reports_git (dir : string) (args : list string) (what : string) :
  reports (git dir args what).
Proof.
  intros w e d Hin Hf. unfold git in *.
  rewrite bind_events in Hin. rewrite bind_result.
  change (events (CombinedOutput dir "git" args w))
    with [EvCommand dir "git" args (w_command w 0%nat dir "git"%string args)] in Hin.
  change (result (CombinedOutput dir "git" args w))
    with (w_command w 0%nat dir "git"%string args) in *.
  destruct (exec_err (w_command w 0%nat dir "git"%string args)) as [err|] eqn:He.
  - destruct Hin as [<- | []]. simpl in Hf. rewrite He in Hf.
    injection Hf as <-. eexists; split; [reflexivity|].
    apply Contains_app_l, Contains_app_l, Contains_app_l, Contains_refl.
  - destruct Hin as [<- | []]. simpl in Hf. rewrite He in Hf. discriminate.
Qed.

Lemma reports_write (name data : string) :
  reports (r <- WriteFile name data ;;
           match r with
           | Some err => ret (Some ("error writing renovate.json: " ++ err)%string)
           | None => ret None
           end).
Proof.
  intros w e d Hin Hf.
  rewrite bind_events in Hin. rewrite bind_result.
  change (events (WriteFile name data w))
    with [EvWriteFile name data (w_write w 0%nat name data)] in Hin.
  change (result (WriteFile name data w)) with (w_write w 0%nat name data) in *.
  destruct (w_write w 0%nat name data) as [err|] eqn:He;
    destruct Hin as [<- | []]; simpl in Hf; [|discriminate].
  injection Hf as <-. eexists; split; [reflexivity|].
  apply Contains_app_l, Contains_refl.
Qed.

Lemma commitSteps_reports (repo : Repository) (content key tempDir : string) :
  reports (commitSteps repo content key tempDir).
Proof.
  unfold commitSteps.
  repeat first
    [ apply reports_Log
    | apply reports_andThen
    | apply reports_git
    | apply reports_write
    | apply reports_ret
    | match goal with |- reports (if ?b then _ else _) => destruct b end ].
Qed.

Lemma defer_events {A : Type} (cleanup : M unit) (body : M A) (w : World) :
  events (defer cleanup body w) =
  events (body w) ++ events (cleanup (final (body w))).
Proof.
  unfold defer. rewrite !bind_events. simpl. now rewrite app_nil_r.
Qed.

Lemma defer_result {A : Type} (cleanup : M unit) (body : M A) (w : World) :
  result (defer cleanup body w) = result (body w).
Proof. unfold defer. now rewrite !bind_result. Qed.

Lemma defer_final {A : Type} (cleanup : M unit) (body : M A) (w : World) :
  final (defer cleanup body w) = final (cleanup (final (body w))).
Proof. unfold defer. now rewrite !bind_final. Qed.

Lemma not_in_removed (path : string) (dirs : list string) :
  ~ In path (filter (fun d => negb (String.eqb d path)) dirs).
Proof.
  intros H. apply filter_In in H as [_ H].
  now rewrite String.eqb_refl in H.
Qed.

(** One step of a loop: the effects are unfolded, the loops are not. *)
Ltac step :=
  cbv beta iota zeta delta
    [bind ret Log ListByOrg GetContents Get Create Now Until Sleep
     logFound logCheckError result events final fst snd shift negb];
  cbn [w_list w_contents w_get w_create w_clock w_mkdir w_command w_write
       w_dirs app].

(** The cases of one round of the probe: each answer of the environment and
    each test of the program is taken both ways. *)
Ltac probe_cases :=
  repeat (step;
    match goal with
    | |- context [match w_contents ?w ?k ?o ?r ?p with _ => _ end] =>
        destruct (w_contents w k o r p) as [? ?|?|[?|] ?] eqn:?
    | |- context [if ?a =? ?b then _ else _] => destruct (a =? b) eqn:?
    | |- context [if ?a >? ?b then _ else _] => destruct (a >? b) eqn:?
    | |- context [if Contains ?a ?b then _ else _] =>
        destruct (Contains a b) eqn:?
    end).

(** One round of the probe either records the repository after one or two
    checks of the path, the last of which succeeded, or goes on with the
    remaining paths after one or two failed checks of the path. *)
Lemma probePaths_cons (org : string) (repo : Repository) (path : string)
    (rest : list string) (acc : list Repository) (w : World) :
  let run := probePaths org repo (path :: rest) acc w in
  (result run = acc ++ [repo] /\
   (contentChecks (events run) = [(path, true)] \/
    contentChecks (events run) = [(path, false); (path, true)])) \/
  (exists (w' : World) (pre : list (string * bool)),
     (pre = [(path, false)] \/ pre = [(path, false); (path, false)]) /\
     result run = result (probePaths org repo rest acc w') /\
     contentChecks (events run) =
       pre ++ contentChecks (events (probePaths org repo rest acc w'))).
Proof.
  cbn zeta. cbn [probePaths].
  probe_cases;
    try (left; split; [reflexivity | auto]; fail);
    right;
    match goal with
    | |- context [probePaths org repo rest acc ?w1] =>
        exists w1; destruct (probePaths org repo rest acc w1) as [[res evs] wf]
    end;
    first
      [ exists [(path, false)];
        split; [now left | split; reflexivity]
      | exists [(path, false); (path, false)];
        split; [now right | split; reflexivity] ].
Qed.

(** *** The page listing is left alone by the probe *)

Lemma keepsList_ret {A : Type} (a : A) : keepsList (ret a).
Proof. intros w. reflexivity. Qed.

Lemma keepsList_bind {A B : Type} (m : M A) (f : A -> M B) :
  keepsList m -> (forall a, keepsList (f a)) -> keepsList (bind m f).
Proof. intros Hm Hf w. now rewrite bind_final, Hf, Hm. Qed.

Lemma keepsList_Log (f : string) (a : list Arg) : keepsList (Log f a).
Proof. intros w. reflexivity. Qed.

Lemma keepsList_Sleep (d : Z) : keepsList (Sleep d).
Proof. intros w. reflexivity. Qed.

Lemma keepsList_Now : keepsList Now.
Proof. intros w. reflexivity. Qed.

Lemma keepsList_GetContents (owner repo path : string) :
  keepsList (GetContents owner repo path).
Proof. intros w. reflexivity. Qed.

Ltac keeps_step :=
  first
    [ apply keepsList_ret
    | apply keepsList_bind; [|intros ?]
    | apply keepsList_Log
    | apply keepsList_Sleep
    | apply keepsList_Now
    | apply keepsList_GetContents
    | assumption
    | match goal with
      | |- keepsList (match ?x with _ => _ end) => destruct x
      end ].

Lemma probePaths_keepsList (org : string) (repo : Repository)
    (paths : list string) (acc : list Repository) :
  keepsList (probePaths org repo paths acc).
Proof.
  induction paths as [|path rest IH]; [apply keepsList_ret|].
  cbn [probePaths]. cbn zeta.
  unfold Until, logFound, logCheckError. repeat keeps_step.
Qed.

Lemma probeRepos_keepsList (org : string) (repos acc : list Repository) :
  keepsList (probeRepos org repos acc).
Proof.
  revert acc; induction repos as [|repo rest IH]; intros acc;
    [apply keepsList_ret|].
  cbn [probeRepos]. apply keepsList_bind; [apply probePaths_keepsList|].
  intros a. apply IH.
Qed.

Lemma probePaths_emits (org : string) (repo : Repository)
    (paths : list string) (acc : list Repository) :
  emits isProbeEvent (probePaths org repo paths acc).
Proof.
  induction paths as [|path rest IH]; [apply emits_ret|].
  cbn [probePaths]. cbn zeta.
  unfold Until, logFound, logCheckError.
  repeat first [assumption | emits_step].
Qed.

Lemma probeRepos_emits (org : string) (repos acc : list Repository) :
  emits isProbeEvent (probeRepos org repos acc).
Proof.
  revert acc; induction repos as [|repo rest IH]; intros acc;
    [apply emits_ret|].
  cbn [probeRepos]. apply emits_bind; [apply probePaths_emits|].
  intros a. apply IH.
Qed.

(** *** One round of the page loop *)

Lemma calls_app (a b : list Event) : calls (a ++ b) = calls a ++ calls b.
Proof. apply filter_app. Qed.

Lemma crawl_failed (fuel : nat) (org : string)
    (opts : RepositoryListByOrgOptions) (acc : list Repository) (w : World)
    (resp : option Response) (err : error) :
  w_list w 0%nat org opts = LErr resp err ->
  let run := crawl (S fuel) org opts acc w in
  result run = CrawlError err /\
  calls (events run) = [EvListByOrg org opts (LErr resp err)].
Proof.
  intros H. cbn zeta. cbn [crawl]. step. rewrite H.
  destruct resp; split; reflexivity.
Qed.

Lemma crawl_suspended (fuel : nat) (org : string)
    (opts : RepositoryListByOrgOptions) (acc : list Repository) (w : World)
    (repos : list Repository) (resp : Response) :
  w_list w 0%nat org opts = LOk repos resp ->
  suspends resp (w_clock w 0%nat) = true ->
  let next := crawl fuel org opts acc
                (final (Now (final (ListByOrg org opts w)))) in
  let run := crawl (S fuel) org opts acc w in
  result run = result next /\
  calls (events run) =
    EvListByOrg org opts (LOk repos resp)
    :: EvSleep (saturate (Reset (Rate resp) - w_clock w 0%nat))
    :: calls (events next).
Proof.
  intros H Hs. apply andb_true_iff in Hs as [Hrem Hwait].
  cbn zeta. cbn [crawl]. step. rewrite H. step. rewrite Hrem. step.
  destruct (Remaining (Rate resp) <? 100); step; rewrite Hwait; step;
    match goal with
    | |- context [crawl fuel org opts acc ?w1] =>
        destruct (crawl fuel org opts acc w1) as [[res evs] wf]
    end;
    split; reflexivity.
Qed.

Lemma crawl_processed (fuel : nat) (org : string)
    (opts : RepositoryListByOrgOptions) (acc : list Repository) (w : World)
    (repos : list Repository) (resp : Response) :
  w_list w 0%nat org opts = LOk repos resp ->
  suspends resp (w_clock w 0%nat) = false ->
  exists w1 : World,
    w_list w1 = shift (w_list w) /\
    let probe := probeRepos org repos acc w1 in
    let run := crawl (S fuel) org opts acc w in
    if NextPage resp =? 0 then
      result run = Crawled (result probe) /\
      calls (events run) =
        EvListByOrg org opts (LOk repos resp) :: calls (events probe)
    else
      let next := crawl fuel org (withPage opts (NextPage resp))
                    (result probe) (final probe) in
      result run = result next /\
      calls (events run) =
        EvListByOrg org opts (LOk repos resp)
        :: calls (events probe) ++ calls (events next).
Proof.
  intros H Hs. unfold suspends in Hs.
  destruct (Remaining (Rate resp) =? 0) eqn:Hrem; simpl in Hs;
    [ exists (final (Now (final (ListByOrg org opts w))))
    | exists (final (ListByOrg org opts w)) ];
    (split; [reflexivity|]);
    cbn zeta; cbn [crawl]; step; rewrite H; step; rewrite Hrem;
    destruct (Remaining (Rate resp) <? 100); step; rewrite ?Hs; step;
    match goal with
    | |- context [probeRepos org repos acc ?w1] =>
        destruct (probeRepos org repos acc w1) as [[pa pe] pw]
    end;
    destruct (NextPage resp =? 0);
    try match goal with
        | |- context [crawl fuel org ?o ?a ?w2] =>
            destruct (crawl fuel org o a w2) as [[ca ce] cw]
        end;
    unfold calls; cbn [filter isLog negb]; rewrite ?filter_app;
    cbn [filter isLog negb]; rewrite ?app_nil_r; split; reflexivity.
Qed.

(** *** Page requests *)

Lemma pagesRequested_app (a b : list Event) :
  pagesRequested (a ++ b) = pagesRequested a ++ pagesRequested b.
Proof.
  induction a as [|e a IH]; [reflexivity|].
  destruct e; simpl; now rewrite ?IH.
Qed.

Lemma pagesRequested_calls (evs : list Event) :
  pagesRequested (calls evs) = pagesRequested evs.
Proof.
  induction evs as [|e evs IH]; [reflexivity|].
  destruct e; simpl; now rewrite ?IH.
Qed.

Lemma pagesRequested_length (evs : list Event) :
  length (pagesRequested evs) = length (filter isListByOrg evs).
Proof.
  induction evs as [|e evs IH]; [reflexivity|].
  destruct e; simpl; now rewrite ?IH.
Qed.

Lemma pagesRequested_probe (evs : list Event) :
  forallb isProbeEvent evs = true -> pagesRequested evs = [].
Proof.
  induction evs as [|e evs IH]; [reflexivity|].
  simpl. intros H. apply andb_true_iff in H as [He H].
  destruct e; try discriminate; now apply IH.
Qed.

Lemma crawl_serves (org : string) (pages : list (list Repository * Response)) :
  forall (opts : RepositoryListByOrgOptions) (acc : list Repository)
         (w : World) (fuel : nat),
    pages <> [] ->
    serves (w_list w) org opts pages ->
    (length pages <= fuel)%nat ->
    let run := crawl fuel org opts acc w in
    (exists found, result run = Crawled found) /\
    pagesRequested (events run) =
      Page opts :: map (fun p => NextPage (snd p)) (removelast pages).
Proof.
  induction pages as [|[repos resp] rest IH]; intros opts acc w fuel Hne Hs Hlen;
    [congruence|].
  destruct fuel as [|fuel]; [simpl in Hlen; lia|].
  destruct Hs as (Hpage & Hrem & Hlast & Hrest).
  assert (Hsus : suspends resp (w_clock w 0%nat) = false).
  { unfold suspends. apply Z.eqb_neq in Hrem. now rewrite Hrem. }
  destruct (crawl_processed fuel org opts acc w repos resp Hpage Hsus)
    as (w1 & Hw1 & Hrun).
  cbn zeta in *. rewrite <- pagesRequested_calls.
  pose proof (probeRepos_emits org repos acc w1) as Hprobe.
  pose proof (probeRepos_keepsList org repos acc w1) as Hkeep.
  destruct (NextPage resp =? 0) eqn:Hnext.
  - destruct Hrun as [-> ->].
    apply Z.eqb_eq in Hnext. apply Hlast in Hnext. subst rest.
    split; [eauto|]. cbn [pagesRequested removelast map].
    rewrite pagesRequested_calls. now rewrite (pagesRequested_probe _ Hprobe).
  - destruct Hrun as [-> ->].
    apply Z.eqb_neq in Hnext.
    assert (Hrest' : rest <> []) by (intros E; now apply Hnext, Hlast).
    rewrite <- Hw1, <- Hkeep in Hrest.
    destruct (IH _ (result (probeRepos org repos acc w1)) _ fuel Hrest' Hrest)
      as [Hdone Hreq]; [simpl in Hlen; lia|].
    split; [exact Hdone|].
    cbn [pagesRequested]. rewrite pagesRequested_app, !pagesRequested_calls.
    rewrite (pagesRequested_probe _ Hprobe), Hreq.
    destruct rest; [congruence|]. reflexivity.
Qed.

(** *** Subsequences *)

Lemma Subseq_refl {A : Type} (l : list A) : Subseq l l.
Proof. induction l; constructor; assumption. Qed.

Lemma Subseq_nil_l {A : Type} (l : list A) : Subseq [] l.
Proof. induction l; constructor; assumption. Qed.

Lemma Subseq_app {A : Type} (a1 a2 b1 b2 : list A) :
  Subseq a1 a2 -> Subseq b1 b2 -> Subseq (a1 ++ b1) (a2 ++ b2).
Proof.
  induction 1; intros Hb; simpl.
  - exact Hb.
  - apply Subseq_skip; auto.
  - apply Subseq_take; auto.
Qed.

Lemma Subseq_In {A : Type} (l1 l2 : list A) (x : A) :
  Subseq l1 l2 -> In x l1 -> In x l2.
Proof.
  induction 1; intros Hin; simpl in *; auto.
  destruct Hin; auto.
Qed.

Lemma Subseq_NoDup {A : Type} (l1 l2 : list A) :
  Subseq l1 l2 -> NoDup l2 -> NoDup l1.
Proof.
  induction 1 as [|x l1 l2 Hs IH|x l1 l2 Hs IH]; intros Hnd.
  - constructor.
  - inversion Hnd; auto.
  - inversion Hnd as [|y l Hx Hl]; subst. constructor; auto.
    intros Hin. apply Hx. eapply Subseq_In; eauto.
Qed.

(** *** What the probe of a page does *)

Lemma probePaths_result (org : string) (repo : Repository)
    (paths : list string) (acc : list Repository) (w : World) :
  result (probePaths org repo paths acc w) = acc \/
  result (probePaths org repo paths acc w) = acc ++ [repo].
Proof.
  revert w; induction paths as [|path rest IH]; intros w; [now left|].
  destruct (probePaths_cons org repo path rest acc w)
    as [[-> _] | (w' & pre & _ & -> & _)]; auto.
Qed.

Lemma probePaths_first (org : string) (repo : Repository) (path : string)
    (rest : list string) (acc : list Repository) (w : World) :
  exists r tl,
    events (probePaths org repo (path :: rest) acc w) =
    EvGetContents org (GetName repo) path r :: tl.
Proof.
  cbn [probePaths]. cbn zeta. rewrite bind_events.
  eexists; eexists; reflexivity.
Qed.

Lemma calls_probe (evs : list Event) :
  forallb isProbeEvent evs = true ->
  Forall (fun e => isProbeEvent e = true) (calls evs).
Proof.
  intros H. apply Forall_forall. intros e He.
  apply filter_In in He as [He _].
  rewrite forallb_forall in H. now apply H.
Qed.

Lemma probeRepos_calls (org : string) (repos acc : list Repository) (w : World) :
  let probe := probeRepos org repos acc w in
  probeCalls (calls (events probe)) /\
  (exists more, result probe = acc ++ more /\ Subseq more repos) /\
  (forall repo, In repo repos ->
     exists r, In (EvGetContents org (GetName repo) "renovate.json" r)
                  (calls (events probe))).
Proof.
  cbn zeta. split; [split|].
  - apply calls_probe, probeRepos_emits.
  - destruct repos as [|repo rest]; [exact I|].
    cbn [probeRepos]. rewrite bind_events. unfold candidatePaths.
    destruct (probePaths_first org repo "renovate.json"
                [".github/renovate.json"%string] acc w) as (r & tl & ->).
    exact I.
  - revert acc w; induction repos as [|repo rest IH]; intros acc w.
    + split; [exists []; split; [now rewrite app_nil_r | constructor]|].
      intros repo [].
    + cbn [probeRepos]. rewrite bind_result, bind_events, calls_app.
      set (p := probePaths org repo candidatePaths acc w).
      destruct (IH (result p) (final p)) as [(more & -> & Hsub) Hin].
      split.
      * destruct (probePaths_result org repo candidatePaths acc w) as [E | E];
          fold p in E; rewrite E.
        -- exists more. split; [reflexivity | now apply Subseq_skip].
        -- exists (repo :: more). rewrite <- app_assoc.
           split; [reflexivity | now apply Subseq_take].
      * intros repo' [<- | Hrest].
        -- subst p. unfold candidatePaths.
           destruct (probePaths_first org repo "renovate.json"
                       [".github/renovate.json"%string] acc w) as (r & tl & ->).
           exists r. apply in_or_app. left. now left.
        -- destruct (Hin _ Hrest) as [r Hr]. exists r.
           apply in_or_app. now right.
Qed.

(** *** Pages worked on and pages retried *)

Lemma effectivePages_probe (pc rest : list Event) :
  Forall (fun e => isProbeEvent e = true) pc ->
  effectivePages (pc ++ rest) = effectivePages rest.
Proof.
  induction 1 as [|e pc He Hpc IH]; [reflexivity|].
  destruct e; try discriminate; exact IH.
Qed.

Lemma retriesSamePage_probe (pc rest : list Event) :
  Forall (fun e => isProbeEvent e = true) pc ->
  retriesSamePage (pc ++ rest) = retriesSamePage rest.
Proof.
  induction 1 as [|e pc He Hpc IH]; [reflexivity|].
  destruct e; try discriminate; exact IH.
Qed.

(** After a page that is worked on, the next call is not a sleep. *)
Lemma processed_tail (org : string) (opts : RepositoryListByOrgOptions)
    (pc rest : list Event) :
  probeCalls pc ->
  match rest with
  | [] => True
  | e :: _ => exists r, e = EvListByOrg org opts r
  end ->
  match pc ++ rest with
  | EvSleep _ :: _ => False
  | _ => True
  end.
Proof.
  intros [_ Hhead] Hrest. destruct pc as [|e pc]; [|exact Hhead].
  destruct rest as [|e rest]; [exact I|].
  now destruct Hrest as [r ->].
Qed.

Lemma effectivePages_processed (org : string)
    (opts : RepositoryListByOrgOptions) (repos : list Repository)
    (resp : Response) (tail : list Event) :
  match tail with EvSleep _ :: _ => False | _ => True end ->
  effectivePages (EvListByOrg org opts (LOk repos resp) :: tail) =
  repos :: effectivePages tail.
Proof. destruct tail as [|[] tail]; intros H; try reflexivity. destruct H. Qed.

Lemma retriesSamePage_processed (org : string)
    (opts : RepositoryListByOrgOptions) (r : ListResult) (tail : list Event) :
  match tail with EvSleep _ :: _ => False | _ => True end ->
  retriesSamePage (EvListByOrg org opts r :: tail) = retriesSamePage tail.
Proof. destruct tail as [|[] tail]; intros H; try reflexivity. destruct H. Qed.

Lemma sameOpts_refl (opts : RepositoryListByOrgOptions) :
  sameOpts opts opts = true.
Proof. unfold sameOpts. now rewrite String.eqb_refl, !Z.eqb_refl. Qed.

(** What holds of every run of the page loop: the first call asks for the
    current page; a page is retried after a wait; every repository of a page
    worked on is probed; the result adds to the accumulator a subsequence of
    the repositories of the pages worked on. *)
Lemma crawl_pages (org : string) :
  forall (fuel : nat) (opts : RepositoryListByOrgOptions)
         (acc : list Repository) (w : World),
    let run := crawl fuel org opts acc w in
    let cs := calls (events run) in
    match cs with
    | [] => True
    | e :: _ => exists r, e = EvListByOrg org opts r
    end /\
    retriesSamePage cs = true /\
    (forall repo, In repo (concat (effectivePages cs)) ->
       exists r, In (EvGetContents org (GetName repo) "renovate.json" r) cs) /\
    (forall found, result run = Crawled found ->
       exists more, found = acc ++ more /\
                    Subseq more (concat (effectivePages cs))).
Proof.
  induction fuel as [|fuel IH]; intros opts acc w; cbn zeta.
  - cbn. split; [exact I|]. split; [reflexivity|].
    split; [intros repo [] | discriminate].
  - destruct (w_list w 0%nat org opts) as [repos resp|resp err] eqn:Hpage.
    + destruct (suspends resp (w_clock w 0%nat)) eqn:Hsus.
      * destruct (crawl_suspended fuel org opts acc w repos resp Hpage Hsus)
          as [Hres Hcalls].
        cbn zeta in Hres, Hcalls. rewrite Hres, Hcalls.
        destruct (IH opts acc (final (Now (final (ListByOrg org opts w)))))
          as (J1 & J2 & J3 & J4).
        cbn zeta in J1, J2, J3, J4.
        set (cs' := calls (events (crawl fuel org opts acc
                      (final (Now (final (ListByOrg org opts w))))))) in *.
        split; [eauto|]. split; [|split].
        -- cbn [retriesSamePage]. rewrite J2.
           apply andb_true_iff in Hsus as [-> _].
           destruct cs' as [|e cs']; [reflexivity|].
           destruct J1 as [r ->].
           now rewrite String.eqb_refl, sameOpts_refl.
        -- cbn [effectivePages]. intros repo Hin.
           destruct (J3 repo Hin) as [r Hr]. exists r. now right; right.
        -- cbn [effectivePages]. exact J4.
      * destruct (crawl_processed fuel org opts acc w repos resp Hpage Hsus)
          as (w1 & Hw1 & Hrun). cbn zeta in Hrun.
        destruct (probeRepos_calls org repos acc w1)
          as (Hpc & (more & Hmore & Hsub) & Hprobed). cbn zeta in *.
        set (probe := probeRepos org repos acc w1) in *.
        destruct (NextPage resp =? 0).
        -- destruct Hrun as [-> ->].
           pose proof (processed_tail org opts _ [] Hpc I) as Htail.
           rewrite app_nil_r in Htail.
           split; [eauto|]. split; [|split].
           ++ rewrite (retriesSamePage_processed _ _ _ _ Htail).
              rewrite <- (app_nil_r (calls (events probe))).
              now rewrite (retriesSamePage_probe _ [] (proj1 Hpc)).
           ++ rewrite (effectivePages_processed _ _ _ _ _ Htail).
              rewrite <- (app_nil_r (calls (events probe))).
              rewrite (effectivePages_probe _ [] (proj1 Hpc)).
              cbn [concat effectivePages]. rewrite !app_nil_r.
              intros repo Hin. destruct (Hprobed repo Hin) as [r Hr].
              exists r. now right.
           ++ intros found Hfound. injection Hfound as <-.
              exists more. split; [exact Hmore|].
              rewrite (effectivePages_processed _ _ _ _ _ Htail).
              rewrite <- (app_nil_r (calls (events probe))).
              rewrite (effectivePages_probe _ [] (proj1 Hpc)).
              cbn [concat effectivePages]. now rewrite app_nil_r.
        -- destruct Hrun as [-> ->].
           destruct (IH (withPage opts (NextPage resp)) (result probe)
                        (final probe)) as (J1 & J2 & J3 & J4).
           cbn zeta in J1, J2, J3, J4.
           set (cs' := calls (events (crawl fuel org
                         (withPage opts (NextPage resp)) (result probe)
                         (final probe)))) in *.
           pose proof (processed_tail org _ _ cs' Hpc J1) as Htail.
           split; [eauto|]. split; [|split].
           ++ rewrite (retriesSamePage_processed _ _ _ _ Htail).
              now rewrite (retriesSamePage_probe _ _ (proj1 Hpc)).
           ++ rewrite (effectivePages_processed _ _ _ _ _ Htail).
              rewrite (effectivePages_probe _ _ (proj1 Hpc)).
              cbn [concat]. intros repo Hin.
              apply in_app_or in Hin as [Hin | Hin].
              ** destruct (Hprobed repo Hin) as [r Hr]. exists r.
                 right. apply in_or_app. now left.
              ** destruct (J3 repo Hin) as [r Hr]. exists r.
                 right. apply in_or_app. now right.
           ++ intros found Hfound.
              destruct (J4 found Hfound) as (more' & -> & Hsub').
              exists (more ++ more'). rewrite Hmore, app_assoc.
              split; [reflexivity|].
              rewrite (effectivePages_processed _ _ _ _ _ Htail).
              rewrite (effectivePages_probe _ _ (proj1 Hpc)).
              cbn [concat]. now apply Subseq_app.
    + destruct (crawl_failed fuel org opts acc w resp err Hpage) as [Hres Hcalls].
      cbn zeta in Hres, Hcalls. rewrite Hres, Hcalls.
      split; [eauto|]. split; [reflexivity|]. split.
      * intros repo [].
      * discriminate.
Qed.

(** *** The loop of the organization-wide run *)

Lemma workflow_started (repo : Repository) (dry : bool) (key : string)
    (w : World) :
  workflowsStarted (events (CheckAndUpdateRenovateConfig repo dry key w)) =
  [GetFullName repo].
Proof.
  destruct (workflow_events repo dry key w) as [rest [-> Hrest]].
  cbn [workflowsStarted String.eqb Ascii.eqb Bool.eqb].
  now rewrite (afterFetch_workflowsStarted _ Hrest).
Qed.


(* ================================================================== *)
(** ** More about the replacement scan *)
(* ================================================================== *)

Section ScanFacts.

Open Scope nat_scope.
Open Scope string_scope.

Lemma length_append (a b : string) :
  String.length (a ++ b) = String.length a + String.length b.
Proof. induction a as [|c a IH]; simpl; [reflexivity | now rewrite IH]. Qed.

Lemma Contains_occurrences (s p : string) :
  Contains s p = false <-> occurrences s p = 0.
Proof.
  induction s as [|c t IH]; cbn [Contains occurrences].
  - destruct (HasPrefix "" p); simpl; split; auto; discriminate.
  - destruct (HasPrefix (String c t) p); simpl.
    + split; discriminate.
    + exact IH.
Qed.

(** Where [old] does not occur, the scan copies the input. *)
Lemma replaceFrom_absent (o : ascii) (old' new s : string) :
  Contains s (String o old') = false ->
  replaceFrom (String o old') new 0 s = s.
Proof.
  induction s as [|c t IH]; intros H; [reflexivity|].
  cbn [Contains] in H. apply orb_false_iff in H as [Hp Ht].
  cbn [replaceFrom]. rewrite Hp. f_equal. now apply IH.
Qed.

(** With an [old] that cannot overlap itself, every occurrence is replaced,
    and the length changes by the difference of the two literals for each. *)
Lemma replaceFrom_length_le (o : ascii) (old' new : string) :
  apart old' (String o old') = true ->
  forall (m : nat) (s : string),
    String.length s <= m ->
    String.length (replaceFrom (String o old') new 0 s)
      + occurrences s (String o old') * String.length (String o old')
    = String.length s + occurrences s (String o old') * String.length new.
Proof.
  intros Hold. induction m as [|m IH]; intros s Hlen.
  - destruct s; [reflexivity | simpl in Hlen; lia].
  - destruct s as [|c t]; [reflexivity|].
    destruct (HasPrefix (String c t) (String o old')) eqn:Hp.
    + cbn [replaceFrom]. rewrite Hp, replaceFrom_skip.
      replace (String.length (String o old') - 1) with (String.length old')
        by (simpl; lia).
      pose proof (HasPrefix_split _ _ Hp) as Hs.
      change (drop (String.length (String o old')) (String c t))
        with (drop (String.length old') t) in Hs.
      set (s' := drop (String.length old') t) in *.
      assert (Hs' : String.length s' <= m).
      { subst s'. rewrite drop_length. simpl in Hlen. lia. }
      specialize (IH s' Hs').
      rewrite Hs.
      rewrite (occurrences_app_self (String o old') s' Hold).
      rewrite !length_append. simpl in *. lia.
    + cbn [replaceFrom occurrences]. rewrite Hp.
      assert (Ht : String.length t <= m) by (simpl in Hlen; lia).
      specialize (IH t Ht). simpl in *. lia.
Qed.

End ScanFacts.

Lemma rewrite_length_aux (s : string) :
  String.length (rewrite s) =
  (String.length s + 5 * occurrences s marker)%nat.
Proof.
  rewrite rewrite_scan.
  pose proof (replaceFrom_length_le "g"%char "ithub>MyOrg/" replacement
                eq_refl (String.length s) s (Nat.le_refl _)) as H.
  change (String "g" "ithub>MyOrg/") with marker in H.
  change (String.length marker) with 13%nat in H.
  change (String.length replacement) with 18%nat in H.
  lia.
Qed.

Lemma rewrite_changes_aux (s : string) :
  rewrite s = s -> Contains s marker = false.
Proof.
  intros H. apply Contains_occurrences.
  pose proof (rewrite_length_aux s) as Hlen. rewrite H in Hlen. lia.
Qed.

Lemma rewrite_idempotent_aux (s : string) :
  Contains (rewrite s) marker = false.
Proof.
  apply Contains_occurrences. rewrite rewrite_scan.
  apply occurrences_replaceFrom; vm_compute; reflexivity.
Qed.

(* ================================================================== *)
(** ** More facts about runs *)
(* ================================================================== *)

Lemma emits_weaken {A : Type} (P Q : Event -> bool) (m : M A) :
  (forall e, P e = true -> Q e = true) -> emits P m -> emits Q m.
Proof.
  intros HPQ Hm w. apply forallb_forall. intros e He.
  apply HPQ. specialize (Hm w). rewrite forallb_forall in Hm. now apply Hm.
Qed.

(** *** What the crawl asks for *)

Lemma probePaths_crawlEvents (org : string) (repo : Repository)
    (acc : list Repository) :
  emits (isCrawlEventOf org) (probePaths org repo candidatePaths acc).
Proof.
  assert (Hcheck : forall path,
            path = "renovate.json"%string \/ path = ".github/renovate.json"%string ->
            emits (isCrawlEventOf org) (GetContents org (GetName repo) path)).
  { intros path Hpath. apply emits_GetContents. intros r.
    cbn [isCrawlEventOf]. rewrite String.eqb_refl.
    destruct Hpath as [-> | ->]; reflexivity. }
  assert (Hwait : forall (t : Z) (k : Z -> M (list Repository)) (other : M (list Repository)),
            (forall d, (d >? 0) = true -> emits (isCrawlEventOf org) (k d)) ->
            emits (isCrawlEventOf org) other ->
            emits (isCrawlEventOf org)
              (waitTime <- Until t ;; if waitTime >? 0 then k waitTime else other)).
  { intros t k other Hk Ho. unfold Until.
    apply emits_bind; [repeat emits_step|]. intros d.
    destruct (d >? 0) eqn:Hd; [now apply Hk | exact Ho]. }
  unfold candidatePaths.
  assert (Hpaths : forall paths,
            Forall (fun path => path = "renovate.json"%string \/
                                path = ".github/renovate.json"%string) paths ->
            emits (isCrawlEventOf org) (probePaths org repo paths acc)).
  { induction 1 as [|path rest Hpath Hrest IH]; [apply emits_ret|].
    cbn [probePaths]. cbn zeta.
    apply emits_bind; [now apply Hcheck|]. intros r.
    assert (Hfailed : forall err,
              emits (isCrawlEventOf org)
                (logCheckError path repo err ;; probePaths org repo rest acc)).
    { intros err. unfold logCheckError.
      repeat first [assumption | emits_step]. }
    destruct r as [c resp|resp|[resp|] err];
      [unfold logFound; repeat emits_step
      |unfold logFound; repeat emits_step| |now apply Hfailed].
    destruct (StatusCode resp =? 404); [exact IH|].
    destruct (Remaining (Rate resp) =? 0); [|now apply Hfailed].
    apply Hwait; [|now apply Hfailed]. intros d Hd.
    apply emits_bind; [apply emits_Log; reflexivity|]. intros _.
    apply emits_bind; [apply emits_Sleep; exact Hd|]. intros _.
    apply emits_bind; [now apply Hcheck|]. intros r'.
    destruct r' as [c' resp'|resp'|resp' err'];
      [unfold logFound; repeat emits_step
      |unfold logFound; repeat emits_step
      |now apply Hfailed]. }
  apply Hpaths. constructor; [now left|]. constructor; [now right|]. constructor.
Qed.

Lemma probeRepos_crawlEvents (org : string) (repos acc : list Repository) :
  emits (isCrawlEventOf org) (probeRepos org repos acc).
Proof.
  revert acc; induction repos as [|repo rest IH]; intros acc;
    [apply emits_ret|].
  cbn [probeRepos]. apply emits_bind; [apply probePaths_crawlEvents|].
  intros a. apply IH.
Qed.

Lemma crawl_crawlEvents (org : string) :
  forall (fuel : nat) (opts : RepositoryListByOrgOptions)
         (acc : list Repository),
    RepoType opts = "all"%string -> PerPage opts = 100 ->
    emits (isCrawlEventOf org) (crawl fuel org opts acc).
Proof.
  induction fuel as [|fuel IH]; intros opts acc Htype Hper; [apply emits_ret|].
  cbn [crawl]. cbn zeta.
  apply emits_bind.
  { apply emits_ListByOrg. intros r. cbn [isCrawlEventOf].
    now rewrite String.eqb_refl, Htype, Hper. }
  intros r. destruct r as [repos resp|resp err]; [|repeat emits_step].
  assert (Hprocess :
            emits (isCrawlEventOf org)
              (allRepos' <- probeRepos org repos acc ;;
               if NextPage resp =? 0 then
                 Log "Total repositories with renovate.json found: %d"
                     [AInt (Z.of_nat (length allRepos'))] ;;
                 ret (Crawled allRepos')
               else crawl fuel org (withPage opts (NextPage resp)) allRepos')).
  { apply emits_bind; [apply probeRepos_crawlEvents|]. intros a.
    destruct (NextPage resp =? 0); [repeat emits_step|].
    now apply IH. }
  apply emits_bind; [apply emits_Log; reflexivity|]. intros _.
  apply emits_bind; [apply emits_Log; reflexivity|]. intros _.
  apply emits_bind; [repeat emits_step|]. intros _.
  destruct (Remaining (Rate resp) =? 0); [|exact Hprocess].
  unfold Until. apply emits_bind; [repeat emits_step|]. intros d.
  destruct (d >? 0) eqn:Hd; [|exact Hprocess].
  apply emits_bind; [apply emits_Log; reflexivity|]. intros _.
  apply emits_bind; [apply emits_Sleep; exact Hd|]. intros _.
  now apply IH.
Qed.

Lemma FindReposWithRenovate_crawlEvents (fuel : nat) (org : string) :
  emits (isCrawlEventOf org) (FindReposWithRenovate fuel org).
Proof.
  unfold FindReposWithRenovate.
  apply emits_bind; [apply emits_Log; reflexivity|]. intros _.
  now apply crawl_crawlEvents.
Qed.

Lemma crawlEvent_reads (org : string) (e : Event) :
  isCrawlEventOf org e = true ->
  isCommitEvent e = false /\ isGet e = false /\ isCreate e = false
  /\ isWorkflowStart e = false.
Proof.
  destruct e; cbn [isCrawlEventOf]; intros H; try discriminate;
    repeat split; try reflexivity;
    apply andb_true_iff in H as [H1 H2]; now apply negb_true_iff.
Qed.

Lemma existsb_none {A : Type} (P Q : A -> bool) (l : list A) :
  (forall x, P x = true -> Q x = false) ->
  forallb P l = true -> existsb Q l = false.
Proof.
  intros HPQ. induction l as [|x l IH]; [reflexivity|].
  cbn. intros H. apply andb_true_iff in H as [Hx Hl].
  now rewrite (HPQ x Hx), IH.
Qed.

(** *** The cost of a probe *)

Lemma probePaths_checks_bound (org : string) (repo : Repository)
    (acc : list Repository) (w : World) :
  let n := length (contentChecks (events (probePaths org repo candidatePaths acc w))) in
  (1 <= n <= 4)%nat.
Proof.
  unfold candidatePaths. cbn zeta.
  destruct (probePaths_cons org repo "renovate.json"
              [".github/renovate.json"%string] acc w)
    as [[_ [-> | ->]] | (w1 & pre & Hpre & _ & ->)];
    [simpl; lia | simpl; lia |].
  rewrite length_app.
  assert (Hp : (1 <= length pre <= 2)%nat)
    by (destruct Hpre as [-> | ->]; simpl; lia).
  destruct (probePaths_cons org repo ".github/renovate.json" [] acc w1)
    as [[_ [-> | ->]] | (w2 & pre' & Hpre' & _ & ->)];
    [simpl; lia | simpl; lia |].
  rewrite length_app.
  destruct Hpre' as [-> | ->]; simpl; lia.
Qed.

(** *** A page that stays exhausted *)

Lemma crawl_exhausted (org : string) (opts : RepositoryListByOrgOptions)
    (acc : list Repository) :
  forall (fuel : nat) (w : World),
    (forall k, exists repos resp,
        w_list w k org opts = LOk repos resp /\
        suspends resp (w_clock w k) = true) ->
    let run := crawl fuel org opts acc w in
    result run = OutOfFuel /\
    pagesRequested (events run) = repeat (Page opts) fuel /\
    length (filter (fun e => match e with EvSleep _ => true | _ => false end)
                   (calls (events run))) = fuel /\
    contentChecks (calls (events run)) = [].
Proof.
  induction fuel as [|fuel IH]; intros w Hw; [repeat split|].
  destruct (Hw 0%nat) as (repos & resp & Hpage & Hsus).
  destruct (crawl_suspended fuel org opts acc w repos resp Hpage Hsus)
    as [Hres Hcalls].
  cbn zeta in *. rewrite Hres, <- pagesRequested_calls, Hcalls.
  destruct (IH (final (Now (final (ListByOrg org opts w)))))
    as (H1 & H2 & H3 & H4).
  { intros k. exact (Hw (S k)). }
  cbn zeta in *.
  split; [exact H1|]. split; [|split].
  - cbn [pagesRequested repeat]. now rewrite pagesRequested_calls, H2.
  - cbn [filter length]. now rewrite H3.
  - cbn [contentChecks]. exact H4.
Qed.

(** *** Repositories without the file *)

Lemma probePaths_absent (org : string) (repo : Repository)
    (acc : list Repository) :
  forall (paths : list string) (w : World),
    (forall k name path, exists resp err,
        w_contents w k org name path = CErr (Some resp) err /\
        StatusCode resp = 404) ->
    let run := probePaths org repo paths acc w in
    result run = acc /\
    map fst (contentChecks (events run)) = paths /\
    forallb isGetContents (events run) = true /\
    w_contents (final run) = (fun k => w_contents w (length paths + k)%nat).
Proof.
  induction paths as [|path rest IH]; intros w Hw; [repeat split|].
  destruct (Hw 0%nat (GetName repo) path) as (resp & err & Hans & H404).
  cbn zeta. cbn [probePaths]. step. rewrite Hans. step. rewrite H404.
  change (404 =? 404) with true. step.
  match goal with
  | |- context [probePaths org repo rest acc ?w1] =>
      destruct (IH w1) as (H1 & H2 & H3 & H4);
      [ intros k name p; exact (Hw (S k) name p) | ];
      cbn zeta in H1, H2, H3, H4;
      destruct (probePaths org repo rest acc w1) as [[res evs] wf]
  end.
  cbn in H1, H2, H3, H4 |- *. subst res.
  split; [reflexivity|]. split; [f_equal; exact H2|].
  split; [exact H3 | exact H4].
Qed.

Lemma probeRepos_absent (org : string) :
  forall (repos acc : list Repository) (w : World),
    (forall k name path, exists resp err,
        w_contents w k org name path = CErr (Some resp) err /\
        StatusCode resp = 404) ->
    let run := probeRepos org repos acc w in
    result run = acc /\
    map fst (contentChecks (events run)) =
      flat_map (fun _ => candidatePaths) repos /\
    forallb isGetContents (events run) = true.
Proof.
  induction repos as [|repo rest IH]; intros acc w Hw; [repeat split|].
  cbn zeta. cbn [probeRepos].
  rewrite bind_result, bind_events, contentChecks_app, map_app, forallb_app.
  destruct (probePaths_absent org repo acc candidatePaths w Hw)
    as (H1 & H2 & H3 & H4). cbn zeta in *.
  rewrite H1, H2, H3.
  destruct (IH acc (final (probePaths org repo candidatePaths acc w)))
    as (J1 & J2 & J3).
  { intros k name path. rewrite H4. apply Hw. }
  cbn zeta in *. rewrite J1, J2, J3. repeat split.
Qed.

(** *** The steps of the publisher *)

Lemma git_run (dir : string) (args : list string) (what : string) (w : World) :
  let r := w_command w 0%nat dir "git"%string args in
  events (git dir args what w) = [EvCommand dir "git" args r] /\
  result (git dir args what w) =
    match exec_err r with
    | Some err => Some (what ++ err ++ ", output: " ++ output r)%string
    | None => None
    end.
Proof.
  cbn zeta. unfold git. rewrite bind_events, bind_result.
  change (events (CombinedOutput dir "git" args w))
    with [EvCommand dir "git" args (w_command w 0%nat dir "git"%string args)].
  change (result (CombinedOutput dir "git" args w))
    with (w_command w 0%nat dir "git"%string args).
  destruct (exec_err (w_command w 0%nat dir "git"%string args));
    split; reflexivity.
Qed.

Lemma blames_ret_None : blames (ret None).
Proof. intros w msg H. discriminate. Qed.

Lemma blames_Log (f : string) (a : list Arg) (m : M (option error)) :
  blames m -> blames (Log f a ;; m).
Proof.
  intros Hm w msg H. rewrite bind_result in H. rewrite bind_events.
  destruct (Hm _ msg H) as (e & d & Hin & Hf).
  exists e, d. split; [now right | exact Hf].
Qed.

Lemma blames_andThen (step rest : M (option error)) :
  blames step -> blames rest -> blames (andThen step rest).
Proof.
  intros Hs Hr w msg H. unfold andThen in *.
  rewrite bind_result in H. rewrite bind_events.
  destruct (result (step w)) as [err|] eqn:Hres.
  - destruct (Hs w err Hres) as (e & d & Hin & Hf).
    exists e, d. split; [apply in_or_app; now left | exact Hf].
  - destruct (Hr _ msg H) as (e & d & Hin & Hf).
    exists e, d. split; [apply in_or_app; now right | exact Hf].
Qed.

Lemma blames_git (dir : string) (args : list string) (what : string) :
  blames (git dir args what).
Proof.
  intros w msg H. destruct (git_run dir args what w) as [Hev Hres].
  cbn zeta in *. rewrite Hres in H. rewrite Hev.
  destruct (exec_err (w_command w 0%nat dir "git"%string args)) eqn:He;
    [|discriminate].
  eexists; eexists. split; [now left|]. cbn [failure]. now rewrite He.
Qed.

Lemma blames_write (name data : string) :
  blames (r <- WriteFile name data ;;
          match r with
          | Some err => ret (Some ("error writing renovate.json: " ++ err)%string)
          | None => ret None
          end).
Proof.
  intros w msg H. rewrite bind_result in H. rewrite bind_events.
  change (events (WriteFile name data w))
    with [EvWriteFile name data (w_write w 0%nat name data)].
  change (result (WriteFile name data w)) with (w_write w 0%nat name data) in H.
  destruct (w_write w 0%nat name data) as [err|]; [|discriminate].
  eexists; eexists. split; [now left | reflexivity].
Qed.

Lemma commitSteps_blames (repo : Repository) (content key tempDir : string) :
  blames (commitSteps repo content key tempDir).
Proof.
  unfold commitSteps.
  repeat first
    [ apply blames_Log
    | apply blames_andThen
    | apply blames_git
    | apply blames_write
    | apply blames_ret_None
    | match goal with |- blames (if ?b then _ else _) => destruct b end ].
Qed.

Lemma stops_ret (r : option error) : stopsAtFailure (ret r).
Proof. intros w e d []. Qed.

Lemma stops_Log (f : string) (a : list Arg) (m : M (option error)) :
  stopsAtFailure m -> stopsAtFailure (Log f a ;; m).
Proof.
  intros Hm w e d Hin Hf. rewrite bind_events in *.
  destruct Hin as [<- | Hin]; [discriminate|].
  destruct (Hm _ e d Hin Hf) as [pre Hpre].
  exists (EvLog f a :: pre). cbn [Log events fst snd app]. now rewrite Hpre.
Qed.

Lemma stops_andThen (step rest : M (option error)) :
  reports step -> stopsAtFailure step -> stopsAtFailure rest ->
  stopsAtFailure (andThen step rest).
Proof.
  intros Hrep Hs Hr w e d Hin Hf. unfold andThen in *.
  rewrite bind_events in *. apply in_app_or in Hin.
  destruct (result (step w)) as [err|] eqn:Hres.
  - destruct Hin as [Hin | []].
    destruct (Hs w e d Hin Hf) as [pre Hpre].
    exists pre. cbn [ret events fst snd]. now rewrite app_nil_r.
  - destruct Hin as [Hin | Hin].
    + destruct (Hrep w e d Hin Hf) as (msg & Hmsg & _). congruence.
    + destruct (Hr _ e d Hin Hf) as [pre Hpre].
      exists (events (step w) ++ pre). now rewrite Hpre, app_assoc.
Qed.

Lemma stops_git (dir : string) (args : list string) (what : string) :
  stopsAtFailure (git dir args what).
Proof.
  intros w e d Hin Hf. destruct (git_run dir args what w) as [Hev _].
  cbn zeta in Hev. rewrite Hev in *. destruct Hin as [<- | []].
  now exists [].
Qed.

Lemma stops_write (name data : string) :
  stopsAtFailure
    (r <- WriteFile name data ;;
     match r with
     | Some err => ret (Some ("error writing renovate.json: " ++ err)%string)
     | None => ret None
     end).
Proof.
  intros w e d Hin Hf. rewrite bind_events in *.
  change (events (WriteFile name data w))
    with [EvWriteFile name data (w_write w 0%nat name data)] in *.
  assert (Hnil : forall r : option error,
            events ((match r with
                     | Some err =>
                         ret (Some ("error writing renovate.json: " ++ err)%string)
                     | None => ret None
                     end) (final (WriteFile name data w))) = [])
    by (intros [err|]; reflexivity).
  rewrite Hnil in *. destruct Hin as [<- | []]. now exists [].
Qed.

Lemma reports_signing (tempDir key : string) :
  reports (Log "Configuring git for signing with key: %s" [AStr key] ;;
           andThen (git tempDir ["config"; "user.signingkey"; key]%string
                        "error configuring signing key: ")
                   (Log "Git signing configured successfully" [] ;; ret None)).
Proof.
  apply reports_Log, reports_andThen;
    [apply reports_git | apply reports_Log, reports_ret].
Qed.

Lemma commitSteps_stops (repo : Repository) (content key tempDir : string) :
  stopsAtFailure (commitSteps repo content key tempDir).
Proof.
  unfold commitSteps.
  repeat first
    [ apply stops_Log
    | apply stops_andThen
    | apply stops_git
    | apply stops_write
    | apply stops_ret
    | apply reports_git
    | apply reports_write
    | apply reports_signing
    | apply reports_ret
    | match goal with
      | |- stopsAtFailure (if ?b then _ else _) => destruct b
      | |- reports (if ?b then _ else _) => destruct b
      end ].
Qed.

Lemma endsWith_Log (P : Event -> Prop) (f : string) (a : list Arg)
    (m : M (option error)) :
  endsWith P m -> endsWith P (Log f a ;; m).
Proof.
  intros Hm w H. rewrite bind_result in H. rewrite bind_events.
  destruct (Hm _ H) as (e & Hin & He). exists e. split; [now right | exact He].
Qed.

Lemma endsWith_rest (P : Event -> Prop) (step rest : M (option error)) :
  endsWith P rest -> endsWith P (andThen step rest).
Proof.
  intros Hr w H. unfold andThen in *.
  rewrite bind_result in H. rewrite bind_events.
  destruct (result (step w)) as [err|]; [discriminate|].
  destruct (Hr _ H) as (e & Hin & He).
  exists e. split; [apply in_or_app; now right | exact He].
Qed.

Lemma endsWith_push (dir what : string) (rest : M (option error)) :
  endsWith (isPushed dir)
    (andThen (git dir ["push"; "origin"; branchName]%string what) rest).
Proof.
  intros w H. unfold andThen in *.
  rewrite bind_result in H. rewrite bind_events.
  destruct (git_run dir ["push"; "origin"; branchName]%string what w)
    as [Hev Hres]. cbn zeta in *.
  rewrite Hres in H. rewrite Hev.
  destruct (exec_err (w_command w 0%nat dir "git"%string
                        ["push"; "origin"; branchName]%string)) eqn:He;
    [discriminate|].
  eexists. split; [now left|]. eexists. split; [reflexivity | exact He].
Qed.

Lemma commitSteps_pushes (repo : Repository) (content key tempDir : string) :
  endsWith (isPushed tempDir) (commitSteps repo content key tempDir).
Proof.
  unfold commitSteps.
  repeat first
    [ apply endsWith_push
    | apply endsWith_Log
    | apply endsWith_rest ].
Qed.

(** A run of [createSignedCommit] after the directory is created: a log
    line, the creation, the steps, the removal. *)
Lemma createSignedCommit_run (repo : Repository) (content key : string)
    (w : World) (tempDir : string) :
  w_mkdir w 0%nat ""%string "github-renovate-updater-*"%string = inl tempDir ->
  exists w1 : World,
    w_get w1 = w_get w /\ w_create w1 = w_create w /\
    events (createSignedCommit repo content key w) =
      EvLog "Starting to create signed commit for repository: %s"
            [AStr (GetFullName repo)]
      :: EvMkdirTemp "" "github-renovate-updater-*" (inl tempDir)
      :: events (commitSteps repo content key tempDir w1)
         ++ [EvRemoveAll tempDir] /\
    result (createSignedCommit repo content key w) =
      result (commitSteps repo content key tempDir w1).
Proof.
  intros Hdir.
  exists (final (MkdirTemp "" "github-renovate-updater-*" w)).
  split; [reflexivity|]. split; [reflexivity|].
  unfold createSignedCommit.
  rewrite !bind_events, !bind_result.
  cbn [Log MkdirTemp result events final fst snd app].
  rewrite Hdir. rewrite defer_events, defer_result.
  split; reflexivity.
Qed.

(** The cases of a run of the publisher: each command and the write either
    fail or succeed. *)
Ltac commit_cases :=
  repeat (run;
    match goal with
    | |- context [match exec_err (w_command ?w ?k ?d ?n ?a) with _ => _ end] =>
        destruct (exec_err (w_command w k d n a)) eqn:?
    | |- context [match w_write ?w ?k ?n ?d with _ => _ end] =>
        destruct (w_write w k n d) eqn:?
    end).

(** *** The runs of the workflow *)

(** The workflow unfolded down to the call of [createSignedCommit]. *)
Ltac wstep :=
  cbv beta iota zeta delta
    [CheckAndUpdateRenovateConfig bind ret Log GetContents Get Create
     result events final fst snd shift negb];
  cbn [w_list w_contents w_get w_create w_clock w_mkdir w_command w_write
       w_dirs app].

(** Every run of the workflow is of one of two kinds.  A quiet run calls
    nothing but the fetch: the fetch or the decoding failed, or the path is
    a directory and the workflow panics, or the text holds no marker, or the
    run is a dry run.  A publishing run calls
    [createSignedCommit] on the rewritten text and, when that returns nil,
    fetches the repository and creates the pull request. *)
Lemma workflow_run (repo : Repository) (dry : bool) (key : string) (w : World) :
  let run := CheckAndUpdateRenovateConfig repo dry key w in
  let fetch := w_contents w 0%nat (GetLogin repo) (GetName repo) "renovate.json" in
  let fetched := EvGetContents (GetLogin repo) (GetName repo) "renovate.json" fetch in
  (calls (events run) = [fetched] /\
   ((exists r e, fetch = CErr r e /\
                 result run =
                   Returned (Some ("error getting renovate.json content: " ++ e)%string)) \/
    (exists r, fetch = CDirectory r /\ result run = Panicked nilDereference) \/
    (exists c r e, fetch = COk c r /\ GetContent c = inr e /\
                   result run =
                     Returned (Some ("error decoding content: " ++ e)%string)) \/
    (exists c r s, fetch = COk c r /\ GetContent c = inl s /\
                   result run = Returned None /\
                   (Contains s marker = false \/ dry = true)))) \/
  (exists c r s,
      fetch = COk c r /\ GetContent c = inl s /\
      Contains s marker = true /\ dry = false /\
      let commit := createSignedCommit repo (rewrite s) key
                      (final (GetContents (GetLogin repo) (GetName repo)
                                "renovate.json" w)) in
      exists tail,
        calls (events run) = fetched :: calls (events commit) ++ tail /\
        match result commit with
        | Some e =>
            tail = [] /\
            result run =
              Returned (Some ("error creating signed commit: " ++ e)%string)
        | None =>
            let g := w_get (final commit) 0%nat (GetLogin repo) (GetName repo) in
            match g with
            | GErr e =>
                tail = [EvGet (GetLogin repo) (GetName repo) g] /\
                result run =
                  Returned (Some ("error getting repository info: " ++ e)%string)
            | GOk info =>
                let pull := pullRequest (GetDefaultBranch info) in
                let p := w_create (final commit) 0%nat (GetLogin repo)
                           (GetName repo) pull in
                tail = [EvGet (GetLogin repo) (GetName repo) g;
                        EvCreate (GetLogin repo) (GetName repo) pull p] /\
                result run =
                  match p with
                  | Some e => Returned (Some ("error creating PR: " ++ e)%string)
                  | None => Returned None
                  end
            end
        end).
Proof.
  cbn zeta.
  destruct (w_contents w 0%nat (GetLogin repo) (GetName repo) "renovate.json")
    as [c r|r|r e] eqn:Hfetch.
  3:{ left. wstep. rewrite Hfetch. split; [reflexivity|].
      left. exists r, e. split; reflexivity. }
  2:{ left. wstep. rewrite Hfetch. split; [reflexivity|].
      right; left. exists r. split; reflexivity. }
  destruct (GetContent c) as [s|e] eqn:Hdecode.
  2:{ left. wstep. rewrite Hfetch. wstep. rewrite Hdecode.
      split; [reflexivity|]. right; right; left. exists c, r, e.
      split; [reflexivity|]. split; [exact Hdecode | reflexivity]. }
  destruct (Contains s marker) eqn:Hmarker.
  2:{ left. wstep. rewrite Hfetch. wstep. rewrite Hdecode. wstep.
      rewrite Hmarker. split; [reflexivity|].
      right; right; right. exists c, r, s.
      split; [reflexivity|]. split; [exact Hdecode|].
      split; [reflexivity | now left]. }
  destruct dry.
  { left. wstep. rewrite Hfetch. wstep. rewrite Hdecode. wstep.
    rewrite Hmarker. split; [reflexivity|].
    right; right; right. exists c, r, s.
    split; [reflexivity|]. split; [exact Hdecode|].
    split; [reflexivity | now right]. }
  right. exists c, r, s.
  split; [reflexivity|]. split; [exact Hdecode|].
  split; [exact Hmarker|]. split; [reflexivity|].
  wstep. rewrite Hfetch. wstep. rewrite Hdecode. wstep. rewrite Hmarker. wstep.
  match goal with
  | |- context [createSignedCommit repo (rewrite s) key ?w1] =>
      destruct (createSignedCommit repo (rewrite s) key w1) as [[res evs] wf]
  end.
  destruct res as [e|]; cbv beta iota.
  { exists []. unfold calls. cbn [filter isLog negb].
    rewrite ?filter_app. cbn [filter]. rewrite !app_nil_r.
    split; [reflexivity|]. split; reflexivity. }
  wstep.
  destruct (w_get wf 0%nat (GetLogin repo) (GetName repo)) as [info|e].
  - wstep.
    destruct (w_create wf 0%nat (GetLogin repo) (GetName repo)
                (pullRequest (GetDefaultBranch info))) as [e|] eqn:Hp;
      eexists; unfold calls; cbn [filter isLog negb]; rewrite !filter_app;
      cbn [filter isLog negb]; rewrite ?Hp; (split; [reflexivity|]);
      split; reflexivity.
  - eexists; unfold calls; cbn [filter isLog negb]; rewrite !filter_app;
      cbn [filter isLog negb]; (split; [reflexivity|]); split; reflexivity.
Qed.

Lemma createSignedCommit_publisherEvents (repo : Repository)
    (content key : string) :
  emits isPublisherEvent (createSignedCommit repo content key).
Proof. unfold createSignedCommit, commitSteps. emits_auto. Qed.

Lemma createSignedCommit_writesOnly (repo : Repository)
    (content key : string) :
  emits (writesOnly content) (createSignedCommit repo content key).
Proof.
  unfold createSignedCommit, commitSteps. unfold andThen, git, defer.
  repeat first
    [ apply emits_WriteFile; intros ?; apply String.eqb_refl
    | emits_step ].
Qed.

Lemma in_calls (e : Event) (evs : list Event) :
  In e evs -> isLog e = false -> In e (calls evs).
Proof. intros Hin Hlog. apply filter_In. now rewrite Hlog. Qed.

Lemma calls_in (e : Event) (evs : list Event) :
  In e (calls evs) -> In e evs /\ isLog e = false.
Proof.
  intros H. apply filter_In in H as [Hin Hlog].
  split; [exact Hin | now apply negb_true_iff].
Qed.

Lemma emits_in {A : Type} (P : Event -> bool) (m : M A) (w : World) (e : Event) :
  emits P m -> In e (events (m w)) -> P e = true.
Proof.
  intros Hm Hin. specialize (Hm w). rewrite forallb_forall in Hm. now apply Hm.
Qed.

Lemma existsb_calls (Q : Event -> bool) (evs : list Event) :
  (forall e, isLog e = true -> Q e = false) ->
  existsb Q (calls evs) = existsb Q evs.
Proof.
  intros HQ. induction evs as [|e evs IH]; [reflexivity|].
  unfold calls in *. cbn [filter existsb].
  destruct (isLog e) eqn:Hlog; cbn [negb existsb].
  - now rewrite (HQ e Hlog), IH.
  - now rewrite IH.
Qed.

(** When [createSignedCommit] returns nil, the directory was created and
    the push succeeded. *)
Lemma createSignedCommit_pushed (repo : Repository) (content key : string)
    (w : World) :
  result (createSignedCommit repo content key w) = None ->
  exists dir r,
    In (EvCommand dir "git" ["push"; "origin"; branchName]%string r)
       (events (createSignedCommit repo content key w)) /\
    exec_err r = None.
Proof.
  intros Hnone.
  destruct (w_mkdir w 0%nat ""%string "github-renovate-updater-*"%string)
    as [tempDir|err] eqn:Hdir.
  - destruct (createSignedCommit_run repo content key w tempDir Hdir)
      as (w1 & _ & _ & Hev & Hres).
    rewrite Hres in Hnone. rewrite Hev.
    destruct (commitSteps_pushes _ _ _ _ _ Hnone) as (e & Hin & r & -> & Hr).
    exists tempDir, r. split; [|exact Hr].
    right; right. apply in_or_app. now left.
  - exfalso. revert Hnone. unfold createSignedCommit.
    rewrite !bind_result. cbn [Log MkdirTemp result events final fst snd].
    rewrite Hdir. discriminate.
Qed.

(** A failed step of [createSignedCommit] is reported in its error. *)
Lemma createSignedCommit_reports (repo : Repository) (content key : string) :
  reports (createSignedCommit repo content key).
Proof.
  intros w e d Hin Hf.
  destruct (w_mkdir w 0%nat ""%string "github-renovate-updater-*"%string)
    as [tempDir|err] eqn:Hdir.
  - destruct (createSignedCommit_run repo content key w tempDir Hdir)
      as (w1 & _ & _ & Hev & Hres).
    rewrite Hev in Hin. rewrite Hres.
    destruct Hin as [<- | [<- | Hin]]; try discriminate.
    apply in_app_or in Hin as [Hin | [<- | []]]; [|discriminate].
    exact (commitSteps_reports _ _ _ _ _ e d Hin Hf).
  - exfalso. revert Hin. unfold createSignedCommit.
    rewrite !bind_events. cbn [Log MkdirTemp result events final fst snd app].
    rewrite Hdir. cbn [ret events fst snd].
    intros [<- | [<- | []]]; discriminate.
Qed.

(** *** Whole runs *)

Lemma crawlEvent_publishesNothing (org : string) (e : Event) :
  isCrawlEventOf org e = true -> publishesNothing e = true.
Proof.
  intros H. apply crawlEvent_reads in H as (H1 & _ & H3 & _).
  unfold publishesNothing. now rewrite H1, H3.
Qed.

Lemma dry_workflow_publishesNothing (repo : Repository) (key : string) :
  emits publishesNothing (CheckAndUpdateRenovateConfig repo true key).
Proof.
  unfold CheckAndUpdateRenovateConfig. cbn beta iota. emits_auto.
Qed.

Lemma dry_processRepos_publishesNothing (repos : list Repository)
    (key : string) :
  emits publishesNothing (processRepos repos true key).
Proof.
  induction repos as [|repo rest IH]; [apply emits_ret|].
  cbn [processRepos].
  apply emits_bind; [apply emits_Log; reflexivity|]. intros _.
  apply emits_bind; [apply dry_workflow_publishesNothing|].
  intros [err|msg]; [|apply emits_ret].
  apply emits_bind; [destruct err; repeat emits_step|]. intros _.
  exact IH.
Qed.

Lemma created_app (a b : list Event) :
  created (a ++ b) = created a ++ created b.
Proof.
  induction a as [|e a IH]; [reflexivity|].
  destruct e as [| | | | | |dir pattern [d|err]| | |]; cbn [app created];
    now rewrite ?IH.
Qed.

Lemma removed_app (a b : list Event) :
  removed (a ++ b) = removed a ++ removed b.
Proof.
  induction a as [|e a IH]; [reflexivity|].
  destruct e; cbn [app removed]; now rewrite ?IH.
Qed.

Lemma touchesNoDirs_created (evs : list Event) :
  forallb touchesNoDirs evs = true -> created evs = [] /\ removed evs = [].
Proof.
  induction evs as [|e evs IH]; [split; reflexivity|].
  cbn [forallb]. intros H. apply andb_true_iff in H as [He H].
  destruct (IH H) as [IH1 IH2].
  destruct e; try discriminate; split; assumption.
Qed.

Lemma balanced_of_emits {A : Type} (m : M A) :
  emits touchesNoDirs m -> balanced m.
Proof.
  intros Hm w. destruct (touchesNoDirs_created _ (Hm w)) as [-> ->].
  reflexivity.
Qed.

Lemma balanced_bind {A B : Type} (m : M A) (f : A -> M B) :
  balanced m -> (forall a, balanced (f a)) -> balanced (bind m f).
Proof.
  intros Hm Hf w. rewrite bind_events, created_app, removed_app.
  now rewrite Hm, Hf.
Qed.

Lemma commitSteps_touchesNoDirs (repo : Repository)
    (content key tempDir : string) :
  emits touchesNoDirs (commitSteps repo content key tempDir).
Proof. unfold commitSteps. emits_auto. Qed.

Lemma createSignedCommit_balanced (repo : Repository) (content key : string) :
  balanced (createSignedCommit repo content key).
Proof.
  intros w.
  destruct (w_mkdir w 0%nat ""%string "github-renovate-updater-*"%string)
    as [tempDir|err] eqn:Hdir.
  - destruct (createSignedCommit_run repo content key w tempDir Hdir)
      as (w1 & _ & _ & -> & _).
    cbn [created removed]. rewrite created_app, removed_app.
    destruct (touchesNoDirs_created _
                (commitSteps_touchesNoDirs repo content key tempDir w1))
      as [-> ->].
    reflexivity.
  - unfold createSignedCommit. rewrite !bind_events.
    cbn [Log MkdirTemp result events final fst snd app]. rewrite Hdir.
    reflexivity.
Qed.

Ltac balanced_step :=
  first
    [ apply createSignedCommit_balanced
    | apply balanced_bind; [|intros ?]
    | apply balanced_of_emits; solve [repeat emits_step]
    | match goal with
      | |- balanced (match ?x with _ => _ end) => destruct x
      end ].

Lemma workflow_balanced (repo : Repository) (dry : bool) (key : string) :
  balanced (CheckAndUpdateRenovateConfig repo dry key).
Proof. unfold CheckAndUpdateRenovateConfig. repeat balanced_step. Qed.

Lemma processRepos_balanced (repos : list Repository) (dry : bool)
    (key : string) :
  balanced (processRepos repos dry key).
Proof.
  induction repos as [|repo rest IH];
    [apply balanced_of_emits, emits_ret|].
  cbn [processRepos].
  apply balanced_bind; [apply balanced_of_emits; repeat emits_step|]. intros _.
  apply balanced_bind; [apply workflow_balanced|].
  intros [err|msg]; [|apply balanced_of_emits, emits_ret].
  apply balanced_bind;
    [destruct err; apply balanced_of_emits; repeat emits_step|].
  intros _. exact IH.
Qed.

Lemma crawlEvent_touchesNoDirs (org : string) (e : Event) :
  isCrawlEventOf org e = true -> touchesNoDirs e = true.
Proof. destruct e; cbn; intros H; try discriminate; reflexivity. Qed.

(** *** The page cursor *)

Lemma followsCursor_probe (cur : Z) (pc rest : list Event) :
  Forall (fun e => isProbeEvent e = true) pc ->
  followsCursor cur (pc ++ rest) = followsCursor cur rest.
Proof.
  induction 1 as [|e pc He Hpc IH]; [reflexivity|].
  destruct e; try discriminate; exact IH.
Qed.

Lemma noListing_probe (pc : list Event) :
  Forall (fun e => isProbeEvent e = true) pc ->
  forallb (fun e => negb (isListByOrg e)) pc = true.
Proof.
  induction 1 as [|e pc He Hpc IH]; [reflexivity|].
  destruct e; try discriminate; exact IH.
Qed.

Lemma followsCursor_processed (org : string)
    (opts : RepositoryListByOrgOptions) (repos : list Repository)
    (resp : Response) (tail : list Event) :
  match tail with EvSleep _ :: _ => False | _ => True end ->
  followsCursor (Page opts) (EvListByOrg org opts (LOk repos resp) :: tail) =
  if NextPage resp =? 0
  then forallb (fun e => negb (isListByOrg e)) tail
  else followsCursor (NextPage resp) tail.
Proof.
  intros H. cbn [followsCursor]. rewrite Z.eqb_refl. cbn [andb].
  destruct tail as [|[] tail]; try reflexivity. destruct H.
Qed.

Lemma crawl_followsCursor (org : string) :
  forall (fuel : nat) (opts : RepositoryListByOrgOptions)
         (acc : list Repository) (w : World),
    followsCursor (Page opts) (calls (events (crawl fuel org opts acc w))) = true.
Proof.
  induction fuel as [|fuel IH]; intros opts acc w; [reflexivity|].
  destruct (w_list w 0%nat org opts) as [repos resp|resp err] eqn:Hpage.
  - destruct (suspends resp (w_clock w 0%nat)) eqn:Hsus.
    + destruct (crawl_suspended fuel org opts acc w repos resp Hpage Hsus)
        as [_ Hcalls].
      cbn zeta in Hcalls. rewrite Hcalls.
      cbn [followsCursor]. rewrite Z.eqb_refl. apply IH.
    + destruct (crawl_processed fuel org opts acc w repos resp Hpage Hsus)
        as (w1 & _ & Hrun). cbn zeta in Hrun.
      destruct (probeRepos_calls org repos acc w1) as (Hpc & _ & _).
      cbn zeta in Hpc.
      destruct (NextPage resp =? 0) eqn:Hnext; destruct Hrun as [_ ->].
      * pose proof (processed_tail org opts _ [] Hpc I) as Htail.
        rewrite app_nil_r in Htail.
        rewrite (followsCursor_processed _ _ _ _ _ Htail), Hnext.
        apply noListing_probe, Hpc.
      * destruct (crawl_pages org fuel (withPage opts (NextPage resp))
                    (result (probeRepos org repos acc w1))
                    (final (probeRepos org repos acc w1))) as (J1 & _).
        cbn zeta in J1.
        pose proof (processed_tail org _ _ _ Hpc J1) as Htail.
        rewrite (followsCursor_processed _ _ _ _ _ Htail), Hnext.
        rewrite (followsCursor_probe _ _ _ (proj1 Hpc)).
        exact (IH (withPage opts (NextPage resp)) _ _).
  - destruct (crawl_failed fuel org opts acc w resp err Hpage) as [_ Hcalls].
    cbn zeta in Hcalls. rewrite Hcalls.
    cbn [followsCursor]. now rewrite Z.eqb_refl.
Qed.

(** *** What the probe logs *)

Lemma probePaths_logsNo404 (org : string) (repo : Repository)
    (paths : list string) (acc : list Repository) :
  emits logsNo404 (probePaths org repo paths acc).
Proof.
  induction paths as [|path rest IH]; [apply emits_ret|].
  assert (Hfailed : forall err,
            emits logsNo404
              (logCheckError path repo err ;; probePaths org repo rest acc)).
  { intros err. apply emits_bind; [|intros _; exact IH].
    unfold logCheckError.
    destruct (Contains err "404") eqn:Herr; cbn [negb];
      [apply emits_ret|].
    apply emits_Log. cbn. now rewrite Herr. }
  cbn [probePaths]. cbn zeta. unfold Until, logFound.
  repeat first [apply Hfailed | assumption | emits_step].
Qed.

Lemma probeRepos_logsNo404 (org : string) (repos acc : list Repository) :
  emits logsNo404 (probeRepos org repos acc).
Proof.
  revert acc; induction repos as [|repo rest IH]; intros acc;
    [apply emits_ret|].
  cbn [probeRepos]. apply emits_bind; [apply probePaths_logsNo404|].
  intros a. apply IH.
Qed.

Lemma crawl_logsNo404 (org : string) :
  forall (fuel : nat) (opts : RepositoryListByOrgOptions)
         (acc : list Repository),
    emits logsNo404 (crawl fuel org opts acc).
Proof.
  induction fuel as [|fuel IH]; intros opts acc; [apply emits_ret|].
  cbn [crawl]. cbn zeta. unfold Until.
  pose proof (probeRepos_logsNo404 org) as Hprobe.
  repeat first [apply IH | apply Hprobe | emits_step].
Qed.

(* ================================================================== *)
(** ** Facts about the waits of the crawl *)
(* ================================================================== *)

(** What precedes a list of calls matters only when it starts with a
    sleep. *)
Lemma waits_head (p : option Event) (cs : list Event) :
  startsAwake cs -> waitsExplained p cs = waitsExplained None cs.
Proof.
  destruct cs as [|e cs]; [reflexivity|].
  destruct e; intros H; try reflexivity. destruct H.
Qed.

Lemma waits_app (p : option Event) (a b : list Event) :
  waitsExplained p a = true ->
  waitsExplained None b = true -> startsAwake b ->
  waitsExplained p (a ++ b) = true.
Proof.
  intros Ha Hb Hawake. revert p Ha.
  induction a as [|e a IH]; intros p Ha.
  - cbn [app]. now rewrite waits_head.
  - cbn [app waitsExplained] in *.
    apply andb_true_iff in Ha as [He Ha].
    rewrite He. cbn [andb]. now apply IH.
Qed.

Lemma startsAwake_app (a b : list Event) :
  startsAwake a -> startsAwake b -> startsAwake (a ++ b).
Proof. destruct a as [|e a]; intros Ha Hb; [exact Hb | exact Ha]. Qed.

(** The sleep of a probe comes right after a failed content check, other
    than a 404, that reported no remaining calls; a probe starts with a
    content check. *)
Lemma probePaths_waits (org : string) (repo : Repository)
    (paths : list string) (acc : list Repository) (w : World) :
  let cs := calls (events (probePaths org repo paths acc w)) in
  waitsExplained None cs = true /\ startsAwake cs.
Proof.
  cbn zeta. revert w; induction paths as [|path rest IH]; intros w.
  - split; [reflexivity | exact I].
  - cbn [probePaths].
    probe_cases;
      try match goal with
          | |- context [probePaths org repo rest acc ?w1] =>
              let H1 := fresh "H" in
              let H2 := fresh "H" in
              destruct (IH w1) as [H1 H2]; revert H1 H2;
              destruct (probePaths org repo rest acc w1) as [[res evs] wf];
              unfold events; cbn [fst snd]; intros H1 H2
          end;
      unfold calls in *; cbn [filter isLog negb];
      cbn [waitsExplained isSleep exhausted andb startsAwake];
      repeat match goal with
             | H : _ = true |- _ => rewrite H
             | H : _ = false |- _ => rewrite H
             end;
      cbn [negb andb];
      (split; [|exact I]);
      try reflexivity;
      rewrite ?waits_head by assumption; assumption.
Qed.

Lemma probeRepos_waits (org : string) (repos acc : list Repository)
    (w : World) :
  let cs := calls (events (probeRepos org repos acc w)) in
  waitsExplained None cs = true /\ startsAwake cs.
Proof.
  cbn zeta. revert acc w; induction repos as [|repo rest IH]; intros acc w.
  - split; [reflexivity | exact I].
  - cbn [probeRepos]. rewrite bind_events, calls_app.
    destruct (probePaths_waits org repo candidatePaths acc w) as [H1 H2].
    destruct (IH (result (probePaths org repo candidatePaths acc w))
                 (final (probePaths org repo candidatePaths acc w)))
      as [H3 H4].
    split; [now apply waits_app | now apply startsAwake_app].
Qed.

(** A round of the page loop starts with a request for the current page. *)
Lemma crawl_first (org : string) (fuel : nat)
    (opts : RepositoryListByOrgOptions) (acc : list Repository) (w : World) :
  match calls (events (crawl fuel org opts acc w)) with
  | [] => True
  | e :: _ => exists r, e = EvListByOrg org opts r
  end.
Proof. exact (proj1 (crawl_pages org fuel opts acc w)). Qed.

Lemma first_awake (org : string) (opts : RepositoryListByOrgOptions)
    (cs : list Event) :
  match cs with
  | [] => True
  | e :: _ => exists r, e = EvListByOrg org opts r
  end ->
  startsAwake cs.
Proof. destruct cs as [|e cs]; [easy|]. now intros [r ->]. Qed.

(** Every sleep of the page loop comes right after a page response or a
    failed content check that reported no remaining calls. *)
Lemma crawl_waits (org : string) :
  forall (fuel : nat) (opts : RepositoryListByOrgOptions)
         (acc : list Repository) (w : World),
    waitsExplained None (calls (events (crawl fuel org opts acc w))) = true.
Proof.
  induction fuel as [|fuel IH]; intros opts acc w; [reflexivity|].
  destruct (w_list w 0%nat org opts) as [repos resp|resp err] eqn:Hpage.
  - destruct (suspends resp (w_clock w 0%nat)) eqn:Hsus.
    + destruct (crawl_suspended fuel org opts acc w repos resp Hpage Hsus)
        as [_ Hcalls].
      cbn zeta in Hcalls. rewrite Hcalls.
      apply andb_true_iff in Hsus as [Hrem _].
      cbn [waitsExplained isSleep exhausted andb]. rewrite Hrem.
      cbn [andb]. rewrite waits_head; [apply IH|].
      exact (first_awake org opts _ (crawl_first org fuel opts acc _)).
    + destruct (crawl_processed fuel org opts acc w repos resp Hpage Hsus)
        as (w1 & _ & Hrun). cbn zeta in Hrun.
      destruct (probeRepos_waits org repos acc w1) as [H1 H2].
      cbn zeta in H1, H2.
      destruct (NextPage resp =? 0).
      * destruct Hrun as [_ ->].
        cbn [waitsExplained isSleep andb]. now rewrite waits_head.
      * destruct Hrun as [_ ->].
        cbn [waitsExplained isSleep andb].
        rewrite waits_head.
        -- apply waits_app; [exact H1 | apply IH|].
           exact (first_awake org _ _ (crawl_first org fuel _ _ _)).
        -- apply startsAwake_app; [exact H2|].
           exact (first_awake org _ _ (crawl_first org fuel _ _ _)).
  - destruct (crawl_failed fuel org opts acc w resp err Hpage) as [_ Hcalls].
    cbn zeta in Hcalls. now rewrite Hcalls.
Qed.

(** A page response that does not suspend the loop is worked on at once:
    the call after it, if any, is no sleep. *)
Lemma crawl_processed_awake (fuel : nat) (org : string)
    (opts : RepositoryListByOrgOptions) (acc : list Repository) (w : World)
    (repos : list Repository) (resp : Response) :
  w_list w 0%nat org opts = LOk repos resp ->
  suspends resp (w_clock w 0%nat) = false ->
  exists tail,
    calls (events (crawl (S fuel) org opts acc w)) =
      EvListByOrg org opts (LOk repos resp) :: tail /\
    startsAwake tail.
Proof.
  intros Hpage Hsus.
  destruct (crawl_processed fuel org opts acc w repos resp Hpage Hsus)
    as (w1 & _ & Hrun). cbn zeta in Hrun.
  destruct (probeRepos_waits org repos acc w1) as [_ H2]. cbn zeta in H2.
  destruct (NextPage resp =? 0); destruct Hrun as [_ ->];
    eexists; (split; [reflexivity|]); [exact H2|].
  apply startsAwake_app; [exact H2|].
  exact (first_awake org _ _ (crawl_first org fuel _ _ _)).
Qed.

(* ================================================================== *)
(** ** Facts about the panic of the workflow *)
(* ================================================================== *)

(** When the root path is a directory the workflow logs that the content
    was retrieved and panics at the decoding. *)
Lemma workflow_directory (repo : Repository) (dry : bool) (key : string)
    (w : World) (r : Response) :
  w_contents w 0%nat (GetLogin repo) (GetName repo) "renovate.json"
    = CDirectory r ->
  let run := CheckAndUpdateRenovateConfig repo dry key w in
  result run = Panicked nilDereference /\
  events run =
    [EvLog "Starting to check and update renovate config for repository: %s"
           [AStr (GetFullName repo)];
     EvLog "Getting renovate.json content" [];
     EvGetContents (GetLogin repo) (GetName repo) "renovate.json"
       (CDirectory r);
     EvLog "Successfully retrieved renovate.json content" []].
Proof. intros H. cbn zeta. wstep. rewrite H. split; reflexivity. Qed.

(** The workflow panics in that case only. *)
Lemma workflow_panic (repo : Repository) (dry : bool) (key : string)
    (w : World) (msg : string) :
  result (CheckAndUpdateRenovateConfig repo dry key w) = Panicked msg ->
  msg = nilDereference /\
  exists r,
    w_contents w 0%nat (GetLogin repo) (GetName repo) "renovate.json"
      = CDirectory r.
Proof.
  intros Hres.
  destruct (workflow_run repo dry key w) as [[_ Hcase] | Hp]; cbn zeta in *.
  - destruct Hcase as [(r & e & _ & H) | [(r & Hfetch & H)
                      | [(c & r & e & _ & _ & H)
                      | (c & r & s & _ & _ & H & _)]]];
      rewrite H in Hres; try discriminate.
    injection Hres as <-. split; [reflexivity|]. now exists r.
  - exfalso.
    destruct Hp as (c & r & s & _ & _ & _ & _ & tail & _ & Htail).
    destruct (result (createSignedCommit repo (rewrite s) key _)).
    + destruct Htail as [_ H]. rewrite H in Hres. discriminate.
    + destruct (w_get _ 0%nat (GetLogin repo) (GetName repo)).
      * destruct Htail as [_ H]. rewrite H in Hres.
        destruct (w_create _ 0%nat _ _ _); discriminate.
      * destruct Htail as [_ H]. rewrite H in Hres. discriminate.
Qed.

(** The loop of the organization-wide run either starts the workflow of
    every repository and returns, or stops at the first repository whose
    root path is a directory, with the panic of its workflow. *)
Lemma processRepos_run (repos : list Repository) (dry : bool)
    (key : string) (w : World) :
  let run := processRepos repos dry key w in
  (result run = Returned tt /\
   workflowsStarted (events run) = map GetFullName repos) \/
  (exists k repo r,
      nth_error repos k = Some repo /\
      In (EvGetContents (GetLogin repo) (GetName repo) "renovate.json"
            (CDirectory r)) (events run) /\
      result run = Panicked nilDereference /\
      workflowsStarted (events run) = map GetFullName (firstn (S k) repos)).
Proof.
  cbn zeta. revert w; induction repos as [|repo rest IH]; intros w;
    [left; split; reflexivity|].
  cbn [processRepos map].
  rewrite !bind_result, !bind_events, !workflowsStarted_app.
  rewrite workflow_started.
  set (w1 := final (Log "Processing repository: %s" [AStr (GetFullName repo)] w)).
  destruct (result (CheckAndUpdateRenovateConfig repo dry key w1))
    as [err|msg] eqn:Hwork.
  - rewrite !bind_result, !bind_events, !workflowsStarted_app.
    match goal with
    | |- context [processRepos rest dry key ?w2] =>
        destruct (IH w2)
          as [[Hres Hst] | (k & repo' & r & Hk & Hin & Hres & Hst)]
    end.
    + left. rewrite Hres, Hst. split; [reflexivity|].
      destruct err; reflexivity.
    + right. exists (S k), repo', r. rewrite Hres, Hst.
      split; [exact Hk|]. split.
      * apply in_or_app. right. apply in_or_app. right.
        apply in_or_app. now right.
      * split; [reflexivity|]. destruct err; reflexivity.
  - right. destruct (workflow_panic _ _ _ _ _ Hwork) as [-> [r Hdir]].
    exists 0%nat, repo, r.
    split; [reflexivity|]. split.
    + apply in_or_app. right. apply in_or_app. left.
      destruct (workflow_directory repo dry key w1 r Hdir) as [_ ->].
      right; right; now left.
    + split; reflexivity.
Qed.

(* ================================================================== *)
(** ** The rewrite rule *)
(* ================================================================== *)

(** C1, as the claim states it, fails on a file that already names the new
    organization: the input below holds the marker three times, and the
    result holds the replacement four times, not three. *)
Lemma rewrite_three_markers_four_replacements :
  occurrences partlyMigrated marker = 3%nat /\
  ~ (occurrences (rewrite partlyMigrated) marker = 0%nat /\
     occurrences (rewrite partlyMigrated) replacement = 3%nat).
Proof.
  split; [reflexivity|].
  intros [_ H]. vm_compute in H. discriminate.
Qed.

(** C1 (amended): for every input string the rewrite leaves no occurrence of
    [github>MyOrg/], and the result holds [github>MyOtherOrg/] once for every
    occurrence of [github>MyOrg/] in the input, next to the occurrences of
    [github>MyOtherOrg/] the input already had; so an input with three
    occurrences of the marker and none of the replacement gives zero and
    three. *)
Theorem rewrite_replaces_every_marker (s : string) :
  occurrences (rewrite s) marker = 0%nat /\
  occurrences (rewrite s) replacement =
    (occurrences s marker + occurrences s replacement)%nat.
Proof.
  rewrite rewrite_scan.
  apply occurrences_replaceFrom; vm_compute; reflexivity.
Qed.

(* ================================================================== *)
(** ** The update workflow *)
(* ================================================================== *)

(** C2: when the fetch and the decoding succeed and the decoded text does
    not hold the marker, the workflow returns no error and emits nothing that
    belongs to [createSignedCommit] and no pull-request creation. *)
Theorem no_marker_no_op (repo : Repository) (dry : bool) (key : string)
    (w : World) (content : RepositoryContent) (resp : Response)
    (contentStr : string) :
  w_contents w 0%nat (GetLogin repo) (GetName repo) "renovate.json"
    = COk content resp ->
  GetContent content = inl contentStr ->
  Contains contentStr marker = false ->
  let run := CheckAndUpdateRenovateConfig repo dry key w in
  result run = Returned None /\
  existsb isCommitEvent (events run) = false /\
  existsb isCreate (events run) = false.
Proof.
  intros Hfetch Hdecode Hmarker run. subst run.
  run. rewrite Hfetch. run. rewrite Hdecode. run. rewrite Hmarker. run.
  repeat split.
Qed.

(** C3: when the decoded text holds the marker and the run is a dry run, the
    workflow returns no error; apart from the fetch of the file it only
    writes log lines, the dry-run notice among them: nothing of
    [createSignedCommit], no fetch of the repository's metadata, no
    pull-request creation. *)
Theorem dry_run_no_op (repo : Repository) (key : string)
    (w : World) (content : RepositoryContent) (resp : Response)
    (contentStr : string) :
  w_contents w 0%nat (GetLogin repo) (GetName repo) "renovate.json"
    = COk content resp ->
  GetContent content = inl contentStr ->
  Contains contentStr marker = true ->
  let run := CheckAndUpdateRenovateConfig repo true key w in
  result run = Returned None /\
  existsb isCommitEvent (events run) = false /\
  existsb isGet (events run) = false /\
  existsb isCreate (events run) = false /\
  calls (events run) =
    [EvGetContents (GetLogin repo) (GetName repo) "renovate.json"
                   (COk content resp)] /\
  In (EvLog "[DRY RUN] Would update renovate.json in %s"
            [AStr (GetFullName repo)]) (events run).
Proof.
  intros Hfetch Hdecode Hmarker run. subst run.
  run. rewrite Hfetch. run. rewrite Hdecode. run. rewrite Hmarker. run.
  repeat split. simpl. tauto.
Qed.

(** C10: the workflow asks for the file once, at the root path
    [renovate.json], whatever the environment answers; when that fetch fails,
    as it does for a repository that keeps the file at the nested path only,
    the workflow returns the fetch error and creates no commit and no pull
    request. *)
Theorem fetch_is_root_only (repo : Repository) (dry : bool) (key : string)
    (w : World) :
  let run := CheckAndUpdateRenovateConfig repo dry key w in
  map fst (contentChecks (events run)) = ["renovate.json"%string] /\
  forall (resp : option Response) (err : error),
    w_contents w 0%nat (GetLogin repo) (GetName repo) "renovate.json"
      = CErr resp err ->
    result run =
      Returned (Some ("error getting renovate.json content: " ++ err)%string) /\
    existsb isCommitEvent (events run) = false /\
    existsb isCreate (events run) = false.
Proof.
  intros run; subst run. split.
  - destruct (workflow_events repo dry key w) as [rest [-> Hrest]].
    cbn [contentChecks map fst]. now rewrite (afterFetch_contentChecks _ Hrest).
  - intros resp err H. run. rewrite H. run. repeat split.
Qed.

(* ================================================================== *)
(** ** The commit publisher *)
(* ================================================================== *)

(** C4: once the temporary directory is created, every run of
    [createSignedCommit] ends with its removal, whether a step failed or
    all succeeded, so the directory no longer exists when the call returns;
    and when a step fails, the error returned holds that step's diagnostic:
    the combined output of the git command, or the error of the write. *)
Theorem commit_cleans_up_and_reports (repo : Repository)
    (content key : string) (w : World) (tempDir : string) :
  w_mkdir w 0%nat ""%string "github-renovate-updater-*"%string = inl tempDir ->
  let run := createSignedCommit repo content key w in
  (exists evs, events run = evs ++ [EvRemoveAll tempDir]) /\
  ~ In tempDir (w_dirs (final run)) /\
  (forall dir name args r err,
      In (EvCommand dir name args r) (events run) ->
      exec_err r = Some err ->
      exists msg, result run = Some msg /\ Contains msg (output r) = true) /\
  (forall name data err,
      In (EvWriteFile name data (Some err)) (events run) ->
      exists msg, result run = Some msg /\ Contains msg err = true).
Proof.
  intros Hdir run.
  assert (Hrun : exists w1,
             events run =
               EvLog "Starting to create signed commit for repository: %s"
                     [AStr (GetFullName repo)]
               :: EvMkdirTemp "" "github-renovate-updater-*" (inl tempDir)
               :: events (commitSteps repo content key tempDir w1)
                  ++ [EvRemoveAll tempDir] /\
             result run = result (commitSteps repo content key tempDir w1) /\
             final run =
               final (RemoveAll tempDir
                        (final (commitSteps repo content key tempDir w1)))).
  { subst run. unfold createSignedCommit.
    rewrite !bind_events, !bind_result, !bind_final.
    cbn [Log MkdirTemp result events final fst snd app].
    rewrite Hdir.
    rewrite defer_events, defer_result, defer_final.
    eexists; repeat split. }
  destruct Hrun as [w1 [Hev [Hres Hfin]]].
  assert (Hrep : forall e d, In e (events run) -> failure e = Some d ->
                   exists msg, result run = Some msg /\ Contains msg d = true).
  { intros e d Hin Hf. rewrite Hev in Hin. rewrite Hres.
    destruct Hin as [<- | [<- | Hin]]; try discriminate.
    apply in_app_or in Hin as [Hin | [<- | []]]; [|discriminate].
    exact (commitSteps_reports _ _ _ _ _ e d Hin Hf). }
  repeat split.
  - rewrite Hev. eexists (_ :: _ :: _). reflexivity.
  - rewrite Hfin. apply not_in_removed.
  - intros dir name args r err Hin Herr.
    apply (Hrep _ _ Hin). simpl. now rewrite Herr.
  - intros name data err Hin. now apply (Hrep _ _ Hin).
Qed.

(* ================================================================== *)
(** ** The probe *)
(* ================================================================== *)

(** C6: the probe of a repository checks the root path first and the nested
    path after it (a path is checked a second time only after a rate-limit
    wait); every check but the last one failed, so nothing is checked after a
    success; the repository is recorded exactly when a check succeeded; and
    when the root path answers 404 and the nested path succeeds, the
    repository is recorded after exactly these two checks. *)
Theorem probe_tries_root_then_nested (org : string) (repo : Repository)
    (acc : list Repository) (w : World) :
  let run := probePaths org repo candidatePaths acc w in
  let checks := contentChecks (events run) in
  let root := "renovate.json"%string in
  let nested := ".github/renovate.json"%string in
  In (map fst checks)
     [[root]; [root; root]; [root; nested]; [root; root; nested];
      [root; nested; nested]; [root; root; nested; nested]] /\
  forallb (fun c => negb (snd c)) (removelast checks) = true /\
  result run = (if existsb snd checks then acc ++ [repo] else acc) /\
  forall resp err content resp',
    w_contents w 0%nat org (GetName repo) root = CErr (Some resp) err ->
    StatusCode resp = 404 ->
    w_contents w 1%nat org (GetName repo) nested = COk content resp' ->
    result run = acc ++ [repo] /\
    checks = [(root, false); (nested, true)].
Proof.
  intros run checks root nested. subst run checks root nested.
  match goal with
  | |- ?A /\ ?B /\ ?C /\ _ =>
      assert (H : A /\ B /\ C);
      [ | destruct H as (HA & HB & HC);
          split; [exact HA | split; [exact HB | split; [exact HC | ]]] ]
  end.
  - unfold candidatePaths.
    destruct (probePaths_cons org repo "renovate.json" [".github/renovate.json"%string] acc w)
      as [[-> [-> | ->]] | (w1 & pre & Hpre & -> & ->)];
      [simpl; tauto | simpl; tauto |].
    destruct (probePaths_cons org repo ".github/renovate.json" [] acc w1)
      as [[-> [-> | ->]] | (w2 & pre' & Hpre' & -> & ->)];
      destruct Hpre as [-> | ->]; try destruct Hpre' as [-> | ->];
      (split; [simpl; tauto | split; reflexivity]).
  - intros resp err content resp' Hroot H404 Hnested.
    run. rewrite Hroot. run. rewrite H404.
    change (404 =? 404) with true. run. rewrite Hnested.
    split; reflexivity.
Qed.



(* ================================================================== *)
(** ** The crawl *)
(* ================================================================== *)

(** C8: when the environment serves N pages, none with an exhausted rate
    limit and only the last with a zero next-page cursor, the crawl, given
    room for N page requests, returns its result after exactly N calls of
    the page listing: the first with cursor 0, each next one with the cursor
    the page before it reported. *)
Theorem pagination_fetches_each_page_once (org : string) (w : World)
    (pages : list (list Repository * Response)) (fuel : nat) :
  pages <> [] ->
  serves (w_list w) org initialOpts pages ->
  (length pages <= fuel)%nat ->
  let run := FindReposWithRenovate fuel org w in
  (exists found, result run = Crawled found) /\
  length (filter isListByOrg (events run)) = length pages /\
  pagesRequested (events run) =
    0 :: map (fun p => NextPage (snd p)) (removelast pages).
Proof.
  intros Hne Hs Hlen run. subst run. unfold FindReposWithRenovate.
  rewrite bind_result, bind_events.
  destruct (crawl_serves org pages initialOpts [] w fuel Hne Hs Hlen)
    as [Hdone Hreq].
  split; [exact Hdone|].
  rewrite <- pagesRequested_length.
  cbn [Log events result final fst snd app pagesRequested].
  rewrite Hreq. split; [|reflexivity].
  cbn [length]. rewrite length_map.
  destruct pages as [|p pages]; [congruence|].
  clear. revert p. induction pages as [|q pages IH]; intros p; [reflexivity|].
  cbn [removelast length] in *. now rewrite IH.
Qed.

(* ================================================================== *)
(** ** The rate-limit wait of the page loop *)
(* ================================================================== *)

(** C9, as worded, does not hold: a run that waits on the page loop and
    collects a repository twice.  The first answer of the listing suspends
    the loop, the page is requested again, and the page after it lists [B]
    once more: [B] is twice in the result. *)
Lemma wait_then_repository_listed_twice :
  let run := FindReposWithRenovate 3 "Acme" shiftedListing in
  pagesRequested (events run) = [0; 0; 2] /\
  filter isSleep (events run) = [EvSleep 100] /\
  result run = Crawled [repoB; repoB; repoC] /\
  ~ NoDup [repoB; repoB; repoC].
Proof.
  cbn zeta. split; [reflexivity|]. split; [reflexivity|].
  split; [reflexivity|].
  intros H. apply NoDup_cons_iff in H as [H _]. apply H. now left.
Qed.

(** C9 (amended): when a page response of the page loop reports no
    remaining calls and a reset time still ahead of the clock, the crawl
    sleeps and requests the same page again, with the same options, hence
    the same cursor, and with the collected list unchanged: no content check
    is made and nothing is collected between the response and the new
    request.  A page response that does not suspend the loop is never
    followed directly by a sleep, and every sleep of a run directly follows
    a page response or a failed content check, other than a 404, that
    reported no remaining calls.  Every repository on a page that is worked
    on (a page response not directly followed by a sleep) is probed, so no
    repository is skipped because of a wait.  The collected result is a
    subsequence of the repositories of the pages worked on, so a wait never
    duplicates a repository: the result has no duplicate when those pages
    list no repository twice, while a repository that the listing returns
    twice is collected twice, as in the run above. *)
Theorem rate_limit_wait_retries_same_page (fuel : nat) (org : string)
    (w : World) :
  (forall (n : nat) (opts : RepositoryListByOrgOptions)
          (acc : list Repository) (w0 : World)
          (repos : list Repository) (resp : Response),
      w_list w0 0%nat org opts = LOk repos resp ->
      (suspends resp (w_clock w0 0%nat) = true ->
       let next := crawl n org opts acc
                     (final (Now (final (ListByOrg org opts w0)))) in
       let round := crawl (S n) org opts acc w0 in
       result round = result next /\
       calls (events round) =
         EvListByOrg org opts (LOk repos resp)
         :: EvSleep (saturate (Reset (Rate resp) - w_clock w0 0%nat))
         :: calls (events next) /\
       match calls (events next) with
       | [] => True
       | e :: _ => exists r, e = EvListByOrg org opts r
       end) /\
      (suspends resp (w_clock w0 0%nat) = false ->
       exists tail,
         calls (events (crawl (S n) org opts acc w0)) =
           EvListByOrg org opts (LOk repos resp) :: tail /\
         startsAwake tail)) /\
  let run := FindReposWithRenovate fuel org w in
  let cs := calls (events run) in
  waitsExplained None cs = true /\
  retriesSamePage cs = true /\
  (forall repo, In repo (concat (effectivePages cs)) ->
     exists r, In (EvGetContents org (GetName repo) "renovate.json" r) cs) /\
  (forall found, result run = Crawled found ->
     Subseq found (concat (effectivePages cs)) /\
     (NoDup (concat (effectivePages cs)) -> NoDup found)).
Proof.
  split.
  - intros n opts acc w0 repos resp Hpage. split; intros Hsus.
    + destruct (crawl_suspended n org opts acc w0 repos resp Hpage Hsus)
        as [Hres Hcalls].
      cbn zeta. split; [exact Hres|].
      split; [exact Hcalls|]. apply crawl_first.
    + exact (crawl_processed_awake n org opts acc w0 repos resp Hpage Hsus).
  - intros run cs. subst run cs. unfold FindReposWithRenovate.
    rewrite bind_result, bind_events, calls_app.
    cbn [Log events result final fst snd calls filter isLog negb app].
    destruct (crawl_pages org fuel initialOpts [] w) as (_ & J2 & J3 & J4).
    cbn zeta in J2, J3, J4.
    split; [apply crawl_waits|].
    split; [exact J2|]. split; [exact J3|].
    intros found Hfound.
    destruct (J4 found Hfound) as (more & -> & Hsub).
    split; [exact Hsub|]. intros Hnd. exact (Subseq_NoDup _ _ Hsub Hnd).
Qed.

(* ================================================================== *)
(** ** The two modes of a run *)
(* ================================================================== *)

(** C5, which the code does not meet: an organization-wide run in which the
    failure of one repository ends the run.  The crawl collects [C], then
    [D], whose [renovate.json] is a directory, then [B].  The workflow of
    [C] returns an error, which is logged, and the loop goes on; the
    workflow of [D] panics at [content.GetContent()] on the nil content;
    nothing recovers the panic, so the process ends with status 2 and the
    workflow of [B], which would have opened a pull request, never
    starts. *)
Theorem directory_config_aborts_run :
  let run := main 1 acmeFlags acmeWithDirectory in
  result (FindReposWithRenovate 1 "Acme" acmeWithDirectory)
    = Crawled [repoC; repoD; repoB] /\
  result (CheckAndUpdateRenovateConfig repoC false "" acmeWithDirectory)
    = Returned (Some "error getting renovate.json content: 404 Not Found"%string) /\
  result (CheckAndUpdateRenovateConfig repoD false "" acmeWithDirectory)
    = Panicked nilDereference /\
  result (CheckAndUpdateRenovateConfig repoB false "" acmeWithDirectory)
    = Returned None /\
  result run = Panics nilDereference /\
  exitStatus (result run) = Some 2 /\
  workflowsStarted (events run) = ["Acme/C"; "Acme/D"]%string /\
  last (events run) (EvSleep 0) =
    EvLog "Successfully retrieved renovate.json content" [] /\
  filter isCreate (events run) = [] /\
  filter isCreate
    (events (CheckAndUpdateRenovateConfig repoB false "" acmeWithDirectory))
    = [EvCreate "Acme" "B" (pullRequest "main") None].
Proof. vm_compute. repeat split. Qed.

(* ================================================================== *)
(** ** The theorems at work on the fixtures *)
(* ================================================================== *)

Lemma no_marker_no_op_witness :
  let run := CheckAndUpdateRenovateConfig repoC false "" servesPlain in
  result run = Returned None /\
  existsb isCommitEvent (events run) = false /\
  existsb isCreate (events run) = false.
Proof.
  apply (no_marker_no_op repoC false "" servesPlain plainConfig okResponse
           "extends: config:base"); reflexivity.
Defined.

Lemma dry_run_no_op_witness :
  result (CheckAndUpdateRenovateConfig repoB true "" servesOrgConfig) =
    Returned None.
Proof.
  apply (dry_run_no_op repoB "" servesOrgConfig orgConfig okResponse
           "extends: github>MyOrg/lib"); reflexivity.
Defined.

Lemma commit_cleans_up_and_reports_witness :
  let run := createSignedCommit repoB "extends: github>MyOtherOrg/lib" ""
               cloneFails in
  ~ In "/tmp/github-renovate-updater-1"%string (w_dirs (final run)) /\
  exists msg,
    result run = Some msg /\
    Contains msg "fatal: repository not found" = true.
Proof.
  intros run.
  destruct (commit_cleans_up_and_reports repoB
              "extends: github>MyOtherOrg/lib" "" cloneFails
              "/tmp/github-renovate-updater-1" eq_refl)
    as (_ & Hgone & Hcmd & _).
  split; [exact Hgone|].
  apply (Hcmd ""%string "git"%string
              ["clone"; "git@github.com:Acme/B.git";
               "/tmp/github-renovate-updater-1"]%string
              cloneRefused "exit status 128"%string).
  - vm_compute. tauto.
  - reflexivity.
Defined.


Lemma probe_tries_root_then_nested_witness :
  result (probePaths "Acme" repoC candidatePaths [] acme) = [repoC] /\
  contentChecks (events (probePaths "Acme" repoC candidatePaths [] acme)) =
    [("renovate.json"%string, false); (".github/renovate.json"%string, true)].
Proof.
  exact (proj2 (proj2 (proj2
           (probe_tries_root_then_nested "Acme" repoC [] acme)))
           notFound "404 Not Found"%string plainConfig okResponse
           eq_refl eq_refl eq_refl).
Defined.


Lemma pagination_fetches_each_page_once_witness :
  length (filter isListByOrg
            (events (FindReposWithRenovate 3 "Acme" servesThreePages))) = 3%nat /\
  pagesRequested (events (FindReposWithRenovate 3 "Acme" servesThreePages)) =
    [0; 2; 3].
Proof.
  assert (Hne : threePages <> []) by discriminate.
  assert (Hs : serves (w_list servesThreePages) "Acme" initialOpts threePages).
  { repeat split; try discriminate. }
  assert (Hlen : (length threePages <= 3)%nat) by (simpl; lia).
  destruct (pagination_fetches_each_page_once "Acme" servesThreePages
              threePages 3 Hne Hs Hlen) as (_ & Hcount & Hreq).
  split; [exact Hcount | exact Hreq].
Defined.

Lemma rate_limit_wait_retries_same_page_witness :
  calls (events (crawl 2 "Acme" initialOpts [] limitedPage)) =
    EvListByOrg "Acme" initialOpts (LOk [repoB] exhaustedPage)
    :: EvSleep 100
    :: calls (events (crawl 1 "Acme" initialOpts []
                        (final (Now (final (ListByOrg "Acme" initialOpts
                                              limitedPage)))))) /\
  result (FindReposWithRenovate 2 "Acme" limitedPage) = Crawled [repoB] /\
  NoDup [repoB].
Proof.
  destruct (rate_limit_wait_retries_same_page 2 "Acme" limitedPage)
    as (Hround & _ & _ & _ & Hres).
  destruct (Hround 1%nat initialOpts [] limitedPage [repoB] exhaustedPage
              eq_refl) as [Hsus _].
  destruct (Hsus eq_refl) as (_ & Hcalls & _).
  split; [exact Hcalls|]. split; [reflexivity|].
  destruct (Hres [repoB] eq_refl) as [_ Hnd].
  apply Hnd. vm_compute. repeat constructor. simpl. tauto.
Defined.

Lemma fetch_is_root_only_witness :
  result (FindReposWithRenovate 1 "Acme" acme) = Crawled [repoC; repoB] /\
  result (CheckAndUpdateRenovateConfig repoC false "" acme) =
    Returned (Some "error getting renovate.json content: 404 Not Found"%string) /\
  existsb isCommitEvent
    (events (CheckAndUpdateRenovateConfig repoC false "" acme)) = false /\
  existsb isCreate
    (events (CheckAndUpdateRenovateConfig repoC false "" acme)) = false.
Proof.
  split; [reflexivity|].
  exact (proj2 (fetch_is_root_only repoC false "" acme)
           (Some notFound) "404 Not Found"%string eq_refl).
Defined.

(** The end-to-end scenario: of [A], [B] and [C], the crawl keeps [C] and
    [B]; the workflow of [C] fails at the fetch of the root path, and the
    workflow of [B] goes on to push the rewritten file and to open the pull
    request against [B]'s default branch. *)
Example acme_end_to_end :
  let run := main 1 acmeFlags acme in
  result run = Returns /\
  workflowsStarted (events run) = ["Acme/C"; "Acme/B"]%string /\
  In (EvWriteFile "/tmp/github-renovate-updater-1/renovate.json"
        "extends: github>MyOtherOrg/lib" None) (events run) /\
  filter isCreate (events run) =
    [EvCreate "Acme" "B" (pullRequest "main") None].
Proof. vm_compute. repeat split. tauto. Qed.

(* ================================================================== *)
(** ** Further properties: the rewrite *)
(* ================================================================== *)

(** X1: the rewrite of line 257 makes the text longer by five bytes for each
    occurrence of the marker, the difference in length of the two
    literals. *)
Theorem rewrite_length (s : string) :
  String.length (rewrite s) =
  (String.length s + 5 * occurrences s marker)%nat.
Proof. apply rewrite_length_aux. Qed.

(** X2: the rewrite changes the text exactly when the test of line 250
    finds the marker, so the content handed to [createSignedCommit] always
    differs from the content fetched. *)
Theorem rewrite_changes_iff_marker (s : string) :
  rewrite s = s <-> Contains s marker = false.
Proof.
  split.
  - apply rewrite_changes_aux.
  - intros H. rewrite rewrite_scan. now apply replaceFrom_absent.
Qed.

(** X3: the rewritten text no longer passes the test of line 250, and the
    rewrite applied to it changes nothing: a second pass of the workflow
    over a file it has rewritten is a no-op. *)
Theorem rewrite_idempotent (s : string) :
  Contains (rewrite s) marker = false /\
  rewrite (rewrite s) = rewrite s.
Proof.
  pose proof (rewrite_idempotent_aux s) as H.
  split; [exact H|].
  rewrite (rewrite_scan (rewrite s)). now apply replaceFrom_absent.
Qed.

(* ================================================================== *)
(** ** Further properties: the crawl *)
(* ================================================================== *)

(** X4: the crawl only reads.  Whatever the environment answers and however
    long the crawl runs, it emits nothing but log lines, listings of the
    organization asked for (type "all", 100 per page), content checks in
    that organization at [renovate.json] or [.github/renovate.json], and
    sleeps of a positive duration: no metadata fetch, no pull request, no
    git command and no file-system call. *)
Theorem crawl_only_reads (fuel : nat) (org : string) (w : World) :
  let run := FindReposWithRenovate fuel org w in
  forallb (isCrawlEventOf org) (events run) = true /\
  existsb isCommitEvent (events run) = false /\
  existsb isGet (events run) = false /\
  existsb isCreate (events run) = false.
Proof.
  intros run. pose proof (FindReposWithRenovate_crawlEvents fuel org w) as H.
  fold run in H. split; [exact H|].
  repeat split; apply (existsb_none (isCrawlEventOf org)); try exact H;
    intros e He; now apply crawlEvent_reads in He.
Qed.

(** X5: the page loop has no bound on its retries.  While every answer of
    the listing reports no remaining calls and a reset time ahead of the
    clock, the crawl asks for the same page again after each sleep and never
    returns: after any number of rounds it has made that many requests of
    the first page, slept that many times, and checked no repository. *)
Theorem crawl_retries_page_without_bound (org : string) (w : World) :
  (forall k, exists repos resp,
      w_list w k org initialOpts = LOk repos resp /\
      suspends resp (w_clock w k) = true) ->
  forall fuel : nat,
    let run := FindReposWithRenovate fuel org w in
    result run = OutOfFuel /\
    pagesRequested (events run) = repeat 0 fuel /\
    length (filter (fun e => match e with EvSleep _ => true | _ => false end)
                   (calls (events run))) = fuel /\
    contentChecks (calls (events run)) = [].
Proof.
  intros Hw fuel run. subst run. unfold FindReposWithRenovate.
  rewrite bind_result, bind_events, calls_app.
  cbn [Log events result final fst snd calls filter isLog negb app
       pagesRequested].
  exact (crawl_exhausted org initialOpts [] fuel w Hw).
Qed.

(** X6: the probe of a page costs between one and four content checks for
    each repository listed: at least the root path, at most both paths
    with one retry each. *)
Theorem probe_check_budget (org : string) (repos acc : list Repository)
    (w : World) :
  let checks := contentChecks (events (probeRepos org repos acc w)) in
  (length repos <= length checks <= 4 * length repos)%nat.
Proof.
  cbn zeta. revert acc w.
  induction repos as [|repo rest IH]; intros acc w; [simpl; lia|].
  cbn [probeRepos]. rewrite bind_events, contentChecks_app, length_app.
  pose proof (probePaths_checks_bound org repo acc w) as Hone.
  cbn zeta in Hone.
  specialize (IH (result (probePaths org repo candidatePaths acc w))
                 (final (probePaths org repo candidatePaths acc w))).
  cbn [length]. lia.
Qed.

(** X7: repositories without the file pass silently.  When every content
    check in the organization is answered 404, the probe of a page records
    nothing, checks the root path and then the nested path of each
    repository exactly once, and neither logs nor sleeps. *)
Theorem absent_files_cost_two_checks (org : string)
    (repos acc : list Repository) (w : World) :
  (forall k name path, exists resp err,
      w_contents w k org name path = CErr (Some resp) err /\
      StatusCode resp = 404) ->
  let run := probeRepos org repos acc w in
  result run = acc /\
  map fst (contentChecks (events run)) =
    flat_map (fun _ => ["renovate.json"; ".github/renovate.json"]%string) repos /\
  forallb isGetContents (events run) = true.
Proof. intros Hw. exact (probeRepos_absent org repos acc w Hw). Qed.

(** X19: the page requests of every run follow the cursor.  The first
    listing asks for page 0; after a response followed by a rate-limit wait
    the same page is asked for again; after a response that is worked on,
    the next listing asks for the next page that response reported, and when
    it reported 0 no listing follows; after a failed listing nothing
    follows. *)
Theorem crawl_follows_cursor (fuel : nat) (org : string) (w : World) :
  followsCursor 0 (calls (events (FindReposWithRenovate fuel org w))) = true.
Proof.
  unfold FindReposWithRenovate.
  rewrite bind_events, calls_app.
  cbn [Log events result final fst snd calls filter isLog negb app].
  exact (crawl_followsCursor org fuel initialOpts [] w).
Qed.

(** X20: the crawl never logs a failed content check whose error text holds
    "404": such failures count as an absent file, whatever the response
    was. *)
Theorem crawl_never_logs_404 (fuel : nat) (org : string) (w : World) :
  forall path full err,
    In (EvLog "Error checking %s in %s: %v" [AStr path; AStr full; AStr err])
       (events (FindReposWithRenovate fuel org w)) ->
    Contains err "404" = false.
Proof.
  intros path full err Hin.
  assert (H : emits logsNo404 (FindReposWithRenovate fuel org)).
  { unfold FindReposWithRenovate.
    apply emits_bind; [apply emits_Log; reflexivity|]. intros _.
    apply crawl_logsNo404. }
  apply (emits_in _ _ _ _ H) in Hin. cbn in Hin.
  now apply negb_true_iff in Hin.
Qed.

(* ================================================================== *)
(** ** Further properties: the commit publisher *)
(* ================================================================== *)

(** X8: once the directory is created, [createSignedCommit] returns nil
    exactly when no git command and no write failed; and when it returns
    nil, the push of the branch from the directory was run and succeeded. *)
Theorem commit_succeeds_iff_no_step_failed (repo : Repository)
    (content key : string) (w : World) (tempDir : string) :
  w_mkdir w 0%nat ""%string "github-renovate-updater-*"%string = inl tempDir ->
  let run := createSignedCommit repo content key w in
  (result run = None <->
   forall e, In e (events run) -> failure e = None) /\
  (result run = None ->
   exists r,
     In (EvCommand tempDir "git" ["push"; "origin"; "update-renovate-config"]%string r)
        (events run) /\
     exec_err r = None).
Proof.
  intros Hdir run.
  destruct (createSignedCommit_run repo content key w tempDir Hdir)
    as (w1 & _ & _ & Hev & Hres).
  fold run in Hev, Hres. rewrite Hev, Hres. split; [split|].
  - intros Hnone e Hin.
    destruct (failure e) as [d|] eqn:Hf; [|reflexivity].
    destruct Hin as [<- | [<- | Hin]]; try discriminate.
    apply in_app_or in Hin as [Hin | [<- | []]]; [|discriminate].
    destruct (commitSteps_reports _ _ _ _ _ e d Hin Hf) as (msg & Hmsg & _).
    congruence.
  - intros Hall.
    destruct (result (commitSteps repo content key tempDir w1)) as [msg|] eqn:Hr;
      [|reflexivity].
    destruct (commitSteps_blames _ _ _ _ _ msg Hr) as (e & d & Hin & Hf).
    rewrite Hall in Hf; [discriminate|].
    right; right. apply in_or_app. now left.
  - intros Hnone.
    destruct (commitSteps_pushes _ _ _ _ _ Hnone) as (e & Hin & r & -> & Hr).
    exists r. split; [|exact Hr].
    right; right. apply in_or_app. now left.
Qed.

(** X9: a failed step ends the publishing: the failed git command or write
    is the last thing [createSignedCommit] does before it removes the
    directory; no later step runs and nothing more is logged. *)
Theorem commit_stops_at_failure (repo : Repository)
    (content key : string) (w : World) (tempDir : string) :
  w_mkdir w 0%nat ""%string "github-renovate-updater-*"%string = inl tempDir ->
  forall (e : Event) (d : string),
    In e (events (createSignedCommit repo content key w)) ->
    failure e = Some d ->
    exists pre,
      events (createSignedCommit repo content key w) =
      pre ++ [e; EvRemoveAll tempDir].
Proof.
  intros Hdir e d Hin Hf.
  destruct (createSignedCommit_run repo content key w tempDir Hdir)
    as (w1 & _ & _ & Hev & _).
  rewrite Hev in *.
  destruct Hin as [<- | [<- | Hin]]; try discriminate.
  apply in_app_or in Hin as [Hin | [<- | []]]; [|discriminate].
  destruct (commitSteps_stops _ _ _ _ _ e d Hin Hf) as [pre ->].
  eexists (_ :: _ :: pre). cbn [app]. now rewrite <- app_assoc.
Qed.

(** X10: signing follows the key.  Without a key, [createSignedCommit] runs
    no [git config] and its commit carries no [-S].  With a key, a commit is
    only run after [git config user.signingkey] with that key has
    succeeded in the directory, and the commit carries [-S]. *)
Theorem commit_signs_iff_key (repo : Repository)
    (content key : string) (w : World) (tempDir : string) :
  w_mkdir w 0%nat ""%string "github-renovate-updater-*"%string = inl tempDir ->
  let run := createSignedCommit repo content key w in
  (key = ""%string ->
   forall dir name args r,
     In (EvCommand dir name args r) (events run) ->
     hd ""%string args <> "config"%string /\
     (hd ""%string args = "commit"%string -> ~ In "-S"%string args)) /\
  (key <> ""%string ->
   forall dir name args r,
     In (EvCommand dir name args r) (events run) ->
     hd ""%string args = "commit"%string ->
     In "-S"%string args /\
     exists r',
       In (EvCommand tempDir "git" ["config"; "user.signingkey"; key]%string r')
          (events run) /\
       exec_err r' = None).
Proof.
  intros Hdir run. subst run. split.
  - intros ->. unfold createSignedCommit, commitSteps, commitCmd.
    cbn [String.eqb]. run. rewrite Hdir. commit_cases;
      intros dir name args r Hin; cbn [In] in Hin;
      repeat (destruct Hin as [Hin | Hin];
              [ try discriminate Hin;
                injection Hin as <- <- <- <-;
                (split; [intros H; discriminate H
                        | intros H; try discriminate H;
                          intros Hs; cbn [In] in Hs;
                          repeat (destruct Hs as [Hs | Hs];
                                  [discriminate Hs|]); exact Hs])
              | ]); contradiction.
  - intros Hkey. apply String.eqb_neq in Hkey.
    unfold createSignedCommit, commitSteps, commitCmd.
    rewrite Hkey. run. rewrite Hdir. commit_cases;
      intros dir name args r Hin Hhd; cbn [In] in Hin;
      repeat (destruct Hin as [Hin | Hin];
              [ try discriminate Hin;
                injection Hin as <- <- <- <-;
                try discriminate Hhd;
                (split;
                 [ cbn [In]; tauto
                 | eexists; split;
                   [ cbn [In]; repeat first [left; reflexivity | right]
                   | eassumption ] ])
              | ]); contradiction.
Qed.

(* ================================================================== *)
(** ** Further properties: the update workflow *)
(* ================================================================== *)

(** X11: whatever the workflow writes to disk is the rewrite of the text it
    fetched and decoded: that text held the marker, what is written differs
    from it, and what is written holds the marker no more. *)
Theorem written_content_is_rewritten (repo : Repository) (dry : bool)
    (key : string) (w : World) :
  forall name data res,
    In (EvWriteFile name data res)
       (events (CheckAndUpdateRenovateConfig repo dry key w)) ->
    Contains data marker = false /\
    exists c r s,
      w_contents w 0%nat (GetLogin repo) (GetName repo) "renovate.json"
        = COk c r /\
      GetContent c = inl s /\
      Contains s marker = true /\
      data = rewrite s /\
      data <> s.
Proof.
  intros name data res Hin.
  apply in_calls in Hin; [|reflexivity].
  destruct (workflow_run repo dry key w) as [[Hq _] | Hp]; cbn zeta in *.
  - rewrite Hq in Hin. destruct Hin as [Hin | []]. discriminate.
  - destruct Hp as (c & r & s & Hfetch & Hdecode & Hmarker & _ & tail & Hcalls & Htail).
    rewrite Hcalls in Hin.
    assert (Hdata : data = rewrite s).
    { destruct Hin as [Hin | Hin]; [discriminate|].
      apply in_app_or in Hin as [Hin | Hin].
      - apply calls_in in Hin as [Hin _].
        apply (emits_in _ _ _ _ (createSignedCommit_writesOnly repo (rewrite s) key))
          in Hin.
        now apply String.eqb_eq in Hin.
      - exfalso.
        destruct (result (createSignedCommit repo (rewrite s) key _)).
        + destruct Htail as [-> _]. destruct Hin.
        + destruct (w_get _ 0%nat (GetLogin repo) (GetName repo));
            destruct Htail as [-> _];
            repeat (destruct Hin as [Hin | Hin]; [discriminate|]);
            destruct Hin. }
    subst data. split; [apply rewrite_idempotent_aux|].
    exists c, r, s. repeat split; auto.
    intros Heq. apply rewrite_changes_aux in Heq. congruence.
Qed.

(** X12: a pull request is only created at the end of a publishing run: the
    run is no dry run, the push of the branch has succeeded, the request is
    for the workflow's repository, its head is the branch that was pushed,
    and its base is the default branch that the fetch of the repository's
    metadata, made after the push, returned. *)
Theorem pull_request_follows_push (repo : Repository) (dry : bool)
    (key : string) (w : World) :
  forall owner name pull res,
    In (EvCreate owner name pull res)
       (events (CheckAndUpdateRenovateConfig repo dry key w)) ->
    dry = false /\
    owner = GetLogin repo /\ name = GetName repo /\
    (exists dir r,
        In (EvCommand dir "git" ["push"; "origin"; Head pull]%string r)
           (events (CheckAndUpdateRenovateConfig repo dry key w)) /\
        exec_err r = None) /\
    (exists info,
        In (EvGet (GetLogin repo) (GetName repo) (GOk info))
           (events (CheckAndUpdateRenovateConfig repo dry key w)) /\
        Base pull = GetDefaultBranch info).
Proof.
  intros owner name pull res Hin.
  apply in_calls in Hin; [|reflexivity].
  destruct (workflow_run repo dry key w) as [[Hq _] | Hp]; cbn zeta in *.
  { rewrite Hq in Hin. destruct Hin as [Hin | []]. discriminate. }
  destruct Hp as (c & r & s & _ & _ & _ & Hdry & tail & Hcalls & Htail).
  set (commit := createSignedCommit repo (rewrite s) key _) in *.
  assert (Hsub : forall e, In e (calls (events (CheckAndUpdateRenovateConfig repo dry key w))) ->
                           In e (events (CheckAndUpdateRenovateConfig repo dry key w)))
    by (intros e He; now apply calls_in in He).
  rewrite Hcalls in Hin, Hsub.
  destruct Hin as [Hin | Hin]; [discriminate|].
  apply in_app_or in Hin as [Hin | Hin].
  { apply calls_in in Hin as [Hin _].
    apply (emits_in _ _ _ _ (createSignedCommit_publisherEvents repo (rewrite s) key))
      in Hin. discriminate. }
  destruct (result commit) eqn:Hres.
  { destruct Htail as [-> _]. destruct Hin. }
  destruct (createSignedCommit_pushed _ _ _ _ Hres) as (dir & r' & Hpush & Hok).
  fold commit in Hpush.
  destruct (w_get (final commit) 0%nat (GetLogin repo) (GetName repo))
    as [info|e] eqn:Hget; destruct Htail as [-> _].
  2:{ destruct Hin as [Hin | []]. discriminate. }
  destruct Hin as [Hin | [Hin | []]]; [discriminate|].
  injection Hin as <- <- <- <-.
  split; [exact Hdry|]. split; [reflexivity|]. split; [reflexivity|]. split.
  - exists dir, r'. split; [|exact Hok].
    apply Hsub. right. apply in_or_app. left.
    now apply in_calls.
  - exists info. split; [|reflexivity].
    apply Hsub. right. apply in_or_app. right. now left.
Qed.

(** X13: the workflow returns nil in three ways only: the text holds no
    marker, the run is a dry run, or the pull request was created; and
    whenever the creation of the pull request succeeded, the workflow
    returns nil. *)
Theorem workflow_succeeds_three_ways (repo : Repository) (dry : bool)
    (key : string) (w : World) :
  let run := CheckAndUpdateRenovateConfig repo dry key w in
  (result run = Returned None ->
   exists c r s,
     w_contents w 0%nat (GetLogin repo) (GetName repo) "renovate.json"
       = COk c r /\
     GetContent c = inl s /\
     (Contains s marker = false \/ dry = true \/
      exists pull,
        In (EvCreate (GetLogin repo) (GetName repo) pull None) (events run))) /\
  (forall owner name pull,
     In (EvCreate owner name pull None) (events run) ->
     result run = Returned None).
Proof.
  cbn zeta.
  destruct (workflow_run repo dry key w) as [[Hq Hcase] | Hp]; cbn zeta in *.
  - split.
    + intros Hnone.
      destruct Hcase as [(r & e & _ & Hres) | [(r & _ & Hres)
                        | [(c & r & e & _ & _ & Hres)
                        | (c & r & s & Hfetch & Hdecode & _ & Hwhy)]]];
        try congruence.
      exists c, r, s. split; [exact Hfetch|]. split; [exact Hdecode|].
      destruct Hwhy; auto.
    + intros owner name pull Hin. apply in_calls in Hin; [|reflexivity].
      rewrite Hq in Hin. destruct Hin as [Hin | []]. discriminate.
  - destruct Hp as (c & r & s & Hfetch & Hdecode & _ & _ & tail & Hcalls & Htail).
    set (commit := createSignedCommit repo (rewrite s) key _) in *.
    assert (Hsub : forall e, In e (calls (events (CheckAndUpdateRenovateConfig repo dry key w))) ->
                             In e (events (CheckAndUpdateRenovateConfig repo dry key w)))
      by (intros e He; now apply calls_in in He).
    assert (Hnot : forall owner name pull,
               ~ In (EvCreate owner name pull None) (calls (events commit))).
    { intros owner name pull Hin. apply calls_in in Hin as [Hin _].
      apply (emits_in _ _ _ _ (createSignedCommit_publisherEvents repo (rewrite s) key))
        in Hin. discriminate. }
    rewrite Hcalls in Hsub.
    destruct (result commit).
    { destruct Htail as [-> Hres]. split; [congruence|].
      intros owner name pull Hin. apply in_calls in Hin; [|reflexivity].
      rewrite Hcalls in Hin. destruct Hin as [Hin | Hin]; [discriminate|].
      apply in_app_or in Hin as [Hin | []]. now apply Hnot in Hin. }
    destruct (w_get (final commit) 0%nat (GetLogin repo) (GetName repo))
      as [info|e].
    2:{ destruct Htail as [-> Hres]. split; [congruence|].
        intros owner name pull Hin. apply in_calls in Hin; [|reflexivity].
        rewrite Hcalls in Hin. destruct Hin as [Hin | Hin]; [discriminate|].
        apply in_app_or in Hin as [Hin | [Hin | []]];
          [now apply Hnot in Hin | discriminate]. }
    destruct Htail as [-> Hres].
    destruct (w_create (final commit) 0%nat (GetLogin repo) (GetName repo)
                (pullRequest (GetDefaultBranch info))) as [e|] eqn:Hp.
    + split; [congruence|].
      intros owner name pull Hin. apply in_calls in Hin; [|reflexivity].
      rewrite Hcalls in Hin. destruct Hin as [Hin | Hin]; [discriminate|].
      apply in_app_or in Hin as [Hin | [Hin | [Hin | []]]];
        [now apply Hnot in Hin | discriminate | discriminate].
    + split; [|intros; exact Hres].
      intros _. exists c, r, s. split; [exact Hfetch|]. split; [exact Hdecode|].
      right; right. exists (pullRequest (GetDefaultBranch info)).
      apply Hsub. right. apply in_or_app. right. right. now left.
Qed.

(** X14: when a git command or the write fails during the workflow, the
    workflow returns an error that holds the step's diagnostic, and it
    neither fetches the repository's metadata nor creates a pull request. *)
Theorem failed_step_opens_no_pull_request (repo : Repository) (dry : bool)
    (key : string) (w : World) :
  let run := CheckAndUpdateRenovateConfig repo dry key w in
  forall (e : Event) (d : string),
    In e (events run) -> failure e = Some d ->
    (exists msg, result run = Returned (Some msg) /\ Contains msg d = true) /\
    existsb isGet (events run) = false /\
    existsb isCreate (events run) = false.
Proof.
  cbn zeta. intros e d Hin Hf.
  assert (Hlog : isLog e = false) by (destruct e; try discriminate; reflexivity).
  apply in_calls in Hin; [|exact Hlog].
  rewrite <- (existsb_calls isGet), <- (existsb_calls isCreate);
    try (intros [] Hl; try discriminate; reflexivity).
  destruct (workflow_run repo dry key w) as [[Hq _] | Hp]; cbn zeta in *.
  { rewrite Hq in Hin. destruct Hin as [<- | []]. discriminate. }
  destruct Hp as (c & r & s & _ & _ & _ & _ & tail & Hcalls & Htail).
  set (commit := createSignedCommit repo (rewrite s) key _) in *.
  rewrite Hcalls in *.
  assert (Hcommit : In e (events commit)).
  { destruct Hin as [<- | Hin]; [discriminate|].
    apply in_app_or in Hin as [Hin | Hin]; [now apply calls_in in Hin|].
    exfalso. destruct (result commit).
    - destruct Htail as [-> _]. destruct Hin.
    - destruct (w_get (final commit) 0%nat (GetLogin repo) (GetName repo));
        destruct Htail as [-> _];
        repeat (destruct Hin as [<- | Hin]; [discriminate|]); destruct Hin. }
  destruct (createSignedCommit_reports repo (rewrite s) key _ e d Hcommit Hf)
    as (msg & Hmsg & Hd).
  fold commit in Hmsg. rewrite Hmsg in Htail. destruct Htail as [-> Hres].
  split.
  - eexists. split; [exact Hres|]. now apply Contains_app_l.
  - rewrite app_nil_r. cbn [existsb isGet isCreate orb].
    pose proof (createSignedCommit_publisherEvents repo (rewrite s) key) as Hpub.
    split; apply (existsb_none isPublisherEvent);
      try (intros [] Hx; try discriminate; reflexivity);
      apply forallb_forall; intros x Hx; apply calls_in in Hx as [Hx _];
      exact (emits_in _ _ _ _ Hpub Hx).
Qed.

(* ================================================================== *)
(** ** Further properties: whole runs *)
(* ================================================================== *)

(** X15: [main] fails fast.  Without a token it ends through [log.Fatal]
    before any call.  In single-repository mode, when the repository cannot
    be fetched it ends through [log.Fatalf] after that one call: no content
    is fetched and no workflow starts. *)
Theorem main_fails_fast (fuel : nat) (flags : Flags) (w : World) :
  (githubToken flags = ""%string ->
   result (main fuel flags w) =
     Fatal "GitHub token is required. Please provide it using the -token flag" []
   /\ events (main fuel flags w) = []) /\
  (githubToken flags <> ""%string -> repoName flags <> ""%string ->
   forall err,
     w_get w 0%nat (orgName flags) (repoName flags) = GErr err ->
     result (main fuel flags w) =
       Fatal "Error getting repository %s: %v"
             [AStr (repoName flags); AStr err] /\
     events (main fuel flags w) =
       [EvGet (orgName flags) (repoName flags) (GErr err)]).
Proof.
  split.
  - intros Htoken. unfold main. rewrite Htoken. split; reflexivity.
  - intros Htoken Hrepo err Hget.
    apply String.eqb_neq in Htoken. apply String.eqb_neq in Hrepo.
    unfold main. rewrite Htoken, Hrepo. cbn [negb].
    rewrite bind_result, bind_events.
    change (result (Get (orgName flags) (repoName flags) w))
      with (w_get w 0%nat (orgName flags) (repoName flags)).
    change (events (Get (orgName flags) (repoName flags) w))
      with [EvGet (orgName flags) (repoName flags)
              (w_get w 0%nat (orgName flags) (repoName flags))].
    rewrite Hget. split; reflexivity.
Qed.

(** X16: in an organization-wide run, a failed page listing ends the run
    through [log.Fatalf] right after the crawl, whatever the crawl had
    matched on the pages before: no workflow starts, nothing is fetched for
    a pull request, nothing is published. *)
Theorem main_crawl_failure (fuel : nat) (flags : Flags) (w : World)
    (err : error) :
  githubToken flags <> ""%string ->
  repoName flags = ""%string ->
  result (FindReposWithRenovate fuel (orgName flags) w) = CrawlError err ->
  let run := main fuel flags w in
  result run = Fatal "Error finding repositories: %v" [AStr err] /\
  events run = events (FindReposWithRenovate fuel (orgName flags) w) /\
  existsb isWorkflowStart (events run) = false /\
  existsb isGet (events run) = false /\
  existsb isCommitEvent (events run) = false /\
  existsb isCreate (events run) = false.
Proof.
  intros Htoken Hrepo Hcrawl run. subst run.
  apply String.eqb_neq in Htoken.
  assert (Hev : events (main fuel flags w) =
                events (FindReposWithRenovate fuel (orgName flags) w)).
  { unfold main. rewrite Htoken, Hrepo. cbn [String.eqb negb].
    rewrite bind_events, Hcrawl. cbn [ret events fst snd].
    now rewrite app_nil_r. }
  split.
  { unfold main. rewrite Htoken, Hrepo. cbn [String.eqb negb].
    now rewrite bind_result, Hcrawl. }
  split; [exact Hev|]. rewrite Hev.
  pose proof (FindReposWithRenovate_crawlEvents fuel (orgName flags) w) as H.
  repeat split; apply (existsb_none (isCrawlEventOf (orgName flags)));
    try exact H; intros e He; now apply crawlEvent_reads in He.
Qed.

(** X17: a dry run never publishes.  With the dry-run flag set, in either
    mode and whatever the environment answers, [main] emits no event of
    [createSignedCommit] (no directory, no git command, no write) and
    creates no pull request. *)
Theorem dry_run_never_publishes (fuel : nat) (flags : Flags) (w : World) :
  dryRun flags = true ->
  forallb publishesNothing (events (main fuel flags w)) = true.
Proof.
  intros Hdry. revert w. change (emits publishesNothing (main fuel flags)).
  unfold main. rewrite Hdry.
  destruct (String.eqb (githubToken flags) ""); [apply emits_ret|].
  destruct (negb (String.eqb (repoName flags) "")).
  - apply emits_bind; [repeat emits_step|]. intros g.
    destruct g as [repo|err]; [|apply emits_ret].
    apply emits_bind; [repeat emits_step|]. intros _.
    apply emits_bind; [apply dry_workflow_publishesNothing|].
    intros [[e|]|msg]; apply emits_ret.
  - apply emits_bind.
    { apply (emits_weaken (isCrawlEventOf (orgName flags)));
        [apply crawlEvent_publishesNothing
        | apply FindReposWithRenovate_crawlEvents]. }
    intros c. destruct c as [repos|err|]; try apply emits_ret.
    apply emits_bind; [repeat emits_step|]. intros _.
    apply emits_bind; [apply dry_processRepos_publishesNothing|].
    intros [u|msg]; apply emits_ret.
Qed.

(** X18: no temporary directory outlives a run.  In every run of [main],
    the directories that [os.MkdirTemp] created are exactly the directories
    [os.RemoveAll] was called on, in the same order. *)
Theorem main_removes_what_it_creates (fuel : nat) (flags : Flags) (w : World) :
  created (events (main fuel flags w)) = removed (events (main fuel flags w)).
Proof.
  revert w. change (balanced (main fuel flags)). unfold main.
  destruct (String.eqb (githubToken flags) "");
    [apply balanced_of_emits, emits_ret|].
  destruct (negb (String.eqb (repoName flags) "")).
  - apply balanced_bind; [apply balanced_of_emits; repeat emits_step|].
    intros g. destruct g as [repo|err]; [|apply balanced_of_emits, emits_ret].
    apply balanced_bind; [apply balanced_of_emits; repeat emits_step|].
    intros _. apply balanced_bind; [apply workflow_balanced|].
    intros [[e|]|msg]; apply balanced_of_emits, emits_ret.
  - apply balanced_bind.
    { apply balanced_of_emits.
      apply (emits_weaken (isCrawlEventOf (orgName flags)));
        [apply crawlEvent_touchesNoDirs
        | apply FindReposWithRenovate_crawlEvents]. }
    intros c. destruct c as [repos|err|];
      try apply balanced_of_emits, emits_ret.
    apply balanced_bind; [apply balanced_of_emits; repeat emits_step|].
    intros _. apply balanced_bind; [apply processRepos_balanced|].
    intros [u|msg]; apply balanced_of_emits, emits_ret.
Qed.

(* ================================================================== *)
(** ** Further properties: errors and panics of the workflow *)
(* ================================================================== *)

(** X21: what the two modes of [main] do with the outcome of the workflow.
    In an organization-wide run, after the crawl has returned its list, the
    loop starts the workflow of the repositories of the list in order,
    whatever error the workflows before returned: either it starts all of
    them and [main] returns, or the workflow of some repository of the list
    found a directory at the root path and panicked, and then the
    repositories after it are not started and the process ends with that
    panic.  In single-repository mode an error of the workflow ends the run
    through [log.Fatalf], with exit status 1, a panic with exit status 2,
    and a nil result with [main] returning. *)
Theorem errors_contained_until_panic (fuel : nat) (flags : Flags)
    (w : World) :
  githubToken flags <> ""%string ->
  (repoName flags = ""%string ->
   forall repos,
     result (FindReposWithRenovate fuel (orgName flags) w) = Crawled repos ->
     let run := main fuel flags w in
     exists evs,
       events run =
         events (FindReposWithRenovate fuel (orgName flags) w)
         ++ EvLog "Found %d repositories with renovate.json"
                  [AInt (Z.of_nat (length repos))]
         :: evs /\
       ((result run = Returns /\
         workflowsStarted evs = map GetFullName repos) \/
        (exists k repo r,
            nth_error repos k = Some repo /\
            In (EvGetContents (GetLogin repo) (GetName repo) "renovate.json"
                  (CDirectory r)) evs /\
            result run = Panics nilDereference /\
            workflowsStarted evs = map GetFullName (firstn (S k) repos)))) /\
  (repoName flags <> ""%string ->
   forall repo,
     w_get w 0%nat (orgName flags) (repoName flags) = GOk repo ->
     let work := CheckAndUpdateRenovateConfig repo (dryRun flags)
                   (gpgKeyID flags)
                   (final (Get (orgName flags) (repoName flags) w)) in
     (forall err, result work = Returned (Some err) ->
        exitStatus (result (main fuel flags w)) = Some 1) /\
     (forall msg, result work = Panicked msg ->
        exitStatus (result (main fuel flags w)) = Some 2) /\
     (result work = Returned None -> result (main fuel flags w) = Returns)).
Proof.
  intros Htoken. apply String.eqb_neq in Htoken. split.
  - intros Hrepo repos Hcrawl run. subst run. unfold main.
    rewrite Htoken, Hrepo. cbn [String.eqb negb].
    rewrite bind_result, bind_events, Hcrawl.
    rewrite !bind_result, !bind_events.
    eexists. split; [cbn [Log events fst snd app]; reflexivity|].
    match goal with
    | |- context [processRepos repos ?d ?k ?w1] =>
        destruct (processRepos_run repos d k w1)
          as [[Hres Hst] | (k' & repo & r & Hk & Hin & Hres & Hst)];
        cbn zeta in *; rewrite Hres
    end.
    + left. split; [reflexivity|].
      rewrite workflowsStarted_app, Hst. cbn. now rewrite app_nil_r.
    + right. exists k', repo, r. split; [exact Hk|]. split.
      * apply in_or_app. now left.
      * split; [reflexivity|].
        rewrite workflowsStarted_app, Hst. cbn. now rewrite app_nil_r.
  - intros Hrepo repo Hget work. subst work.
    apply String.eqb_neq in Hrepo.
    unfold main. rewrite Htoken, Hrepo. cbn [negb].
    rewrite bind_result.
    change (result (Get (orgName flags) (repoName flags) w))
      with (w_get w 0%nat (orgName flags) (repoName flags)).
    rewrite Hget. rewrite !bind_result.
    cbn [Log final snd].
    split; [|split]; intros; match goal with H : result _ = _ |- _ => rewrite H end;
      reflexivity.
Qed.

(** X22: a repository whose [renovate.json] is a directory.  The content
    check of the crawl succeeds on it, so the crawl collects the repository
    at the root path after that one check.  The workflow, whose fetch also
    succeeds, logs that the content was retrieved and then panics on the
    nil content, with no further call; and the workflow panics in that case
    only. *)
Theorem directory_is_collected_then_panics (org : string)
    (repo : Repository) (acc : list Repository) (dry : bool) (key : string)
    (w : World) :
  (forall r,
     w_contents w 0%nat org (GetName repo) "renovate.json" = CDirectory r ->
     let probe := probePaths org repo candidatePaths acc w in
     result probe = acc ++ [repo] /\
     contentChecks (events probe) = [("renovate.json"%string, true)]) /\
  (forall r,
     w_contents w 0%nat (GetLogin repo) (GetName repo) "renovate.json"
       = CDirectory r ->
     let run := CheckAndUpdateRenovateConfig repo dry key w in
     result run = Panicked nilDereference /\
     events run =
       [EvLog "Starting to check and update renovate config for repository: %s"
              [AStr (GetFullName repo)];
        EvLog "Getting renovate.json content" [];
        EvGetContents (GetLogin repo) (GetName repo) "renovate.json"
          (CDirectory r);
        EvLog "Successfully retrieved renovate.json content" []]) /\
  (forall msg,
     result (CheckAndUpdateRenovateConfig repo dry key w) = Panicked msg ->
     msg = nilDereference /\
     exists r,
       w_contents w 0%nat (GetLogin repo) (GetName repo) "renovate.json"
         = CDirectory r).
Proof.
  split; [|split].
  - intros r H. cbn zeta. unfold candidatePaths. cbn [probePaths]. step.
    rewrite H. split; reflexivity.
  - intros r H. exact (workflow_directory repo dry key w r H).
  - intros msg H. exact (workflow_panic repo dry key w msg H).
Qed.

(* ================================================================== *)
(** ** The further properties at work on the fixtures *)
(* ================================================================== *)

Lemma crawl_retries_page_without_bound_witness :
  result (FindReposWithRenovate 7 "Acme" alwaysLimited) = OutOfFuel /\
  pagesRequested (events (FindReposWithRenovate 7 "Acme" alwaysLimited)) =
    [0; 0; 0; 0; 0; 0; 0].
Proof.
  assert (H : forall k, exists repos resp,
             w_list alwaysLimited k "Acme"%string initialOpts = LOk repos resp /\
             suspends resp (w_clock alwaysLimited k) = true).
  { intros k. exists [repoB], exhaustedPage. split; reflexivity. }
  destruct (crawl_retries_page_without_bound "Acme" alwaysLimited H 7)
    as (H1 & H2 & _).
  split; [exact H1 | exact H2].
Defined.

Lemma absent_files_cost_two_checks_witness :
  result (probeRepos "Acme" [repoA; repoB] [] noneHasFile) = [] /\
  map fst (contentChecks (events (probeRepos "Acme" [repoA; repoB] [] noneHasFile))) =
    ["renovate.json"; ".github/renovate.json";
     "renovate.json"; ".github/renovate.json"]%string.
Proof.
  assert (H : forall k name path, exists resp err,
             w_contents noneHasFile k "Acme"%string name path
               = CErr (Some resp) err /\
             StatusCode resp = 404).
  { intros k name path. exists notFound, "404 Not Found"%string.
    split; reflexivity. }
  destruct (absent_files_cost_two_checks "Acme" [repoA; repoB] [] noneHasFile H)
    as (H1 & H2 & _).
  split; [exact H1 | exact H2].
Defined.

Lemma commit_succeeds_iff_no_step_failed_witness :
  exists r,
    In (EvCommand "/tmp/github-renovate-updater-1" "git"
          ["push"; "origin"; "update-renovate-config"]%string r)
       (events (createSignedCommit repoB "extends: github>MyOtherOrg/lib" ""
                  offline)) /\
    exec_err r = None.
Proof.
  exact (proj2 (commit_succeeds_iff_no_step_failed repoB
                  "extends: github>MyOtherOrg/lib" "" offline
                  "/tmp/github-renovate-updater-1" eq_refl) eq_refl).
Defined.

Lemma commit_stops_at_failure_witness :
  exists pre,
    events (createSignedCommit repoB "extends: github>MyOtherOrg/lib" ""
              cloneFails) =
    pre ++ [EvCommand "" "git"
              ["clone"; "git@github.com:Acme/B.git";
               "/tmp/github-renovate-updater-1"]%string cloneRefused;
            EvRemoveAll "/tmp/github-renovate-updater-1"].
Proof.
  apply (commit_stops_at_failure repoB "extends: github>MyOtherOrg/lib" ""
           cloneFails "/tmp/github-renovate-updater-1" eq_refl _
           "fatal: repository not found"%string).
  - vm_compute. tauto.
  - reflexivity.
Defined.

Lemma commit_signs_iff_key_witness :
  In "-S"%string ["commit"; "-m"; "Update renovate.json to use MyOtherOrg"; "-S"]%string /\
  exists r',
    In (EvCommand "/tmp/github-renovate-updater-1" "git"
          ["config"; "user.signingkey"; "ABCD1234"]%string r')
       (events (createSignedCommit repoB "extends: github>MyOtherOrg/lib"
                  "ABCD1234" offline)) /\
    exec_err r' = None.
Proof.
  assert (Hkey : "ABCD1234"%string <> ""%string) by discriminate.
  apply (proj2 (commit_signs_iff_key repoB "extends: github>MyOtherOrg/lib"
                  "ABCD1234" offline "/tmp/github-renovate-updater-1" eq_refl)
           Hkey "/tmp/github-renovate-updater-1"%string "git"%string
           ["commit"; "-m"; "Update renovate.json to use MyOtherOrg"; "-S"]%string
           (mkExec "" None)).
  - vm_compute. tauto.
  - reflexivity.
Defined.

Lemma written_content_is_rewritten_witness :
  Contains "extends: github>MyOtherOrg/lib" marker = false.
Proof.
  apply (written_content_is_rewritten repoB false "" acme
           "/tmp/github-renovate-updater-1/renovate.json"%string
           "extends: github>MyOtherOrg/lib"%string None).
  vm_compute. tauto.
Defined.

Lemma pull_request_follows_push_witness :
  exists info,
    In (EvGet "Acme" "B" (GOk info))
       (events (CheckAndUpdateRenovateConfig repoB false "" acme)) /\
    Base (pullRequest "main") = GetDefaultBranch info.
Proof.
  apply (pull_request_follows_push repoB false "" acme
           "Acme"%string "B"%string (pullRequest "main") None).
  vm_compute. tauto.
Defined.

Lemma workflow_succeeds_three_ways_witness :
  result (CheckAndUpdateRenovateConfig repoB false "" acme) = Returned None.
Proof.
  apply (proj2 (workflow_succeeds_three_ways repoB false "" acme)
           "Acme"%string "B"%string (pullRequest "main")).
  vm_compute. tauto.
Defined.

Lemma failed_step_opens_no_pull_request_witness :
  (exists msg,
      result (CheckAndUpdateRenovateConfig repoB false "" acmePushFails)
        = Returned (Some msg) /\
      Contains msg "remote: Permission denied" = true) /\
  existsb isGet
    (events (CheckAndUpdateRenovateConfig repoB false "" acmePushFails)) = false /\
  existsb isCreate
    (events (CheckAndUpdateRenovateConfig repoB false "" acmePushFails)) = false.
Proof.
  apply (failed_step_opens_no_pull_request repoB false "" acmePushFails
           (EvCommand "/tmp/github-renovate-updater-1" "git"
              ["push"; "origin"; "update-renovate-config"]%string pushRefused)).
  - vm_compute. tauto.
  - reflexivity.
Defined.

Lemma main_fails_fast_witness :
  events (main 1 (mkFlags "Acme" "" false "" "") acme) = [] /\
  events (main 1 (mkFlags "Acme" "Z" false "ghp_token" "") acme) =
    [EvGet "Acme" "Z" (GErr "404 Not Found"%string)].
Proof.
  split.
  - exact (proj2 (proj1 (main_fails_fast 1 (mkFlags "Acme" "" false "" "") acme)
                    eq_refl)).
  - assert (Htoken : githubToken (mkFlags "Acme" "Z" false "ghp_token" "")
                     <> ""%string) by discriminate.
    assert (Hrepo : repoName (mkFlags "Acme" "Z" false "ghp_token" "")
                    <> ""%string) by discriminate.
    exact (proj2 (proj2 (main_fails_fast 1
                           (mkFlags "Acme" "Z" false "ghp_token" "") acme)
                    Htoken Hrepo "404 Not Found"%string eq_refl)).
Defined.

Lemma main_crawl_failure_witness :
  result (main 3 acmeFlags offline) =
    Fatal "Error finding repositories: %v"
          [AStr "dial tcp: connection refused"].
Proof.
  assert (Htoken : githubToken acmeFlags <> ""%string) by discriminate.
  exact (proj1 (main_crawl_failure 3 acmeFlags offline
                  "dial tcp: connection refused"%string Htoken eq_refl eq_refl)).
Defined.

Lemma dry_run_never_publishes_witness :
  forallb publishesNothing (events (main 1 acmeDryRun acme)) = true.
Proof. exact (dry_run_never_publishes 1 acmeDryRun acme eq_refl). Defined.

Lemma crawl_never_logs_404_witness :
  Contains rateLimitError "404" = false.
Proof.
  apply (crawl_never_logs_404 1 "Acme" limitedTwice
           "renovate.json"%string "Acme/C"%string rateLimitError).
  vm_compute. tauto.
Defined.

Lemma errors_contained_until_panic_witness :
  (exists evs,
      events (main 1 acmeFlags acmeWithDirectory) =
        events (FindReposWithRenovate 1 "Acme" acmeWithDirectory)
        ++ EvLog "Found %d repositories with renovate.json" [AInt 3] :: evs /\
      ((result (main 1 acmeFlags acmeWithDirectory) = Returns /\
        workflowsStarted evs = map GetFullName [repoC; repoD; repoB]) \/
       (exists k repo r,
           nth_error [repoC; repoD; repoB] k = Some repo /\
           In (EvGetContents (GetLogin repo) (GetName repo) "renovate.json"
                 (CDirectory r)) evs /\
           result (main 1 acmeFlags acmeWithDirectory)
             = Panics nilDereference /\
           workflowsStarted evs =
             map GetFullName (firstn (S k) [repoC; repoD; repoB])))) /\
  exitStatus (result (main 1 acmeSingleC acme)) = Some 1.
Proof.
  split.
  - assert (Htoken : githubToken acmeFlags <> ""%string) by discriminate.
    exact (proj1 (errors_contained_until_panic 1 acmeFlags acmeWithDirectory
                    Htoken)
             eq_refl [repoC; repoD; repoB] eq_refl).
  - assert (Htoken : githubToken acmeSingleC <> ""%string) by discriminate.
    assert (Hrepo : repoName acmeSingleC <> ""%string) by discriminate.
    exact (proj1 (proj2 (errors_contained_until_panic 1 acmeSingleC acme
                           Htoken)
                    Hrepo repoC eq_refl)
             "error getting renovate.json content: 404 Not Found"%string
             eq_refl).
Defined.

Lemma directory_is_collected_then_panics_witness :
  result (probePaths "Acme" repoD candidatePaths [] acmeWithDirectory)
    = [repoD] /\
  result (CheckAndUpdateRenovateConfig repoD false "" acmeWithDirectory)
    = Panicked nilDereference.
Proof.
  destruct (directory_is_collected_then_panics "Acme" repoD [] false ""
              acmeWithDirectory) as (Hprobe & Hwork & _).
  split.
  - exact (proj1 (Hprobe okResponse eq_refl)).
  - exact (proj1 (Hwork okResponse eq_refl)).
Defined.
